(** * server.js: balance and status reconciliation of sales, layaways and payments

    A shallow embedding of the request handlers of [server.js] that compute
    balances, reconcile the cached status of a sale ([ventas.estado]) or of a
    layaway ([apartados.estadoApartado]) and admit payments ([abonos]).

    - JavaScript numbers and SQLite REAL values are binary64 numbers, Rocq's
      primitive [float]: sums, differences and comparisons round and compare
      as the processor does.  A decimal written in this file stands, as in
      JSON, for the binary64 number closest to it.
    - The database is a record of tables; [exec] gives the meaning of each
      SQL statement the handlers issue.
    - A handler is a program [prog] of responses and database calls with
      their callbacks.  [event_loop] runs the queued database calls in order,
      as Node.js does: a callback runs only after the code that issued the
      call has run to its end.
    - The fields of a request body are absent or JSON values: null, a
      boolean, a number, a string or an array of such values; a field that is
      a JSON object is not covered.  What the
      built-ins [parseFloat] and [parseInt] make of a string or of an array
      is left open: the results hold whatever they are.
    - Requests are served one at a time, with no other request in flight. *)

From Stdlib Require Import QArith ZArith Lia String Ascii PrimFloat Floats.
From stdpp Require Import gmap list sorting strings.

#[local] Set Warnings "-inexact-float,-register-all".

Local Open Scope Z_scope.

(** ** Numbers *)

Definition num : Type := float.

Bind Scope float_scope with num.

Definition NaN : num := nan.

Definition isNaN (x : num) : bool := is_nan x.

(** [x + y] and [x - y], rounded to the nearest binary64 number. *)
Definition js_add (x y : num) : num := PrimFloat.add x y.

Definition js_sub (x y : num) : num := PrimFloat.sub x y.

(** [x <= y] and [x < y]; false as soon as one side is NaN. *)
Definition js_le (x y : num) : bool := PrimFloat.leb x y.

Definition js_lt (x y : num) : bool := PrimFloat.ltb x y.

(** [x > y]. *)
Definition js_gt (x y : num) : bool := js_lt y x.

#[global] Arguments isNaN : simpl never.
#[global] Arguments js_add : simpl never.
#[global] Arguments js_sub : simpl never.
#[global] Arguments js_le : simpl never.
#[global] Arguments js_lt : simpl never.
#[global] Arguments js_gt : simpl never.

(** The tolerance [0.001] that every balance comparison of the source uses:
    the binary64 number closest to it. *)
Definition epsilon : num := 0x1.0624dd2f1a9fcp-10%float.

(** What [x.toFixed(2)] prints: a sign and a number of hundredths, or, for
    NaN, the infinities and from 1e21 on, the number itself. *)
Inductive fixed2 : Type :=
| Fixed (negative : bool) (hundredths : Z)
| NotFixed (x : num).

(** The integer [n] for which [n / 100] is closest to [m * 2^e], the larger
    one of two. *)
Definition hundredths_of (m : positive) (e : Z) : Z :=
  if 0 <=? e then 100 * Z.pos m * 2 ^ e
  else (200 * Z.pos m + 2 ^ (- e)) / 2 ^ (1 - e).

(** [x.toFixed(2)]: the sign is printed when [x < 0], also before 0.00. *)
Definition toFixed2 (x : num) : fixed2 :=
  match Prim2SF x with
  | S754_zero _ => Fixed false 0
  | S754_finite s m e =>
      if js_le 1e21%float (PrimFloat.abs x) then NotFixed x
      else Fixed s (hundredths_of m e)
  | _ => NotFixed x
  end.

#[global] Arguments toFixed2 : simpl never.

(** The integer a finite number stands for, when it stands for one and
    prints as its digits, that is below 1e21. *)
Definition plain_integer (x : num) : option Z :=
  match Prim2SF x with
  | S754_zero _ => Some 0
  | S754_finite s m e =>
      if js_le 1e21%float (PrimFloat.abs x) then None
      else if 0 <=? e then Some (cond_Zopp s (Z.pos m * 2 ^ e))
      else if Z.pos m mod 2 ^ (- e) =? 0
      then Some (cond_Zopp s (Z.pos m / 2 ^ (- e)))
      else None
  | _ => None
  end.

#[global] Arguments plain_integer : simpl never.

(** ** Values of a JSON request body *)

Inductive jsval : Type :=
| JUndefined : jsval
| JNull : jsval
| JBool (b : bool) : jsval
| JNum (x : num) : jsval
| JStr (s : string) : jsval
| JArr (elems : list jsval) : jsval.

(** Truthiness, as [!v] and [if (v)] test it. *)
Definition truthy (v : jsval) : bool :=
  match v with
  | JUndefined | JNull => false
  | JBool b => b
  | JNum x => negb (is_nan x || is_zero x)
  | JStr s => negb (String.eqb s "")
  | JArr _ => true
  end.

(** [v || null] *)
Definition or_null (v : jsval) : jsval := if truthy v then v else JNull.

(** [v === undefined] *)
Definition is_undefined (v : jsval) : bool :=
  match v with JUndefined => true | _ => false end.

(** ** Tables *)

(** [ventas.estado] *)
Inductive estado_venta : Type := Pendiente | Pagada.

(** [apartados.estadoApartado] *)
Inductive estado_apartado : Type := Apartado | Pagado | Entregado | Cancelado.

#[global] Instance estado_venta_eq_dec : EqDecision estado_venta.
Proof. solve_decision. Defined.

#[global] Instance estado_apartado_eq_dec : EqDecision estado_apartado.
Proof. solve_decision. Defined.

Record cliente : Type := mkCliente {
  c_nombre : string;
  c_identificacion : option string;
  c_telefono : option string;
  c_email : option string
}.

(** What a [clienteId] column holds: the id of a client, or, the foreign keys
    not being enforced, the value that was bound when it is no integer. *)
Inductive cliente_ref : Type :=
| ClienteId (id : Z)
| OtroValor (v : jsval).

Record venta : Type := mkVenta {
  v_clienteId : cliente_ref;
  v_producto : string;
  v_monto : num;
  v_fecha : string;
  v_estado : estado_venta
}.

Record apartado : Type := mkApartado {
  ap_clienteId : cliente_ref;
  ap_producto : string;
  ap_montoTotal : num;
  ap_fechaCreacion : string;
  ap_estadoApartado : estado_apartado;
  ap_fechaEntrega : option string
}.

Record abono : Type := mkAbono {
  ab_id : Z;
  ab_ventaId : option Z;
  ab_apartadoId : option Z;
  ab_monto : num;
  ab_fecha : jsval;
  ab_comentarios : jsval
}.

(** The tables, each keyed by its [id] column; [abonos] in insertion order,
    with the last id that AUTOINCREMENT gave out. *)
Record DB : Type := mkDB {
  clientes : gmap Z cliente;
  ventas : gmap Z venta;
  apartados : gmap Z apartado;
  abonos : list abono;
  seq_abonos : Z
}.

Definition set_estado (e : estado_venta) (v : venta) : venta :=
  mkVenta (v_clienteId v) (v_producto v) (v_monto v) (v_fecha v) e.

Definition set_estadoApartado (e : estado_apartado) (a : apartado) : apartado :=
  mkApartado (ap_clienteId a) (ap_producto a) (ap_montoTotal a)
    (ap_fechaCreacion a) e (ap_fechaEntrega a).

Definition set_entregado (fecha : string) (a : apartado) : apartado :=
  mkApartado (ap_clienteId a) (ap_producto a) (ap_montoTotal a)
    (ap_fechaCreacion a) Entregado (Some fecha).

Definition with_ventas (t : gmap Z venta) (db : DB) : DB :=
  mkDB (clientes db) t (apartados db) (abonos db) (seq_abonos db).

Definition with_apartados (t : gmap Z apartado) (db : DB) : DB :=
  mkDB (clientes db) (ventas db) t (abonos db) (seq_abonos db).

(** ** SQL values and expressions *)

(** SQLite has no NaN: a REAL result that is NaN is NULL ([None]). *)
Definition sqlite_real (x : num) : option num :=
  if isNaN x then None else Some x.

(** [SUM(...)] over the rows of a group, NULL when there is none: the
    amounts are added one after the other, in the order of the rows, each
    addition rounding. *)
Definition SUM (l : list num) : option num :=
  match l with
  | [] => None
  | _ :: _ => sqlite_real (foldl js_add 0%float l)
  end.

Definition IFNULL (v : option num) (d : num) : num := default d v.

(** [a.monto] of the payments joined to sale [id] ([v.id = a.ventaId]). *)
Definition abonos_de_venta (db : DB) (id : Z) : list num :=
  ab_monto <$> filter (λ a, ab_ventaId a = Some id) (abonos db).

(** [a.monto] of the payments joined to layaway [id]. *)
Definition abonos_de_apartado (db : DB) (id : Z) : list num :=
  ab_monto <$> filter (λ a, ab_apartadoId a = Some id) (abonos db).

(** [x - y] in SQL. *)
Definition sql_sub (x y : num) : option num := sqlite_real (js_sub x y).

(** Truth of [x <= y] in SQL, as JavaScript sees the 1, 0 or NULL. *)
Definition sql_le (x : option num) (y : num) : bool :=
  match x with Some x => js_le x y | None => false end.

(** A number or [null] coming back in a row, used as a number. *)
Definition ToNumber (v : option num) : num := default 0%float v.

(** ** Result rows *)

Record venta_row : Type := mkVentaRow {
  vr_id : Z;
  vr_clienteId : cliente_ref;
  vr_producto : string;
  vr_monto : num;
  vr_fecha : string;
  vr_estado : estado_venta;
  vr_nombreCliente : string;
  vr_totalAbonado : num;
  vr_saldoPendiente : option num
}.

Record apartado_row : Type := mkApartadoRow {
  ar_id : Z;
  ar_clienteId : cliente_ref;
  ar_producto : string;
  ar_montoTotal : num;
  ar_fechaCreacion : string;
  ar_estadoApartado : estado_apartado;
  ar_fechaEntrega : option string;
  ar_nombreCliente : string;
  ar_totalAbonado : num;
  ar_saldoPendiente : option num
}.

(** [{ montoTotal, totalAbonadoActual }] *)
Record ref_info : Type := mkRefInfo {
  montoTotal : num;
  totalAbonadoActual : num
}.

(** [this.lastID] and [this.changes] in the callback of [db.run]; the source
    reads [lastID] only after the INSERT. *)
Record run_result : Type := mkRun {
  lastID : Z;
  changes : nat
}.

(** What a callback receives: [err], or the row(s) or [this]. *)
Inductive dbresult (R : Type) : Type :=
| DbErr (message : string) : dbresult R
| DbOk (r : R) : dbresult R.
Arguments DbErr {R} message.
Arguments DbOk {R} r.

(** [ORDER BY fecha DESC, id DESC]: does a row with [(f1, i1)] come no later
    than one with [(f2, i2)]? *)
Definition desc_fecha_id (f1 : string) (i1 : Z) (f2 : string) (i2 : Z) : bool :=
  match String.compare f2 f1 with
  | Lt => true
  | Eq => i2 <=? i1
  | Gt => false
  end.

Definition venta_row_antes (r1 r2 : venta_row) : Prop :=
  desc_fecha_id (vr_fecha r1) (vr_id r1) (vr_fecha r2) (vr_id r2) = true.

Definition apartado_row_antes (r1 r2 : apartado_row) : Prop :=
  desc_fecha_id (ar_fechaCreacion r1) (ar_id r1) (ar_fechaCreacion r2) (ar_id r2) = true.

#[global] Instance venta_row_antes_dec r1 r2 : Decision (venta_row_antes r1 r2).
Proof. unfold venta_row_antes. apply _. Defined.

#[global] Instance apartado_row_antes_dec r1 r2 : Decision (apartado_row_antes r1 r2).
Proof. unfold apartado_row_antes. apply _. Defined.

(** [JOIN clientes c ON clienteId = c.id]: the client a row is joined to. *)
Definition join_cliente (db : DB) (r : cliente_ref) : option cliente :=
  match r with
  | ClienteId c => clientes db !! c
  | OtroValor _ => None
  end.

(** One row of the sales listing (lines 218-228): the sale joined to its
    client, with the aggregates over its payments. *)
Definition venta_row_of (db : DB) (p : Z * venta) : option venta_row :=
  let '(id, v) := p in
  c ← join_cliente db (v_clienteId v);
  let totalAbonado := IFNULL (SUM (abonos_de_venta db id)) 0%float in
  Some (mkVentaRow id (v_clienteId v) (v_producto v) (v_monto v) (v_fecha v)
          (v_estado v) (c_nombre c) totalAbonado
          (sql_sub (v_monto v) totalAbonado)).

(** One row of the layaways listing (lines 372-383). *)
Definition apartado_row_of (db : DB) (p : Z * apartado) : option apartado_row :=
  let '(id, a) := p in
  c ← join_cliente db (ap_clienteId a);
  let totalAbonado := IFNULL (SUM (abonos_de_apartado db id)) 0%float in
  Some (mkApartadoRow id (ap_clienteId a) (ap_producto a) (ap_montoTotal a)
          (ap_fechaCreacion a) (ap_estadoApartado a) (ap_fechaEntrega a)
          (c_nombre c) totalAbonado
          (sql_sub (ap_montoTotal a) totalAbonado)).

(** ** SQL statements *)

(** The statements the handlers issue, indexed by what their callback gets.
    An id parameter of type [option Z] is [None] when JavaScript passes NaN,
    which SQLite binds as NULL and which therefore matches no row. *)
Inductive sql : Type → Type :=
| SelectVentas : sql (list venta_row)
    (* lines 218-228 *)
| UpdateVentaEstado (nuevo : estado_venta) (id : Z) (distinto : estado_venta) :
    sql run_result
    (* UPDATE ventas SET estado = ? WHERE id = ? AND estado != ? *)
| SelectApartados : sql (list apartado_row)
    (* lines 372-383 *)
| UpdateApartadoPagado (id : option Z) : sql run_result
    (* UPDATE apartados SET estadoApartado = 'Pagado'
       WHERE id = ? AND estadoApartado = 'Apartado' *)
| UpdateApartadoEntregado (fechaEntrega : string) (id : Z) : sql run_result
    (* UPDATE apartados SET estadoApartado = 'Entregado', fechaEntrega = ?
       WHERE id = ? AND estadoApartado = 'Pagado' *)
| SelectEstadoApartado (id : Z) : sql (option estado_apartado)
    (* SELECT estadoApartado FROM apartados WHERE id = ? *)
| UpdateApartadoCancelado (id : Z) : sql run_result
    (* UPDATE apartados SET estadoApartado = 'Cancelado'
       WHERE id = ? AND estadoApartado IN ('Apartado', 'Pagado') *)
| SelectRefVenta (id : option Z) : sql (option ref_info)
    (* lines 587-590 *)
| SelectRefApartado (id : option Z) : sql (option ref_info)
    (* lines 594-597 *)
| InsertAbono (ventaId apartadoId : option Z) (monto : num)
    (fecha comentarios : jsval) : sql run_result
    (* INSERT INTO abonos (ventaId, apartadoId, monto, fecha, comentarios)
       VALUES (?, ?, ?, ?, ?) *)
| SelectEsPagadaVenta (id : option Z) : sql (option bool)
    (* line 642; the row's [esPagada] is given by its truthiness *)
| SelectEsPagadaApartado (id : option Z) : sql (option bool)
    (* line 646 *)
| UpdateVentaPagada (id : option Z) : sql run_result.
    (* UPDATE ventas SET estado = 'Pagada' WHERE id = ? *)

(** [UPDATE apartados SET ... WHERE id = ? AND <cond>]: rewrites the row when
    it exists and satisfies the condition. *)
Definition update_apartado (cond : estado_apartado → bool)
    (f : apartado → apartado) (id : Z) (db : DB) : run_result * DB :=
  match apartados db !! id with
  | Some a =>
      if cond (ap_estadoApartado a)
      then (mkRun (seq_abonos db) 1, with_apartados (<[id := f a]> (apartados db)) db)
      else (mkRun (seq_abonos db) 0, db)
  | None => (mkRun (seq_abonos db) 0, db)
  end.

Definition update_venta (cond : estado_venta → bool)
    (f : venta → venta) (id : Z) (db : DB) : run_result * DB :=
  match ventas db !! id with
  | Some v =>
      if cond (v_estado v)
      then (mkRun (seq_abonos db) 1, with_ventas (<[id := f v]> (ventas db)) db)
      else (mkRun (seq_abonos db) 0, db)
  | None => (mkRun (seq_abonos db) 0, db)
  end.

(** Is a bound parameter stored as NULL? *)
Definition binds_null (v : jsval) : bool :=
  match v with
  | JUndefined | JNull => true
  | JNum x => isNaN x
  | _ => false
  end.

(** The constraints of table [abonos] (lines 61-74): [monto] and [fecha] NOT
    NULL, and [chk_abono_referencia]. *)
Definition abonos_constraints (ventaId apartadoId : option Z) (monto : num)
    (fecha : jsval) : bool :=
  negb (isNaN monto) && negb (binds_null fecha) &&
  match ventaId, apartadoId with
  | Some _, None | None, Some _ => true
  | _, _ => false
  end.

Definition ref_venta (db : DB) (id : Z) : option ref_info :=
  v ← ventas db !! id;
  Some (mkRefInfo (v_monto v) (IFNULL (SUM (abonos_de_venta db id)) 0%float)).

Definition ref_apartado (db : DB) (id : Z) : option ref_info :=
  a ← apartados db !! id;
  Some (mkRefInfo (ap_montoTotal a)
          (IFNULL (SUM (abonos_de_apartado db id)) 0%float)).

(** [(montoTotal - IFNULL(SUM(a.monto),0)) <= 0.001] *)
Definition esPagada (r : ref_info) : bool :=
  sql_le (sql_sub (montoTotal r) (totalAbonadoActual r)) epsilon.

(** The rows of the two listings, in the order of their ORDER BY. *)
Definition select_ventas (db : DB) : list venta_row :=
  merge_sort venta_row_antes (omap (venta_row_of db) (map_to_list (ventas db))).

Definition select_apartados (db : DB) : list apartado_row :=
  merge_sort apartado_row_antes
    (omap (apartado_row_of db) (map_to_list (apartados db))).

(** The meaning of a statement: its result and the database after it.  The
    store itself never fails; only a violated constraint is an error. *)
Definition exec {R : Type} (q : sql R) (db : DB) : dbresult R * DB :=
  match q in sql R return dbresult R * DB with
  | SelectVentas => (DbOk (select_ventas db), db)
  | UpdateVentaEstado nuevo id distinto =>
      let '(r, db') :=
        update_venta (λ e, bool_decide (e ≠ distinto)) (set_estado nuevo) id db in
      (DbOk r, db')
  | SelectApartados => (DbOk (select_apartados db), db)
  | UpdateApartadoPagado id =>
      match id with
      | Some id =>
          let '(r, db') :=
            update_apartado (λ e, bool_decide (e = Apartado))
              (set_estadoApartado Pagado) id db in
          (DbOk r, db')
      | None => (DbOk (mkRun (seq_abonos db) 0), db)
      end
  | UpdateApartadoEntregado fechaEntrega id =>
      let '(r, db') :=
        update_apartado (λ e, bool_decide (e = Pagado))
          (set_entregado fechaEntrega) id db in
      (DbOk r, db')
  | SelectEstadoApartado id =>
      (DbOk (ap_estadoApartado <$> apartados db !! id), db)
  | UpdateApartadoCancelado id =>
      let '(r, db') :=
        update_apartado (λ e, bool_decide (e = Apartado ∨ e = Pagado))
          (set_estadoApartado Cancelado) id db in
      (DbOk r, db')
  | SelectRefVenta id => (DbOk (id ≫= ref_venta db), db)
  | SelectRefApartado id => (DbOk (id ≫= ref_apartado db), db)
  | InsertAbono ventaId apartadoId monto fecha comentarios =>
      if abonos_constraints ventaId apartadoId monto fecha then
        let id := seq_abonos db + 1 in
        (DbOk (mkRun id 1),
         mkDB (clientes db) (ventas db) (apartados db)
           (abonos db ++ [mkAbono id ventaId apartadoId monto fecha comentarios])
           id)
      else (DbErr "SQLITE_CONSTRAINT", db)
  | SelectEsPagadaVenta id => (DbOk (esPagada <$> (id ≫= ref_venta db)), db)
  | SelectEsPagadaApartado id => (DbOk (esPagada <$> (id ≫= ref_apartado db)), db)
  | UpdateVentaPagada id =>
      match id with
      | Some id =>
          let '(r, db') := update_venta (λ _, true) (set_estado Pagada) id db in
          (DbOk r, db')
      | None => (DbOk (mkRun (seq_abonos db) 0), db)
      end
  end.

(** ** Responses *)

Inductive ref_type : Type := RefVenta | RefApartado.

(** The JSON bodies the handlers send, one constructor per shape. *)
Inductive body : Type :=
| StorageError (context message : string)
    (* { error: context + err.message } *)
| SalesList (ventasActualizadas : list venta_row)
| LayawayList (apartadosActualizados : list apartado_row)
| NotInPagado (actual : estado_apartado)
    (* Apartado no está en estado 'Pagado'. Estado actual: ... *)
| NotFoundOrNotPagado
    (* Apartado not found or not in 'Pagado' state. *)
| MarkedDelivered (id : Z) (fechaEntrega : string)
    (* Apartado marcado como Entregado. *)
| NotCancellable
    (* Apartado no encontrado o no se puede cancelar (ej. ya entregado). *)
| MarkedCancelled (id : Z)
    (* Apartado cancelado. *)
| BadReference
    (* Payment must be linked to either a ventaId OR an apartadoId, but not
       both or neither. *)
| MissingFields
    (* Missing required fields for payment (monto, fecha). *)
| AmountNotPositive
    (* Payment amount must be a positive number. *)
| RefNotFound (refType : ref_type) (refId : option Z)
    (* ... with ID ... not found. *)
| ExceedsBalance (montoAbono : num) (saldo2 : fixed2) (refType : ref_type)
    (refId : option Z)
    (* Payment amount (...) exceeds remaining balance (...) for ... *)
| PaymentCreated (id : Z) (ventaId apartadoId : option Z) (monto : num)
    (fecha comentarios : jsval).

Record response : Type := mkResponse {
  status : nat;
  res_body : body
}.

(** The spec's failure taxonomy, read off a response. *)
Inductive failure : Type :=
| ValidationError
| NotFound
| OverpaymentError
| InvalidStateTransition
| StorageFailure.

Definition failure_of (r : response) : option failure :=
  match res_body r with
  | StorageError _ _ => Some StorageFailure
  | BadReference | MissingFields | AmountNotPositive => Some ValidationError
  | RefNotFound _ _ | NotFoundOrNotPagado => Some NotFound
  | ExceedsBalance _ _ _ _ => Some OverpaymentError
  | NotInPagado _ | NotCancellable => Some InvalidStateTransition
  | SalesList _ | LayawayList _ | MarkedDelivered _ _ | MarkedCancelled _
  | PaymentCreated _ _ _ _ _ _ => None
  end.

(** ** Handler programs and the event loop *)

(** The code of a handler or of a callback: it sends a response, logs, or
    issues a database call with its callback and goes on with the code that
    follows the call. *)
Inductive prog : Type :=
| Halt : prog
| Send (r : response) (k : prog) : prog
| Log (message : string) (k : prog) : prog
| Call {R : Type} (q : sql R) (cb : dbresult R → prog) (k : prog) : prog.

(** A database call waiting for its turn. *)
Record task : Type := mkTask {
  t_R : Type;
  t_sql : sql t_R;
  t_cb : dbresult t_R → prog
}.

(** What can be observed: a response, with the database as it is when the
    response is sent, and each completed [db.run] with its [changes]. *)
Inductive event : Type :=
| Respond (r : response) (snapshot : DB)
| Write (changes : nat)
| Logged (message : string).

(** Runs code to its end: responses go out, calls are queued. *)
Fixpoint run_sync (p : prog) (db : DB) (out : list event) (queue : list task)
    : list event * list task :=
  match p with
  | Halt => (out, queue)
  | Send r k => run_sync k db (out ++ [Respond r db]) queue
  | Log m k => run_sync k db (out ++ [Logged m]) queue
  | Call q cb k => run_sync k db out (queue ++ [mkTask _ q cb])
  end.

(** The rows a completed statement changed, when it is a [db.run]. *)
Definition written {R : Type} (q : sql R) : dbresult R → list event :=
  match q in sql R return dbresult R → list event with
  | UpdateVentaEstado _ _ _ | UpdateApartadoPagado _ | UpdateApartadoEntregado _ _
  | UpdateApartadoCancelado _ | InsertAbono _ _ _ _ _ | UpdateVentaPagada _ =>
      λ res, match res with DbOk r => [Write (changes r)] | DbErr _ => [] end
  | _ => λ _, []
  end.

(** Takes the queued calls in order: each one is executed, then its callback
    runs to its end, possibly queueing further calls. *)
Fixpoint event_loop (fuel : nat) (db : DB) (out : list event) (queue : list task)
    : option (DB * list event) :=
  match queue with
  | [] => Some (db, out)
  | t :: queue' =>
      match fuel with
      | O => None
      | S fuel' =>
          let '(res, db') := exec (t_sql t) db in
          let '(out', queue'') :=
            run_sync (t_cb t res) db' (out ++ written (t_sql t) res) queue' in
          event_loop fuel' db' out' queue''
      end
  end.

(** [l.forEach(f)], then the code [k] that follows. *)
Definition forEach {A : Type} (l : list A) (f : A → prog → prog) (k : prog) : prog :=
  foldr f k l.

(** A [db.run] without callback. *)
Definition no_callback {R : Type} : dbresult R → prog := λ _, Halt.

(** Runs a piece of code, then the event loop until no call is left. *)
Definition run_prog (fuel : nat) (p : prog) (db : DB) : option (DB * list event) :=
  let '(out, queue) := run_sync p db [] [] in
  event_loop fuel db out queue.

(** ** The handlers *)

(** [GET /api/ventas], lines 216-247. *)
Definition venta_actualizada (venta : venta_row) : venta_row :=
  mkVentaRow (vr_id venta) (vr_clienteId venta) (vr_producto venta)
    (vr_monto venta) (vr_fecha venta)
    (if js_le (ToNumber (vr_saldoPendiente venta)) epsilon then Pagada else Pendiente)
    (vr_nombreCliente venta) (vr_totalAbonado venta) (vr_saldoPendiente venta).

(** The body of the [forEach] of lines 238-244. *)
Definition update_status_venta (v : venta_row) (k : prog) : prog :=
  if decide (vr_estado v = Pagada)
  then Call (UpdateVentaEstado Pagada (vr_id v) Pagada) no_callback k
  else Call (UpdateVentaEstado Pendiente (vr_id v) Pendiente) no_callback k.

Definition get_api_ventas : prog :=
  Call SelectVentas (λ res,
    match res with
    | DbErr m => Send (mkResponse 500 (StorageError "Error fetching sales: " m)) Halt
    | DbOk rows =>
        let ventasActualizadas := map venta_actualizada rows in
        forEach ventasActualizadas update_status_venta
          (Send (mkResponse 200 (SalesList ventasActualizadas)) Halt)
    end) Halt.

(** [GET /api/apartados], lines 370-414. *)
Definition apartado_actualizado (apartado : apartado_row) : apartado_row :=
  let nuevoEstado :=
    if bool_decide (ar_estadoApartado apartado = Apartado)
       && js_le (ToNumber (ar_saldoPendiente apartado)) epsilon
    then Pagado else ar_estadoApartado apartado in
  mkApartadoRow (ar_id apartado) (ar_clienteId apartado) (ar_producto apartado)
    (ar_montoTotal apartado) (ar_fechaCreacion apartado) nuevoEstado
    (ar_fechaEntrega apartado) (ar_nombreCliente apartado)
    (ar_totalAbonado apartado) (ar_saldoPendiente apartado).

(** The condition of lines 402-405: the new state is 'Pagado' and differs
    from the state of the row with the same id in [rows]. *)
Definition pasa_a_pagado (rows : list apartado_row) (ap : apartado_row) : bool :=
  bool_decide (ar_estadoApartado ap = Pagado)
  && bool_decide (Some (ar_estadoApartado ap) ≠
       (ar_estadoApartado <$> List.find (λ r, ar_id r =? ar_id ap) rows)).

(** The body of the [forEach] of lines 401-411. *)
Definition update_status_apartado (rows : list apartado_row)
    (ap : apartado_row) (k : prog) : prog :=
  if pasa_a_pagado rows ap
  then Call (UpdateApartadoPagado (Some (ar_id ap))) no_callback k
  else k.

Definition get_api_apartados : prog :=
  Call SelectApartados (λ res,
    match res with
    | DbErr m => Send (mkResponse 500 (StorageError "Error fetching apartados: " m)) Halt
    | DbOk rows =>
        let apartadosActualizados := map apartado_actualizado rows in
        forEach apartadosActualizados (update_status_apartado rows)
          (Send (mkResponse 200 (LayawayList apartadosActualizados)) Halt)
    end) Halt.

(** [PUT /api/apartados/:id/entregar], lines 415-451; [today] is what
    [new Date().toISOString().split("T")[0]] gives. *)
Definition put_api_apartados_entregar (today : string) (apartadoId : Z) : prog :=
  let fechaEntrega := today in
  Call (UpdateApartadoEntregado fechaEntrega apartadoId) (λ res,
    match res with
    | DbErr m =>
        Send (mkResponse 500
                (StorageError "Error marking apartado as delivered: " m)) Halt
    | DbOk this =>
        if (changes this =? 0)%nat then
          Call (SelectEstadoApartado apartadoId) (λ res',
            match res' with
            | DbOk (Some estadoApartado) =>
                if bool_decide (estadoApartado ≠ Pagado)
                then Send (mkResponse 400 (NotInPagado estadoApartado)) Halt
                else Send (mkResponse 404 NotFoundOrNotPagado) Halt
            | _ => Send (mkResponse 404 NotFoundOrNotPagado) Halt
            end) Halt
        else Send (mkResponse 200 (MarkedDelivered apartadoId fechaEntrega)) Halt
    end) Halt.

(** [PUT /api/apartados/:id/cancelar], lines 452-474. *)
Definition put_api_apartados_cancelar (apartadoId : Z) : prog :=
  Call (UpdateApartadoCancelado apartadoId) (λ res,
    match res with
    | DbErr m =>
        Send (mkResponse 500 (StorageError "Error cancelling apartado: " m)) Halt
    | DbOk this =>
        if (changes this =? 0)%nat
        then Send (mkResponse 400 NotCancellable) Halt
        else Send (mkResponse 200 (MarkedCancelled apartadoId)) Halt
    end) Halt.

(** The body of [POST /api/abonos]. *)
Record abono_body : Type := mkBody {
  b_ventaId : jsval;
  b_apartadoId : jsval;
  b_monto : jsval;
  b_fecha : jsval;
  b_comentarios : jsval
}.

Inductive request : Type :=
| GET_ventas
| GET_apartados
| PUT_entregar (id : Z)
| PUT_cancelar (id : Z)
| POST_abonos (b : abono_body).

Section Server.

(** What the built-in [parseFloat] makes of a string or of an array, and
    [parseInt] of a string, of an array or of a number that does not print as
    a plain integer: both are left open, so that the results hold whatever
    they are. *)
Variable parseFloat_other : jsval → num.
Variable parseInt_other : jsval → option Z.

(** [parseFloat(v)]: a number is read back from its digits, which changes
    [-0] only. *)
Definition parseFloat (v : jsval) : num :=
  match v with
  | JNum x => if is_zero x then 0%float else x
  | JStr _ | JArr _ => parseFloat_other v
  | JUndefined | JNull | JBool _ => NaN
  end.

(** [parseInt(v)]; [None] is NaN. *)
Definition parseInt (v : jsval) : option Z :=
  match v with
  | JNum x =>
      match plain_integer x with
      | Some z => Some z
      | None => if isNaN x || is_infinity x then None else parseInt_other v
      end
  | JStr _ | JArr _ => parseInt_other v
  | JUndefined | JNull | JBool _ => None
  end.

Definition refType_name (t : ref_type) : string :=
  match t with RefVenta => "venta" | RefApartado => "apartado" end.

(** Lines 639-666: the check issued after the insertion, and the status
    update in its callback. *)
Definition update_if_fully_paid (refType : ref_type) (refId : option Z)
    (k : prog) : prog :=
  let checkFullyPaidSql :=
    match refType with
    | RefVenta => SelectEsPagadaVenta refId
    | RefApartado => SelectEsPagadaApartado refId
    end in
  let updateStatusSql :=
    match refType with
    | RefVenta => UpdateVentaPagada refId
    | RefApartado => UpdateApartadoPagado refId
    end in
  Call checkFullyPaidSql (λ paid,
    let after_log (k' : prog) :=
      match paid with
      | DbErr m => Log ("Error checking if " +:+ refType_name refType
                          +:+ " is fully paid: " +:+ m) k'
      | DbOk _ => k'
      end in
    after_log
      match paid with
      | DbOk (Some true) =>
          Call updateStatusSql (λ upd,
            match upd with
            | DbErr m => Log ("Error updating " +:+ refType_name refType
                                +:+ " status: " +:+ m) Halt
            | DbOk _ => Halt
            end) Halt
      | _ => Halt
      end) k.

(** [POST /api/abonos], lines 560-677. *)
Definition post_api_abonos (b : abono_body) : prog :=
  let ventaId := b_ventaId b in
  let apartadoId := b_apartadoId b in
  let monto := b_monto b in
  let fecha := b_fecha b in
  let comentarios := b_comentarios b in
  if (negb (truthy ventaId) && negb (truthy apartadoId))
     || (truthy ventaId && truthy apartadoId)
  then Send (mkResponse 400 BadReference) Halt
  else if is_undefined monto || negb (truthy fecha)
  then Send (mkResponse 400 MissingFields) Halt
  else
    let montoAbono := parseFloat monto in
    if isNaN montoAbono || js_le montoAbono 0%float
    then Send (mkResponse 400 AmountNotPositive) Halt
    else
      let '(getRefSql, refId, refType) :=
        if truthy ventaId
        then (SelectRefVenta (parseInt ventaId), parseInt ventaId, RefVenta)
        else (SelectRefApartado (parseInt apartadoId), parseInt apartadoId,
              RefApartado) in
      Call getRefSql (λ res,
        match res with
        | DbErr m =>
            Send (mkResponse 500
                    (StorageError ("Error fetching " +:+ refType_name refType
                                     +:+ " info: ") m)) Halt
        | DbOk None => Send (mkResponse 404 (RefNotFound refType refId)) Halt
        | DbOk (Some refInfo) =>
            let saldoPendienteActual :=
              js_sub (montoTotal refInfo) (totalAbonadoActual refInfo) in
            if js_gt montoAbono (js_add saldoPendienteActual epsilon)
            then Send (mkResponse 400
                         (ExceedsBalance montoAbono (toFixed2 saldoPendienteActual)
                            refType refId)) Halt
            else
              let insertSql :=
                match refType with
                | RefVenta =>
                    InsertAbono refId None montoAbono fecha (or_null comentarios)
                | RefApartado =>
                    InsertAbono None refId montoAbono fecha (or_null comentarios)
                end in
              Call insertSql (λ ins,
                match ins with
                | DbErr m =>
                    Send (mkResponse 500
                            (StorageError "Error adding payment: " m)) Halt
                | DbOk this =>
                    let nuevoAbonoId := lastID this in
                    update_if_fully_paid refType refId
                      (Send (mkResponse 201
                               (PaymentCreated nuevoAbonoId
                                  (match refType with
                                   | RefVenta => refId | RefApartado => None end)
                                  (match refType with
                                   | RefApartado => refId | RefVenta => None end)
                                  montoAbono fecha comentarios)) Halt)
                end) Halt
        end) Halt.

Definition handler (today : string) (rq : request) : prog :=
  match rq with
  | GET_ventas => get_api_ventas
  | GET_apartados => get_api_apartados
  | PUT_entregar id => put_api_apartados_entregar today id
  | PUT_cancelar id => put_api_apartados_cancelar id
  | POST_abonos b => post_api_abonos b
  end.

(** Database calls one request can queue: one per listed row at most, besides
    the handful of the chain of callbacks. *)
Definition enough_fuel (db : DB) : nat :=
  (4 + (size (ventas db) + size (apartados db)))%nat.

(** Serves one request with nothing else in flight: the handler runs, then
    the event loop until no call is left.  Gives the database at the end and
    what was observed on the way. *)
Definition serve_with (fuel : nat) (today : string) (rq : request) (db : DB)
    : option (DB * list event) :=
  run_prog fuel (handler today rq) db.

Definition serve (today : string) (rq : request) (db : DB)
    : option (DB * list event) :=
  serve_with (enough_fuel db) today rq db.

End Server.

(** ** Notions used to state the results *)

(** The parent a body refers to, once the reference check has passed:
    [refType] and [refId] of lines 584-598. *)
Definition referenced (parseInt_other : jsval → option Z) (b : abono_body)
    : ref_type * option Z :=
  if truthy (b_ventaId b)
  then (RefVenta, parseInt parseInt_other (b_ventaId b))
  else (RefApartado, parseInt parseInt_other (b_apartadoId b)).

(** The row [getRefSql] finds for a parent. *)
Definition ref_lookup (db : DB) (refType : ref_type) (refId : option Z)
    : option ref_info :=
  match refType with
  | RefVenta => refId ≫= ref_venta db
  | RefApartado => refId ≫= ref_apartado db
  end.

(** [saldoPendienteActual] of line 612. *)
Definition saldo (r : ref_info) : num :=
  js_sub (montoTotal r) (totalAbonadoActual r).

(** The three checks of lines 564-580 all pass. *)
Definition passes_validation (parseFloat_other : jsval → num) (b : abono_body)
    : bool :=
  xorb (truthy (b_ventaId b)) (truthy (b_apartadoId b))
  && negb (is_undefined (b_monto b)) && truthy (b_fecha b)
  && negb (isNaN (parseFloat parseFloat_other (b_monto b)))
  && negb (js_le (parseFloat parseFloat_other (b_monto b)) 0%float).

(** The database once the payment row is in. *)
Definition con_abono (db : DB) (refType : ref_type) (refId : option Z)
    (monto : num) (fecha comentarios : jsval) : DB :=
  let id := seq_abonos db + 1 in
  mkDB (clientes db) (ventas db) (apartados db)
    (abonos db ++
       [match refType with
        | RefVenta => mkAbono id refId None monto fecha (or_null comentarios)
        | RefApartado => mkAbono id None refId monto fecha (or_null comentarios)
        end])
    id.

(** [updateStatusSql] of lines 643 and 647. *)
Definition marcar_pagado (refType : ref_type) (refId : option Z) : sql run_result :=
  match refType with
  | RefVenta => UpdateVentaPagada refId
  | RefApartado => UpdateApartadoPagado refId
  end.

(** The responses of a trace, in the order they were sent. *)
Definition responses (tr : list event) : list response :=
  omap (λ e, match e with Respond r _ => Some r | _ => None end) tr.

(** Queued calls without callback, run one after the other. *)
Fixpoint run_tasks (db : DB) (out : list event) (ts : list task)
    : DB * list event :=
  match ts with
  | [] => (db, out)
  | t :: ts' =>
      let '(res, db') := exec (t_sql t) db in
      run_tasks db' (out ++ written (t_sql t) res) ts'
  end.

(** A layaway either is as it was or went from 'Apartado' to 'Pagado'. *)
Definition solo_apartado_a_pagado (a a' : apartado) : Prop :=
  a' = a ∨ (ap_estadoApartado a = Apartado ∧ a' = set_estadoApartado Pagado a).

(** The 201 response of line 667, for the payment inserted into [db]. *)
Definition created (parseFloat_other : jsval → num) (b : abono_body)
    (refType : ref_type) (refId : option Z) (db : DB) : response :=
  mkResponse 201
    (PaymentCreated (seq_abonos db + 1)
       (match refType with RefVenta => refId | RefApartado => None end)
       (match refType with RefApartado => refId | RefVenta => None end)
       (parseFloat parseFloat_other (b_monto b)) (b_fecha b) (b_comentarios b)).

(** The sum of a list of amounts: each one is added to the sum of those
    before it, and each addition rounds. *)
Definition suma (l : list num) : num := foldl js_add 0%float l.

(** What has been paid in a list of amounts: their sum, and 0 should the sum
    be no number. *)
Definition total_pagado (l : list num) : num :=
  if isNaN (suma l) then 0%float else suma l.

(** The payments of a parent, in the order of the table. *)
Definition pagos_de (db : DB) (refType : ref_type) (id : Z) : list abono :=
  match refType with
  | RefVenta => filter (λ a, ab_ventaId a = Some id) (abonos db)
  | RefApartado => filter (λ a, ab_apartadoId a = Some id) (abonos db)
  end.

(** The amounts of the payments of a parent. *)
Definition montos_de (db : DB) (refType : ref_type) (id : Z) : list num :=
  ab_monto <$> pagos_de db refType id.

(** The total of a parent, when it exists. *)
Definition total_de (db : DB) (refType : ref_type) (id : Z) : option num :=
  match refType with
  | RefVenta => v_monto <$> ventas db !! id
  | RefApartado => ap_montoTotal <$> apartados db !! id
  end.

(** The outstanding balance of a parent: its total less what its payments
    add up to. *)
Definition saldo_de (db : DB) (refType : ref_type) (id : Z) : option num :=
  total ← total_de db refType id;
  Some (js_sub total (total_pagado (montos_de db refType id))).

(** What a sale and a layaway have been paid. *)
Definition totalAbonado_venta (db : DB) (id : Z) : num :=
  total_pagado (montos_de db RefVenta id).

Definition totalAbonado_apartado (db : DB) (id : Z) : num :=
  total_pagado (montos_de db RefApartado id).

(** The outstanding balance of a sale and of a layaway as a listing shows
    it, [None] being [null]: the total less what has been paid, and [null]
    should that be no number. *)
Definition saldoPendiente_venta (db : DB) (id : Z) (v : venta) : option num :=
  let saldoPendiente := js_sub (v_monto v) (totalAbonado_venta db id) in
  if isNaN saldoPendiente then None else Some saldoPendiente.

Definition saldoPendiente_apartado (db : DB) (id : Z) (a : apartado) : option num :=
  let saldoPendiente := js_sub (ap_montoTotal a) (totalAbonado_apartado db id) in
  if isNaN saldoPendiente then None else Some saldoPendiente.

(** The amount is not above the balance that a total and the amounts paid
    before leave, plus 0.001. *)
Definition admitido (total : num) (previos : list num) (monto : num) : Prop :=
  js_gt monto (js_add (js_sub total (total_pagado previos)) epsilon) = false.

(** Every payment row has a positive amount. *)
Definition abonos_positivos (db : DB) : Prop :=
  ∀ a, a ∈ abonos db → js_gt (ab_monto a) 0%float = true.

(** Every payment of a stored sale or layaway was within the balance when it
    came in: its amount is not above the balance that the total of its parent
    and the payments before it leave, plus 0.001. *)
Definition pagos_admitidos (db : DB) : Prop :=
  ∀ l1 a l2, abonos db = l1 ++ a :: l2 →
    (∀ id v, ab_ventaId a = Some id → ventas db !! id = Some v →
       admitido (v_monto v)
         (ab_monto <$> filter (λ x, ab_ventaId x = Some id) l1) (ab_monto a)) ∧
    (∀ id p, ab_apartadoId a = Some id → apartados db !! id = Some p →
       admitido (ap_montoTotal p)
         (ab_monto <$> filter (λ x, ab_apartadoId x = Some id) l1) (ab_monto a)).

(** [pagos_admitidos], as a test: the payments [l] that follow [previos] in
    the table. *)
Fixpoint admitidos_b (db : DB) (previos l : list abono) : bool :=
  match l with
  | [] => true
  | a :: l' =>
      match ab_ventaId a ≫= λ id, (λ v, (id, v)) <$> ventas db !! id with
      | Some (id, v) =>
          negb (js_gt (ab_monto a)
                  (js_add
                     (js_sub (v_monto v)
                        (total_pagado
                           (ab_monto <$> filter (λ x, ab_ventaId x = Some id) previos)))
                     epsilon))
      | None => true
      end
      && match ab_apartadoId a ≫= λ id, (λ p, (id, p)) <$> apartados db !! id with
         | Some (id, p) =>
             negb (js_gt (ab_monto a)
                     (js_add
                        (js_sub (ap_montoTotal p)
                           (total_pagado
                              (ab_monto <$>
                                 filter (λ x, ab_apartadoId x = Some id) previos)))
                        epsilon))
         | None => true
         end
      && admitidos_b db (previos ++ [a]) l'
  end.

(** The number a binary64 number stands for, when it stands for one. *)
Definition exacto (x : num) : option Q :=
  match Prim2SF x with
  | S754_zero _ => Some 0%Q
  | S754_finite s m e =>
      Some (inject_Z (cond_Zopp s (Z.pos m)) * Qpower 2 e)%Q
  | _ => None
  end.

(** Requests served one after the other, each with the date of its day. *)
Fixpoint serve_all (parseFloat_other : jsval → num)
    (parseInt_other : jsval → option Z) (rqs : list (string * request))
    (db : DB) : option DB :=
  match rqs with
  | [] => Some db
  | (today, rq) :: rqs' =>
      match serve parseFloat_other parseInt_other today rq db with
      | Some (db', _) => serve_all parseFloat_other parseInt_other rqs' db'
      | None => None
      end
  end.

(** The calls that the [forEach] of each listing queues. *)
Definition tarea_venta (v : venta_row) : task :=
  mkTask _ (UpdateVentaEstado (vr_estado v) (vr_id v) (vr_estado v)) no_callback.

Definition tarea_apartado (ap : apartado_row) : task :=
  mkTask _ (UpdateApartadoPagado (Some (ar_id ap))) no_callback.

Definition tareas_apartados (rows act : list apartado_row) : list task :=
  tarea_apartado <$> List.filter (pasa_a_pagado rows) act.

(** The table of sales once the listing has reconciled it: each listed sale
    carries the state derived from its balance. *)
Definition ventas_reconciliadas (db : DB) : gmap Z venta :=
  map_imap (λ id v,
      Some match venta_row_of db (id, v) with
           | Some r => set_estado (vr_estado (venta_actualizada r)) v
           | None => v
           end) (ventas db).

(** The same for layaways. *)
Definition apartados_reconciliados (db : DB) : gmap Z apartado :=
  map_imap (λ id a,
      Some match apartado_row_of db (id, a) with
           | Some r =>
               set_estadoApartado (ar_estadoApartado (apartado_actualizado r)) a
           | None => a
           end) (apartados db).

(** The effect of [UpdateApartadoPagado] on the row it addresses. *)
Definition pagar (a : apartado) : apartado :=
  if bool_decide (ap_estadoApartado a = Apartado)
  then set_estadoApartado Pagado a else a.

(** From [db] to [db'] no payment and no total has changed. *)
Definition mismos_montos (db db' : DB) : Prop :=
  abonos db' = abonos db ∧
  (∀ id v', ventas db' !! id = Some v' →
     ∃ v, ventas db !! id = Some v ∧ v_monto v' = v_monto v) ∧
  (∀ id a', apartados db' !! id = Some a' →
     ∃ a, apartados db !! id = Some a ∧ ap_montoTotal a' = ap_montoTotal a).

(** The exact sum of the numbers a list of amounts stands for. *)
Definition suma_exacta (l : list num) : option Q :=
  foldr (λ x s, q ← exacto x; Qplus q <$> s) (Some 0%Q) l.

(** ** Example data *)

(** Built-ins that read no string and no array as a number: enough for
    bodies whose fields are JSON numbers. *)
Definition parseFloat_other_NaN : jsval → num := λ _, NaN.
Definition parseInt_other_NaN : jsval → option Z := λ _, None.

(** One client, a sale of 100.00 without payments, a layaway of 50.00 that
    is 'Apartado' and a cancelled layaway of 30.00. *)
Definition db_ejemplo : DB :=
  mkDB {[ 1 := mkCliente "Ana" None None None ]}
       {[ 1 := mkVenta (ClienteId 1) "TV" 100%float "2024-01-01" Pendiente ]}
       {[ 1 := mkApartado (ClienteId 1) "Sofa" 50%float "2024-02-01" Apartado None;
          2 := mkApartado (ClienteId 1) "Mesa" 30%float "2024-02-02" Cancelado None ]}
       [] 0.

(** The same client with a sale whose total is [Infinity], as a body with
    [monto: 1e999] creates it. *)
Definition db_infinito : DB :=
  mkDB {[ 1 := mkCliente "Ana" None None None ]}
       {[ 1 := mkVenta (ClienteId 1) "TV" infinity "2024-01-01" Pendiente ]}
       ∅ [] 0.

(** A sale of 1100.10 of which 1000.10 has been paid, and one of 0.30 of
    which 0.20 has been paid. *)
Definition db_redondeo : DB :=
  mkDB {[ 1 := mkCliente "Ana" None None None ]}
       {[ 1 := mkVenta (ClienteId 1) "TV" 1100.1 "2024-01-01" Pendiente;
          2 := mkVenta (ClienteId 1) "Radio" 0.3 "2024-01-02" Pendiente ]}
       ∅
       [mkAbono 1 (Some 1) None 1000.1 (JStr "2024-02-01") JNull;
        mkAbono 2 (Some 2) None 0.2 (JStr "2024-02-02") JNull]
       2.

(** A sale of 100.00 that has been paid in full and is still 'Pendiente',
    one of 10.00 that is 'Pagada' with 4.00 and 5.999 paid, and a layaway of
    10.00 with the same payments. *)
Definition db_saldada : DB :=
  mkDB {[ 1 := mkCliente "Ana" None None None ]}
       {[ 1 := mkVenta (ClienteId 1) "TV" 100 "2024-01-01" Pendiente;
          2 := mkVenta (ClienteId 1) "Radio" 10 "2024-01-02" Pagada ]}
       {[ 1 := mkApartado (ClienteId 1) "Sofa" 10 "2024-02-01" Apartado None;
          2 := mkApartado (ClienteId 1) "Mesa" 50 "2024-02-02" Apartado None ]}
       [mkAbono 1 (Some 1) None 100 (JStr "2024-02-01") JNull;
        mkAbono 2 (Some 2) None 4 (JStr "2024-02-02") JNull;
        mkAbono 3 (Some 2) None 5.999 (JStr "2024-02-03") JNull;
        mkAbono 4 None (Some 1) 4 (JStr "2024-02-04") JNull;
        mkAbono 5 None (Some 1) 5.999 (JStr "2024-02-05") JNull;
        mkAbono 6 None (Some 2) 50 (JStr "2024-02-06") JNull]
       6.

(** A sale of 1e16 and a sale of 1.00, without payments. *)
Definition db_bordes : DB :=
  mkDB {[ 1 := mkCliente "Ana" None None None ]}
       {[ 1 := mkVenta (ClienteId 1) "TV" 1e16 "2024-01-01" Pendiente;
          2 := mkVenta (ClienteId 1) "Radio" 1 "2024-01-02" Pendiente ]}
       ∅ [] 0.

(** [{ ventaId: id, monto: monto, fecha: "2024-03-01" }] *)
Definition pago_venta (id monto : num) : abono_body :=
  mkBody (JNum id) JUndefined (JNum monto)
    (JStr "2024-03-01") JUndefined.

(** [{ apartadoId: id, monto: monto, fecha: "2024-03-01" }] *)
Definition pago_apartado (id monto : num) : abono_body :=
  mkBody JUndefined (JNum id) (JNum monto)
    (JStr "2024-03-01") JUndefined.

(** ** The other routes: clients, creation, dates, deletion, payments listing *)

(** The database together with what [sqlite_sequence] holds for the three
    other AUTOINCREMENT tables: the largest id each has given out. *)
Record Store : Type := mkStore {
  st_db : DB;
  seq_clientes : Z;
  seq_ventas : Z;
  seq_apartados : Z
}.

Definition with_db (db : DB) (st : Store) : Store :=
  mkStore db (seq_clientes st) (seq_ventas st) (seq_apartados st).

Definition with_clientes (t : gmap Z cliente) (db : DB) : DB :=
  mkDB t (ventas db) (apartados db) (abonos db) (seq_abonos db).

Definition with_abonos (l : list abono) (db : DB) : DB :=
  mkDB (clientes db) (ventas db) (apartados db) l (seq_abonos db).

(** The largest id of a table, 0 for an empty one. *)
Definition max_id {A : Type} (t : gmap Z A) : Z :=
  foldr Z.max 0 (map_to_list t).*1.

(** AUTOINCREMENT: one more than the largest id the table holds or has ever
    given out. *)
Definition next_id {A : Type} (seq : Z) (t : gmap Z A) : Z :=
  Z.max seq (max_id t) + 1.

(** [s.includes(sub)] *)
Fixpoint includes (sub s : string) : bool :=
  String.prefix sub s ||
  match s with
  | EmptyString => false
  | String _ s' => includes sub s'
  end.

Definition is_digit (c : ascii) : bool :=
  (48 <=? nat_of_ascii c)%nat && (nat_of_ascii c <=? 57)%nat.

(** [/^\d{4}-\d{2}-\d{2}$/.test(s)] on a string. *)
Definition date_shape (s : string) : bool :=
  match list_ascii_of_string s with
  | [y1; y2; y3; y4; g1; m1; m2; g2; d1; d2] =>
      forallb is_digit [y1; y2; y3; y4; m1; m2; d1; d2]
      && Ascii.eqb g1 "-" && Ascii.eqb g2 "-"
  | _ => false
  end.

(** The same test on a field of a body, which is tested as it prints: an
    array of one element prints as its element does; nothing else that is not
    a string prints as four digits, a dash, two digits, a dash and two
    digits. *)
Fixpoint test_fecha (v : jsval) : bool :=
  match v with
  | JStr s => date_shape s
  | JArr [x] => test_fecha x
  | _ => false
  end.

(** ** The library, where the source does not fix it *)

(** What the built-ins and SQLite make of the values they are handed is left
    open: [parseFloat] and [parseInt] as in the first part; the text a TEXT
    column holds for a value that is no string; the integer an INTEGER column
    holds for a value that is no plain integer ([None] when it holds no
    integer, so that the value joins no client).  So is whether the connection enforces the foreign keys: the
    source never sets the pragma. *)
Record entorno : Type := mkEntorno {
  env_parseFloat : jsval → num;
  env_parseInt : jsval → option Z;
  env_text : jsval → string;
  env_integer : jsval → option Z;
  foreign_keys : bool
}.

(** ** Rows, bodies and queries of the other routes *)

Record cliente_row : Type := mkClienteRow {
  cr_id : Z;
  cr_cliente : cliente
}.

(** A row of [SELECT id, ventaId, apartadoId, monto, fecha, comentarios]. *)
Record abono_row : Type := mkAbonoRow {
  pr_id : Z;
  pr_ventaId : option Z;
  pr_apartadoId : option Z;
  pr_monto : num;
  pr_fecha : string;
  pr_comentarios : option string
}.

Record cliente_body : Type := mkClienteBody {
  cb_nombre : jsval;
  cb_identificacion : jsval;
  cb_telefono : jsval;
  cb_email : jsval
}.

Record venta_body : Type := mkVentaBody {
  vb_clienteId : jsval;
  vb_producto : jsval;
  vb_monto : jsval;
  vb_fecha : jsval
}.

Record apartado_body : Type := mkApartadoBody {
  pb_clienteId : jsval;
  pb_producto : jsval;
  pb_montoTotal : jsval;
  pb_fechaCreacion : jsval
}.

(** [req.query] of [GET /api/abonos]: each filter as the integer SQLite
    compares with the column, [None] when it is absent or empty. *)
Record abonos_query : Type := mkQuery {
  q_ventaId : option Z;
  q_apartadoId : option Z
}.

(** The columns [PUT /api/clientes/:id] can set. *)
Inductive campo : Type := Telefono | Email.

(** ** Statements of the other routes *)

(** Indexed, as [sql], by what the callback gets: the row(s) of a SELECT;
    [this] after an INSERT; after an UPDATE or a DELETE [this.changes], which
    is all that the callbacks of these read. *)
Inductive sqlx : Type → Type :=
| Base {R : Type} (q : sql R) : sqlx R
    (* a statement of the first part *)
| InsertCliente (nombre identificacion telefono email : jsval) : sqlx run_result
    (* INSERT INTO clientes (nombre, identificacion, telefono, email)
       VALUES (?, ?, ?, ?) *)
| UpdateCliente (fields : list (campo * jsval)) (id : Z) : sqlx nat
    (* UPDATE clientes SET <field = ?, ...> WHERE id = ? *)
| SelectCliente (id : Z) : sqlx (option cliente_row)
    (* SELECT * FROM clientes WHERE id = ? *)
| InsertVenta (clienteId producto : jsval) (monto : num) (fecha : jsval)
    (estado : estado_venta) : sqlx run_result
    (* INSERT INTO ventas (clienteId, producto, monto, fecha, estado)
       VALUES (?, ?, ?, ?, ?) *)
| UpdateVentaFecha (fecha : jsval) (id : Z) : sqlx nat
    (* UPDATE ventas SET fecha = ? WHERE id = ? *)
| DeleteVenta (id : Z) : sqlx nat
    (* DELETE FROM ventas WHERE id = ? *)
| InsertApartado (clienteId producto : jsval) (montoTotal : num) (fecha : jsval)
    (estadoApartado : estado_apartado) : sqlx run_result
    (* INSERT INTO apartados (clienteId, producto, montoTotal, fechaCreacion,
       estadoApartado) VALUES (?, ?, ?, ?, ?) *)
| UpdateApartadoFecha (fechaCreacion : jsval) (id : Z) : sqlx nat
    (* UPDATE apartados SET fechaCreacion = ? WHERE id = ? *)
| DeleteApartado (id : Z) : sqlx nat
    (* DELETE FROM apartados WHERE id = ? *)
| SelectAbonos (ventaId apartadoId : option Z) : sqlx (list abono_row).
    (* SELECT id, ventaId, apartadoId, monto, fecha, comentarios FROM abonos
       [WHERE ventaId = ?] [AND apartadoId = ?] ORDER BY fecha DESC, id DESC *)

Definition set_fecha (fecha : string) (v : venta) : venta :=
  mkVenta (v_clienteId v) (v_producto v) (v_monto v) fecha (v_estado v).

Definition set_fechaCreacion (fecha : string) (a : apartado) : apartado :=
  mkApartado (ap_clienteId a) (ap_producto a) (ap_montoTotal a) fecha
    (ap_estadoApartado a) (ap_fechaEntrega a).

Definition abono_row_antes (r1 r2 : abono_row) : Prop :=
  desc_fecha_id (pr_fecha r1) (pr_id r1) (pr_fecha r2) (pr_id r2) = true.

#[global] Instance abono_row_antes_dec r1 r2 : Decision (abono_row_antes r1 r2).
Proof. unfold abono_row_antes. apply _. Defined.

(** The WHERE clause of lines 538-549: every condition that was pushed. *)
Definition abono_selected (ventaId apartadoId : option Z) (a : abono) : bool :=
  match ventaId with Some z => bool_decide (ab_ventaId a = Some z) | None => true end
  && match apartadoId with
     | Some z => bool_decide (ab_apartadoId a = Some z)
     | None => true
     end.

(** UNIQUE on [clientes.identificacion]: NULLs never clash. *)
Definition identificacion_taken (t : gmap Z cliente) (i : option string) : bool :=
  match i with
  | Some s => bool_decide (map_Exists (λ _ c, c_identificacion c = Some s) t)
  | None => false
  end.

Section Sentencias.

Variable env : entorno.

(** The text stored for a bound value that is not NULL. *)
Definition as_text (v : jsval) : string :=
  match v with
  | JStr s => s
  | _ => env_text env v
  end.

(** What a TEXT column holds for a bound value. *)
Definition sql_text (v : jsval) : option string :=
  if binds_null v then None else Some (as_text v).

(** The integer an INTEGER column holds for a bound value, when it holds
    one. *)
Definition integer_of (v : jsval) : option Z :=
  match v with
  | JNum x =>
      if isNaN x then None
      else
        match plain_integer x with
        | Some z =>
            if Z.abs z <? 9223372036854775808 then Some z else env_integer env v
        | None => env_integer env v
        end
  | JUndefined | JNull => None
  | _ => env_integer env v
  end.

(** What the column [clienteId] holds for a bound value. *)
Definition cliente_ref_of (v : jsval) : cliente_ref :=
  match integer_of v with
  | Some c => ClienteId c
  | None => OtroValor v
  end.

Definition set_campo (f : campo) (v : jsval) (c : cliente) : cliente :=
  match f with
  | Telefono => mkCliente (c_nombre c) (c_identificacion c) (sql_text v) (c_email c)
  | Email => mkCliente (c_nombre c) (c_identificacion c) (c_telefono c) (sql_text v)
  end.

Definition set_campos (fields : list (campo * jsval)) (c : cliente) : cliente :=
  foldl (λ c fv, set_campo fv.1 fv.2 c) c fields.

Definition abono_row_of (a : abono) : abono_row :=
  mkAbonoRow (ab_id a) (ab_ventaId a) (ab_apartadoId a) (ab_monto a)
    (as_text (ab_fecha a)) (sql_text (ab_comentarios a)).

Definition select_abonos (ventaId apartadoId : option Z) (db : DB)
    : list abono_row :=
  merge_sort abono_row_antes
    (abono_row_of <$> List.filter (abono_selected ventaId apartadoId) (abonos db)).

(** The payments left once the parent [id] is deleted: with the foreign keys
    enforced, ON DELETE CASCADE takes its payments with it. *)
Definition tras_borrar (parent : abono → option Z) (id : Z) (l : list abono)
    : list abono :=
  if foreign_keys env
  then filter (λ a, parent a ≠ Some id) l
  else l.

(** Does the insertion of a row with this client reference violate the
    foreign key?  Only when the foreign keys are enforced. *)
Definition sin_cliente (db : DB) (r : cliente_ref) : bool :=
  foreign_keys env && bool_decide (join_cliente db r = None).

(** The meaning of a statement on the store.

    A statement of the first part keeps its meaning: the only one a foreign
    key could stop is the insertion of a payment, which its handler issues
    right after it has found the parent. *)
Definition execx {R : Type} (q : sqlx R) (st : Store) : dbresult R * Store :=
  let db := st_db st in
  match q in sqlx R return dbresult R * Store with
  | Base q => let '(res, db') := exec q db in (res, with_db db' st)
  | InsertCliente nombre identificacion telefono email =>
      if binds_null nombre then
        (DbErr "SQLITE_CONSTRAINT: NOT NULL constraint failed: clientes.nombre",
         st)
      else if identificacion_taken (clientes db) (sql_text identificacion) then
        (DbErr "SQLITE_CONSTRAINT: UNIQUE constraint failed: clientes.identificacion",
         st)
      else
        let id := next_id (seq_clientes st) (clientes db) in
        (DbOk (mkRun id 1),
         mkStore
           (with_clientes
              (<[id := mkCliente (as_text nombre) (sql_text identificacion)
                         (sql_text telefono) (sql_text email)]> (clientes db))
              db)
           id (seq_ventas st) (seq_apartados st))
  | UpdateCliente fields id =>
      match fields with
      | [] => (DbErr "SQLITE_ERROR: syntax error", st)
      | _ :: _ =>
          match clientes db !! id with
          | Some c =>
              (DbOk 1%nat,
               with_db (with_clientes
                          (<[id := set_campos fields c]> (clientes db)) db) st)
          | None => (DbOk 0%nat, st)
          end
      end
  | SelectCliente id => (DbOk (mkClienteRow id <$> clientes db !! id), st)
  | InsertVenta clienteId producto monto fecha estado =>
      if binds_null clienteId || binds_null producto || isNaN monto
         || binds_null fecha then
        (DbErr "SQLITE_CONSTRAINT: NOT NULL constraint failed", st)
      else if sin_cliente db (cliente_ref_of clienteId) then
        (DbErr "SQLITE_CONSTRAINT: FOREIGN KEY constraint failed", st)
      else
        let id := next_id (seq_ventas st) (ventas db) in
        (DbOk (mkRun id 1),
         mkStore
           (with_ventas
              (<[id := mkVenta (cliente_ref_of clienteId) (as_text producto) monto
                         (as_text fecha) estado]> (ventas db))
              db)
           (seq_clientes st) id (seq_apartados st))
  | UpdateVentaFecha fecha id =>
      if binds_null fecha then
        (DbErr "SQLITE_CONSTRAINT: NOT NULL constraint failed: ventas.fecha", st)
      else
        match ventas db !! id with
        | Some v =>
            (DbOk 1%nat,
             with_db (with_ventas
                        (<[id := set_fecha (as_text fecha) v]> (ventas db)) db) st)
        | None => (DbOk 0%nat, st)
        end
  | DeleteVenta id =>
      match ventas db !! id with
      | Some _ =>
          (DbOk 1%nat,
           with_db (with_abonos (tras_borrar ab_ventaId id (abonos db))
                      (with_ventas (delete id (ventas db)) db)) st)
      | None => (DbOk 0%nat, st)
      end
  | InsertApartado clienteId producto montoTotal fecha estadoApartado =>
      if binds_null clienteId || binds_null producto || isNaN montoTotal
         || binds_null fecha then
        (DbErr "SQLITE_CONSTRAINT: NOT NULL constraint failed", st)
      else if sin_cliente db (cliente_ref_of clienteId) then
        (DbErr "SQLITE_CONSTRAINT: FOREIGN KEY constraint failed", st)
      else
        let id := next_id (seq_apartados st) (apartados db) in
        (DbOk (mkRun id 1),
         mkStore
           (with_apartados
              (<[id := mkApartado (cliente_ref_of clienteId) (as_text producto)
                         montoTotal (as_text fecha) estadoApartado None]>
                 (apartados db))
              db)
           (seq_clientes st) (seq_ventas st) id)
  | UpdateApartadoFecha fechaCreacion id =>
      if binds_null fechaCreacion then
        (DbErr "SQLITE_CONSTRAINT: NOT NULL constraint failed: apartados.fechaCreacion",
         st)
      else
        match apartados db !! id with
        | Some a =>
            (DbOk 1%nat,
             with_db (with_apartados
                        (<[id := set_fechaCreacion (as_text fechaCreacion) a]>
                           (apartados db)) db) st)
        | None => (DbOk 0%nat, st)
        end
  | DeleteApartado id =>
      match apartados db !! id with
      | Some _ =>
          (DbOk 1%nat,
           with_db (with_abonos (tras_borrar ab_apartadoId id (abonos db))
                      (with_apartados (delete id (apartados db)) db)) st)
      | None => (DbOk 0%nat, st)
      end
  | SelectAbonos ventaId apartadoId =>
      (DbOk (select_abonos ventaId apartadoId db), st)
  end.

End Sentencias.

(** ** Responses of the other routes *)

Inductive bodyx : Type :=
| Body (b : body)
    (* a body of the first part *)
| ClientNameRequired
    (* Client name is required. *)
| IdentificationExists (identificacion : jsval)
    (* Client identification '...' already exists. *)
| ClientCreated (id : Z) (nombre identificacion telefono email : jsval)
| ContactRequired
    (* Debe proporcionar al menos un telefono o email para actualizar. *)
| NoFieldsProvided
    (* No fields provided for update. *)
| ClienteNoEncontrado
    (* Cliente no encontrado. *)
| ClienteActualizado (row : option cliente_row)
| SaleMissingFields
    (* Missing required fields for sale. *)
| SaleAmountNotPositive
    (* Sale amount must be a positive number. *)
| SaleCreated (id : Z) (clienteId producto : jsval) (monto : num) (fecha : jsval)
    (estado : estado_venta) (totalAbonado saldoPendiente : num)
| FechaRequerida
    (* La fecha es requerida. *)
| FormatoFechaInvalido
    (* Formato de fecha invalido. Use YYYY-MM-DD. *)
| VentaNoEncontrada
    (* Venta no encontrada. *)
| FechaVentaActualizada (id : Z) (fecha : jsval)
    (* Fecha de venta actualizada. *)
| VentaEliminada (id : Z)
    (* Venta #... eliminada exitosamente. *)
| LayawayMissingFields
    (* Missing required fields for apartado (clienteId, producto, montoTotal). *)
| LayawayAmountNotPositive
    (* Apartado amount must be a positive number. *)
| LayawayCreated (id : Z) (clienteId producto : jsval) (montoTotal : num)
    (fechaCreacion : jsval) (estadoApartado : estado_apartado)
    (totalAbonado saldoPendiente : num)
| FechaCreacionRequerida
    (* La fecha de creacion es requerida. *)
| ApartadoNoEncontrado
    (* Apartado no encontrado. *)
| FechaApartadoActualizada (id : Z) (fechaCreacion : jsval)
    (* Fecha de creacion del apartado actualizada. *)
| ApartadoEliminado (id : Z)
    (* Apartado #... eliminado exitosamente. *)
| PaymentsList (rows : list abono_row).

Record responsex : Type := mkResponseX {
  statusx : nat;
  res_bodyx : bodyx
}.

Definition response_of (r : response) : responsex :=
  mkResponseX (status r) (Body (res_body r)).

(** ** Handler programs over the store *)

Inductive progx : Type :=
| HaltX : progx
| SendX (r : responsex) (k : progx) : progx
| LogX (message : string) (k : progx) : progx
| CallX {R : Type} (q : sqlx R) (cb : dbresult R → progx) (k : progx) : progx.

Record taskx : Type := mkTaskX {
  tx_R : Type;
  tx_sql : sqlx tx_R;
  tx_cb : dbresult tx_R → progx
}.

Inductive eventx : Type :=
| RespondX (r : responsex) (snapshot : Store)
| WriteX (changes : nat)
| LoggedX (message : string).

Fixpoint run_syncx (p : progx) (st : Store) (out : list eventx)
    (queue : list taskx) : list eventx * list taskx :=
  match p with
  | HaltX => (out, queue)
  | SendX r k => run_syncx k st (out ++ [RespondX r st]) queue
  | LogX m k => run_syncx k st (out ++ [LoggedX m]) queue
  | CallX q cb k => run_syncx k st out (queue ++ [mkTaskX _ q cb])
  end.

Definition event_of (st : Store) (e : event) : eventx :=
  match e with
  | Respond r db => RespondX (response_of r) (with_db db st)
  | Write n => WriteX n
  | Logged m => LoggedX m
  end.

(** The rows a completed statement changed, when it is a [db.run]. *)
Definition writtenx {R : Type} (q : sqlx R) (st : Store)
    : dbresult R → list eventx :=
  match q in sqlx R return dbresult R → list eventx with
  | Base q => λ res, event_of st <$> written q res
  | InsertCliente _ _ _ _ | InsertVenta _ _ _ _ _ | InsertApartado _ _ _ _ _ =>
      λ res, match res with DbOk r => [WriteX (changes r)] | DbErr _ => [] end
  | UpdateCliente _ _ | UpdateVentaFecha _ _ | DeleteVenta _
  | UpdateApartadoFecha _ _ | DeleteApartado _ =>
      λ res, match res with DbOk n => [WriteX n] | DbErr _ => [] end
  | SelectCliente _ | SelectAbonos _ _ => λ _, []
  end.

(** A handler of the first part, as a program over the store. *)
Fixpoint lift (p : prog) : progx :=
  match p with
  | Halt => HaltX
  | Send r k => SendX (response_of r) (lift k)
  | Log m k => LogX m (lift k)
  | Call q cb k => CallX (Base q) (λ res, lift (cb res)) (lift k)
  end.

Section Rutas.

Variable env : entorno.

(** As [event_loop], over the store. *)
Fixpoint event_loopx (fuel : nat) (st : Store) (out : list eventx)
    (queue : list taskx) : option (Store * list eventx) :=
  match queue with
  | [] => Some (st, out)
  | t :: queue' =>
      match fuel with
      | O => None
      | S fuel' =>
          let '(res, st') := execx env (tx_sql t) st in
          let '(out', queue'') :=
            run_syncx (tx_cb t res) st' (out ++ writtenx (tx_sql t) st' res)
              queue' in
          event_loopx fuel' st' out' queue''
      end
  end.

Definition run_progx (fuel : nat) (p : progx) (st : Store)
    : option (Store * list eventx) :=
  let '(out, queue) := run_syncx p st [] [] in
  event_loopx fuel st out queue.

(** [POST /api/clientes], lines 145-161. *)
Definition post_api_clientes (b : cliente_body) : progx :=
  let nombre := cb_nombre b in
  let identificacion := cb_identificacion b in
  let telefono := cb_telefono b in
  let email := cb_email b in
  if negb (truthy nombre)
  then SendX (mkResponseX 400 ClientNameRequired) HaltX
  else
    CallX (InsertCliente nombre identificacion telefono email) (λ res,
      match res with
      | DbErr m =>
          if includes "UNIQUE constraint failed" m
          then SendX (mkResponseX 400 (IdentificationExists identificacion)) HaltX
          else SendX (mkResponseX 500
                        (Body (StorageError "Error adding client: " m))) HaltX
      | DbOk this =>
          SendX (mkResponseX 201
                   (ClientCreated (lastID this) nombre identificacion telefono
                      email)) HaltX
      end) HaltX.

(** [PUT /api/clientes/:id], lines 164-213. *)
Definition put_api_clientes (clienteId : Z) (telefono email : jsval) : progx :=
  if is_undefined telefono && is_undefined email
  then SendX (mkResponseX 400 ContactRequired) HaltX
  else
    let fieldsToUpdate :=
      (if negb (is_undefined telefono) then [(Telefono, telefono)] else [])
      ++ (if negb (is_undefined email) then [(Email, email)] else []) in
    if (length fieldsToUpdate =? 0)%nat
    then SendX (mkResponseX 400 NoFieldsProvided) HaltX
    else
      CallX (UpdateCliente fieldsToUpdate clienteId) (λ res,
        match res with
        | DbErr m =>
            SendX (mkResponseX 500
                     (Body (StorageError "Error actualizando cliente: " m))) HaltX
        | DbOk changes =>
            if (changes =? 0)%nat
            then SendX (mkResponseX 404 ClienteNoEncontrado) HaltX
            else
              CallX (SelectCliente clienteId) (λ res',
                match res' with
                | DbErr m =>
                    SendX (mkResponseX 500
                             (Body (StorageError
                                      "Error obteniendo cliente actualizado: " m)))
                      HaltX
                | DbOk row => SendX (mkResponseX 200 (ClienteActualizado row)) HaltX
                end) HaltX
        end) HaltX.

(** [POST /api/ventas], lines 248-279. *)
Definition post_api_ventas (b : venta_body) : progx :=
  let clienteId := vb_clienteId b in
  let producto := vb_producto b in
  let monto := vb_monto b in
  let fecha := vb_fecha b in
  let parseFloat := parseFloat (env_parseFloat env) in
  if negb (truthy clienteId) || negb (truthy producto) || is_undefined monto
     || negb (truthy fecha)
  then SendX (mkResponseX 400 SaleMissingFields) HaltX
  else if isNaN (parseFloat monto) || js_le (parseFloat monto) 0%float
  then SendX (mkResponseX 400 SaleAmountNotPositive) HaltX
  else
    CallX (InsertVenta clienteId producto (parseFloat monto) fecha Pendiente)
      (λ res,
        match res with
        | DbErr m =>
            SendX (mkResponseX 500 (Body (StorageError "Error adding sale: " m)))
              HaltX
        | DbOk this =>
            SendX (mkResponseX 201
                     (SaleCreated (lastID this) clienteId producto
                        (parseFloat monto) fecha Pendiente 0%float
                        (parseFloat monto))) HaltX
        end) HaltX.

(** [PUT /api/ventas/:id/fecha], lines 282-308. *)
Definition put_api_ventas_fecha (ventaId : Z) (fecha : jsval) : progx :=
  if negb (truthy fecha)
  then SendX (mkResponseX 400 FechaRequerida) HaltX
  else if negb (test_fecha fecha)
  then SendX (mkResponseX 400 FormatoFechaInvalido) HaltX
  else
    CallX (UpdateVentaFecha fecha ventaId) (λ res,
      match res with
      | DbErr m =>
          SendX (mkResponseX 500
                   (Body (StorageError "Error actualizando fecha de la venta: " m)))
            HaltX
      | DbOk changes =>
          if (changes =? 0)%nat
          then SendX (mkResponseX 404 VentaNoEncontrada) HaltX
          else SendX (mkResponseX 200 (FechaVentaActualizada ventaId fecha)) HaltX
      end) HaltX.

(** [DELETE /api/ventas/:id], lines 311-326. *)
Definition delete_api_ventas (ventaId : Z) : progx :=
  CallX (DeleteVenta ventaId) (λ res,
    match res with
    | DbErr m =>
        SendX (mkResponseX 500 (Body (StorageError "Error eliminando venta: " m)))
          HaltX
    | DbOk changes =>
        if (changes =? 0)%nat
        then SendX (mkResponseX 404 VentaNoEncontrada) HaltX
        else SendX (mkResponseX 200 (VentaEliminada ventaId)) HaltX
    end) HaltX.

(** [POST /api/apartados], lines 329-369; [today] as in the delivery. *)
Definition post_api_apartados (today : string) (b : apartado_body) : progx :=
  let clienteId := pb_clienteId b in
  let producto := pb_producto b in
  let montoTotal := pb_montoTotal b in
  let fechaCreacion := pb_fechaCreacion b in
  let parseFloat := parseFloat (env_parseFloat env) in
  if negb (truthy clienteId) || negb (truthy producto) || is_undefined montoTotal
  then SendX (mkResponseX 400 LayawayMissingFields) HaltX
  else if isNaN (parseFloat montoTotal) || js_le (parseFloat montoTotal) 0%float
  then SendX (mkResponseX 400 LayawayAmountNotPositive) HaltX
  else
    let fecha := if truthy fechaCreacion then fechaCreacion else JStr today in
    let estadoInicial := Apartado in
    CallX (InsertApartado clienteId producto (parseFloat montoTotal) fecha
             estadoInicial)
      (λ res,
        match res with
        | DbErr m =>
            SendX (mkResponseX 500
                     (Body (StorageError "Error creating apartado: " m))) HaltX
        | DbOk this =>
            SendX (mkResponseX 201
                     (LayawayCreated (lastID this) clienteId producto
                        (parseFloat montoTotal) fecha estadoInicial 0%float
                        (parseFloat montoTotal))) HaltX
        end) HaltX.

(** [PUT /api/apartados/:id/fecha], lines 477-509. *)
Definition put_api_apartados_fecha (apartadoId : Z) (fechaCreacion : jsval)
    : progx :=
  if negb (truthy fechaCreacion)
  then SendX (mkResponseX 400 FechaCreacionRequerida) HaltX
  else if negb (test_fecha fechaCreacion)
  then SendX (mkResponseX 400 FormatoFechaInvalido) HaltX
  else
    CallX (UpdateApartadoFecha fechaCreacion apartadoId) (λ res,
      match res with
      | DbErr m =>
          SendX (mkResponseX 500
                   (Body (StorageError
                            "Error actualizando fecha de creacion del apartado: "
                            m))) HaltX
      | DbOk changes =>
          if (changes =? 0)%nat
          then SendX (mkResponseX 404 ApartadoNoEncontrado) HaltX
          else SendX (mkResponseX 200
                        (FechaApartadoActualizada apartadoId fechaCreacion)) HaltX
      end) HaltX.

(** [DELETE /api/apartados/:id], lines 512-527. *)
Definition delete_api_apartados (apartadoId : Z) : progx :=
  CallX (DeleteApartado apartadoId) (λ res,
    match res with
    | DbErr m =>
        SendX (mkResponseX 500
                 (Body (StorageError "Error eliminando apartado: " m))) HaltX
    | DbOk changes =>
        if (changes =? 0)%nat
        then SendX (mkResponseX 404 ApartadoNoEncontrado) HaltX
        else SendX (mkResponseX 200 (ApartadoEliminado apartadoId)) HaltX
    end) HaltX.

(** [GET /api/abonos], lines 530-559. *)
Definition get_api_abonos (q : abonos_query) : progx :=
  let ventaId := q_ventaId q in
  let apartadoId := q_apartadoId q in
  CallX (SelectAbonos ventaId apartadoId) (λ res,
    match res with
    | DbErr m =>
        SendX (mkResponseX 500
                 (Body (StorageError "Error fetching payments: " m))) HaltX
    | DbOk rows => SendX (mkResponseX 200 (PaymentsList rows)) HaltX
    end) HaltX.

End Rutas.

(** The requests of the whole API but the listing of the clients. *)
Inductive requestx : Type :=
| Antes (rq : request)
    (* a request of the first part *)
| POST_clientes (b : cliente_body)
| PUT_clientes (id : Z) (telefono email : jsval)
| POST_ventas (b : venta_body)
| PUT_ventas_fecha (id : Z) (fecha : jsval)
| DELETE_ventas (id : Z)
| POST_apartados (b : apartado_body)
| PUT_apartados_fecha (id : Z) (fechaCreacion : jsval)
| DELETE_apartados (id : Z)
| GET_abonos (q : abonos_query).

Definition handlerx (env : entorno) (today : string) (rq : requestx) : progx :=
  match rq with
  | Antes rq => lift (handler (env_parseFloat env) (env_parseInt env) today rq)
  | POST_clientes b => post_api_clientes b
  | PUT_clientes id telefono email => put_api_clientes id telefono email
  | POST_ventas b => post_api_ventas env b
  | PUT_ventas_fecha id fecha => put_api_ventas_fecha id fecha
  | DELETE_ventas id => delete_api_ventas id
  | POST_apartados b => post_api_apartados env today b
  | PUT_apartados_fecha id fechaCreacion => put_api_apartados_fecha id fechaCreacion
  | DELETE_apartados id => delete_api_apartados id
  | GET_abonos q => get_api_abonos q
  end.

(** Serves one request over the store, as [serve] does over the database. *)
Definition servex (env : entorno) (today : string) (rq : requestx) (st : Store)
    : option (Store * list eventx) :=
  run_progx env (enough_fuel (st_db st)) (handlerx env today rq) st.

(** Requests served one after the other. *)
Fixpoint serve_allx (env : entorno) (rqs : list (string * requestx)) (st : Store)
    : option Store :=
  match rqs with
  | [] => Some st
  | (today, rq) :: rqs' =>
      match servex env today rq st with
      | Some (st', _) => serve_allx env rqs' st'
      | None => None
      end
  end.

Definition responsesx (tr : list eventx) : list responsex :=
  omap (λ e, match e with RespondX r _ => Some r | _ => None end) tr.

(** A queued call of the first part, over the store. *)
Definition taskx_of (t : task) : taskx :=
  mkTaskX _ (Base (t_sql t)) (λ res, lift (t_cb t res)).

(** The outcome of the first part, over the store [st]. *)
Definition outcome_of (st : Store) (res : DB * list event) : Store * list eventx :=
  (with_db res.1 st, event_of st <$> res.2).

(** [chk_abono_referencia] holds of every payment row. *)
Definition refs_exclusivas (db : DB) : Prop :=
  ∀ a, a ∈ abonos db →
    (is_Some (ab_ventaId a) ∧ ab_apartadoId a = None) ∨
    (ab_ventaId a = None ∧ is_Some (ab_apartadoId a)).

(** Does a payment pass the filters of a query? *)
Definition pasa_filtros (q : abonos_query) (a : abono) : Prop :=
  (∀ z, q_ventaId q = Some z → ab_ventaId a = Some z) ∧
  (∀ z, q_apartadoId q = Some z → ab_apartadoId a = Some z).

(** An environment that reads no string as a number and stores the empty
    text for a value that is no string, with or without foreign keys. *)
Definition env_ejemplo (fk : bool) : entorno :=
  mkEntorno parseFloat_other_NaN parseInt_other_NaN (λ _, EmptyString) (λ _, None) fk.

(** The example database after a payment of 40.00 to its sale and one of
    50.00 to its layaway, with the sequences of a database that has given
    out the ids it holds. *)
Definition st_ejemplo : Store :=
  mkStore
    (mkDB (clientes db_ejemplo) (ventas db_ejemplo) (apartados db_ejemplo)
       [mkAbono 1 (Some 1) None 40%float (JStr "2024-03-01") JNull;
        mkAbono 2 None (Some 1) 50%float (JStr "2024-03-02") JNull]
       2)
    1 1 2.

(** The payment row that [con_abono] appends. *)
Definition nuevo_abono (db : DB) (refType : ref_type) (z : Z) (monto : num)
    (fecha comentarios : jsval) : abono :=
  match refType with
  | RefVenta =>
      mkAbono (seq_abonos db + 1) (Some z) None monto fecha (or_null comentarios)
  | RefApartado =>
      mkAbono (seq_abonos db + 1) None (Some z) monto fecha (or_null comentarios)
  end.

(** The request that deletes a parent. *)
Definition DELETE_de (refType : ref_type) (id : Z) : requestx :=
  match refType with
  | RefVenta => DELETE_ventas id
  | RefApartado => DELETE_apartados id
  end.

(** The query for the payments of a parent. *)
Definition abonos_de (refType : ref_type) (id : Z) : abonos_query :=
  match refType with
  | RefVenta => mkQuery (Some id) None
  | RefApartado => mkQuery None (Some id)
  end.

(** The two checks of lines 251-256 pass. *)
Definition venta_valida (env : entorno) (b : venta_body) : bool :=
  truthy (vb_clienteId b) && truthy (vb_producto b)
  && negb (is_undefined (vb_monto b)) && truthy (vb_fecha b)
  && negb (isNaN (parseFloat (env_parseFloat env) (vb_monto b)))
  && negb (js_le (parseFloat (env_parseFloat env) (vb_monto b)) 0%float).

(** The two checks of lines 332-342 pass. *)
Definition apartado_valido (env : entorno) (b : apartado_body) : bool :=
  truthy (pb_clienteId b) && truthy (pb_producto b)
  && negb (is_undefined (pb_montoTotal b))
  && negb (isNaN (parseFloat (env_parseFloat env) (pb_montoTotal b)))
  && negb (js_le (parseFloat (env_parseFloat env) (pb_montoTotal b)) 0%float).

(** ** The ways the store changes *)

(** What one statement can do to a layaway: nothing, or one of the moves
    'Apartado' to 'Pagado', 'Pagado' to 'Entregado' with a delivery date,
    'Apartado' or 'Pagado' to 'Cancelado'. *)
Definition paso_apartado (a a' : apartado) : Prop :=
  a' = a ∨
  (ap_estadoApartado a = Apartado ∧ a' = set_estadoApartado Pagado a) ∨
  (ap_estadoApartado a = Pagado ∧ ∃ fecha, a' = set_entregado fecha a) ∨
  ((ap_estadoApartado a = Apartado ∨ ap_estadoApartado a = Pagado) ∧
   a' = set_estadoApartado Cancelado a).

(** The changes that the statements of the handlers make, one constructor
    per kind: states of sales rewritten; layaways moved along
    [paso_apartado]; a payment within the balance appended; a client, a sale
    or a layaway inserted under the next id; the contact data of a client,
    the date of a sale or of a layaway replaced; a sale or a layaway deleted,
    with its payments if the foreign keys are enforced. *)
Inductive cambio (env : entorno) (st : Store) : Store → Prop :=
| cambio_estados_ventas (f : Z → venta → estado_venta) :
    cambio env st
      (with_db (with_ventas
                  (map_imap (λ id v, Some (set_estado (f id v) v))
                     (ventas (st_db st))) (st_db st)) st)
| cambio_apartados (f : Z → apartado → apartado) :
    (∀ id a, apartados (st_db st) !! id = Some a → paso_apartado a (f id a)) →
    cambio env st
      (with_db (with_apartados
                  (map_imap (λ id a, Some (f id a)) (apartados (st_db st)))
                  (st_db st)) st)
| cambio_abono refType z refInfo m fecha comentarios :
    ref_lookup (st_db st) refType (Some z) = Some refInfo →
    js_gt m 0%float = true →
    js_gt m (js_add (saldo refInfo) epsilon) = false →
    cambio env st
      (with_db (con_abono (st_db st) refType (Some z) m fecha comentarios) st)
| cambio_cliente c :
    identificacion_taken (clientes (st_db st)) (c_identificacion c) = false →
    let id := next_id (seq_clientes st) (clientes (st_db st)) in
    cambio env st
      (mkStore (with_clientes (<[id := c]> (clientes (st_db st))) (st_db st))
         id (seq_ventas st) (seq_apartados st))
| cambio_contacto id c c' :
    clientes (st_db st) !! id = Some c →
    c_nombre c' = c_nombre c → c_identificacion c' = c_identificacion c →
    cambio env st
      (with_db (with_clientes (<[id := c']> (clientes (st_db st))) (st_db st)) st)
| cambio_venta v :
    v_estado v = Pendiente → js_gt (v_monto v) 0%float = true →
    sin_cliente env (st_db st) (v_clienteId v) = false →
    let id := next_id (seq_ventas st) (ventas (st_db st)) in
    cambio env st
      (mkStore (with_ventas (<[id := v]> (ventas (st_db st))) (st_db st))
         (seq_clientes st) id (seq_apartados st))
| cambio_fecha_venta id v fecha :
    ventas (st_db st) !! id = Some v →
    cambio env st
      (with_db (with_ventas (<[id := set_fecha fecha v]> (ventas (st_db st)))
                  (st_db st)) st)
| cambio_borra_venta id :
    is_Some (ventas (st_db st) !! id) →
    cambio env st
      (with_db (with_abonos (tras_borrar env ab_ventaId id (abonos (st_db st)))
                  (with_ventas (delete id (ventas (st_db st))) (st_db st))) st)
| cambio_apartado a :
    ap_estadoApartado a = Apartado → ap_fechaEntrega a = None →
    js_gt (ap_montoTotal a) 0%float = true →
    sin_cliente env (st_db st) (ap_clienteId a) = false →
    let id := next_id (seq_apartados st) (apartados (st_db st)) in
    cambio env st
      (mkStore (with_apartados (<[id := a]> (apartados (st_db st))) (st_db st))
         (seq_clientes st) (seq_ventas st) id)
| cambio_fecha_apartado id a fecha :
    apartados (st_db st) !! id = Some a →
    cambio env st
      (with_db (with_apartados
                  (<[id := set_fechaCreacion fecha a]> (apartados (st_db st)))
                  (st_db st)) st)
| cambio_borra_apartado id :
    is_Some (apartados (st_db st) !! id) →
    cambio env st
      (with_db (with_abonos (tras_borrar env ab_apartadoId id (abonos (st_db st)))
                  (with_apartados (delete id (apartados (st_db st))) (st_db st)))
         st).

(** Every id in use, of a stored sale or layaway or named by a payment, has
    been given out by the sequence of its table. *)
Definition ids_dados (st : Store) : Prop :=
  (∀ j, is_Some (ventas (st_db st) !! j) → j ≤ seq_ventas st) ∧
  (∀ j, is_Some (apartados (st_db st) !! j) → j ≤ seq_apartados st) ∧
  (∀ a z, a ∈ abonos (st_db st) → ab_ventaId a = Some z → z ≤ seq_ventas st) ∧
  (∀ a z, a ∈ abonos (st_db st) → ab_apartadoId a = Some z → z ≤ seq_apartados st).

(** The store is coherent: ids come from the sequences, every payment has one
    parent and a positive amount, and every payment of a stored sale or
    layaway was within the balance when it came in. *)
Definition coherente (st : Store) : Prop :=
  ids_dados st ∧ refs_exclusivas (st_db st) ∧
  abonos_positivos (st_db st) ∧ pagos_admitidos (st_db st).

(** [coherente], as a test. *)
Definition coherente_b (st : Store) : bool :=
  forallb (λ j, j <=? seq_ventas st) (map_to_list (ventas (st_db st))).*1
  && forallb (λ j, j <=? seq_apartados st) (map_to_list (apartados (st_db st))).*1
  && forallb (λ a,
       match ab_ventaId a, ab_apartadoId a with
       | Some z, None => z <=? seq_ventas st
       | None, Some z => z <=? seq_apartados st
       | _, _ => false
       end) (abonos (st_db st))
  && forallb (λ a, js_gt (ab_monto a) 0%float) (abonos (st_db st))
  && admitidos_b (st_db st) [] (abonos (st_db st)).

(** The store of a database that has just been created. *)
Definition st_vacio : Store := mkStore (mkDB ∅ ∅ ∅ [] 0) 0 0 0.

(** The states a layaway in state [e] can ever be found in later. *)
Definition puede_llegar (e e' : estado_apartado) : bool :=
  match e, e' with
  | Apartado, _ => true
  | Pagado, (Pagado | Entregado | Cancelado) => true
  | Entregado, Entregado => true
  | Cancelado, Cancelado => true
  | _, _ => false
  end.

(** A sale and what it has become. *)
Definition misma_venta (v v' : venta) : Prop :=
  v_clienteId v' = v_clienteId v ∧ v_producto v' = v_producto v ∧
  v_monto v' = v_monto v.

(** A layaway and what it has become. *)
Definition mismo_apartado (a a' : apartado) : Prop :=
  ap_clienteId a' = ap_clienteId a ∧ ap_producto a' = ap_producto a ∧
  ap_montoTotal a' = ap_montoTotal a ∧
  puede_llegar (ap_estadoApartado a) (ap_estadoApartado a') = true.

(** The ids of the stored sales and layaways have been given out by the
    sequences. *)
Definition claves_dadas (st : Store) : Prop :=
  (∀ j, is_Some (ventas (st_db st) !! j) → j ≤ seq_ventas st) ∧
  (∀ j, is_Some (apartados (st_db st) !! j) → j ≤ seq_apartados st).

(** From [st] to [st']: the sequence has not gone back; a sale of [st] is
    gone or is still the same sale; a sale that [st] did not have has an id
    given out in between. *)
Definition conserva_ventas (st st' : Store) : Prop :=
  seq_ventas st ≤ seq_ventas st' ∧
  (∀ id v, ventas (st_db st) !! id = Some v →
     ventas (st_db st') !! id = None ∨
     ∃ v', ventas (st_db st') !! id = Some v' ∧ misma_venta v v') ∧
  (∀ id, is_Some (ventas (st_db st') !! id) → ventas (st_db st) !! id = None →
     seq_ventas st < id ≤ seq_ventas st').

(** The same for the layaways. *)
Definition conserva_apartados (st st' : Store) : Prop :=
  seq_apartados st ≤ seq_apartados st' ∧
  (∀ id a, apartados (st_db st) !! id = Some a →
     apartados (st_db st') !! id = None ∨
     ∃ a', apartados (st_db st') !! id = Some a' ∧ mismo_apartado a a') ∧
  (∀ id, is_Some (apartados (st_db st') !! id) →
     apartados (st_db st) !! id = None →
     seq_apartados st < id ≤ seq_apartados st').

Definition conserva (st st' : Store) : Prop :=
  conserva_ventas st st' ∧ conserva_apartados st st'.

(** A layaway has a delivery date exactly when it is 'Entregado'. *)
Definition entrega_ok (db : DB) : Prop :=
  ∀ id a, apartados db !! id = Some a →
    (is_Some (ap_fechaEntrega a) ↔ ap_estadoApartado a = Entregado).

(** No two clients share an identification. *)
Definition identificaciones_unicas (db : DB) : Prop :=
  ∀ i j c d s,
    clientes db !! i = Some c → clientes db !! j = Some d →
    c_identificacion c = Some s → c_identificacion d = Some s → i = j.

(** The client reference of a creation request, if it is one. *)
Definition clienteId_de (rq : requestx) : option jsval :=
  match rq with
  | POST_ventas b => Some (vb_clienteId b)
  | POST_apartados b => Some (pb_clienteId b)
  | _ => None
  end.

(** A value wrapped in [n] arrays of one element: [v], [[v]], [[[v]]], ... *)
Fixpoint anidada (n : nat) (v : jsval) : jsval :=
  match n with
  | O => v
  | S n' => JArr [anidada n' v]
  end.

(** The value prints as a date of the shape dddd-dd-dd: it is such a string,
    bare or wrapped in arrays of one element. *)
Definition imprime_fecha (v : jsval) : Prop :=
  ∃ n s, v = anidada n (JStr s) ∧ date_shape s = true.

(** The value of a decimal digit. *)
Definition digito (c : ascii) : Z := Z.of_N (N_of_ascii c) - 48.

(** A date of the shape dddd-dd-dd as the number yyyymmdd. *)
Definition fecha_valor (s : string) : Z :=
  match list_ascii_of_string s with
  | [y1; y2; y3; y4; _; m1; m2; _; d1; d2] =>
      digito y1 * 10000000 + digito y2 * 1000000 + digito y3 * 100000
      + digito y4 * 10000 + digito m1 * 1000 + digito m2 * 100
      + digito d1 * 10 + digito d2
  | _ => 0
  end.

(** [{ nombre: "Ana", identificacion: "V-1" }] *)
Definition alta_ana : cliente_body :=
  mkClienteBody (JStr "Ana") (JStr "V-1") JUndefined JUndefined.

(** [{ clienteId: c, producto: "TV", monto: monto, fecha: "2024-01-01" }] *)
Definition alta_venta (c monto : num) : venta_body :=
  mkVentaBody (JNum c) (JStr "TV") (JNum monto) (JStr "2024-01-01").

(** [{ clienteId: c, producto: "Sofa", montoTotal: monto }] *)
Definition alta_apartado (c monto : num) : apartado_body :=
  mkApartadoBody (JNum c) (JStr "Sofa") (JNum monto) JUndefined.

(** A client, a sale and a layaway for it, three payments, the sale deleted
    and created anew, and a listing. *)
Definition peticiones_altas : list (string * requestx) :=
  [("2024-01-01", POST_clientes alta_ana);
   ("2024-01-01", POST_ventas (alta_venta 1 100%float));
   ("2024-01-02", POST_apartados (alta_apartado 1 50%float));
   ("2024-03-01", Antes (POST_abonos (pago_venta 1 60%float)));
   ("2024-03-02", Antes (POST_abonos (pago_venta 1 40.001%float)));
   ("2024-03-03", Antes (POST_abonos (pago_apartado 1 50%float)));
   ("2024-03-04", DELETE_ventas 1);
   ("2024-03-05", POST_ventas (alta_venta 1 20%float));
   ("2024-03-06", Antes GET_apartados)]%string.

(** A payment, a listing, a delivery, a cancellation that comes too late, a
    date change, a deletion and a creation. *)
Definition peticiones_ciclo : list (string * requestx) :=
  [("2024-03-03", Antes (POST_abonos (pago_venta 1 60%float)));
   ("2024-03-04", Antes GET_apartados);
   ("2024-03-05", Antes (PUT_entregar 1));
   ("2024-03-06", Antes (PUT_cancelar 1));
   ("2024-03-07", PUT_ventas_fecha 1 (JStr "2024-02-29"));
   ("2024-03-08", DELETE_apartados 2);
   ("2024-03-09", POST_apartados (alta_apartado 1 70%float))]%string.

(** A client created, created again, updated, and one without
    identification. *)
Definition peticiones_clientes : list (string * requestx) :=
  [("2024-01-01", POST_clientes alta_ana);
   ("2024-01-02", POST_clientes alta_ana);
   ("2024-01-03", PUT_clientes 1 (JStr "555") JUndefined);
   ("2024-01-04",
    POST_clientes (mkClienteBody (JStr "Ana") JUndefined JUndefined JUndefined))]%string.


(** Six more clients: the sixth is given the id 7. *)
Definition peticiones_seis_clientes : list (string * requestx) :=
  replicate 6
    ("2024-02-01"%string,
     POST_clientes (mkClienteBody (JStr "Eva") JUndefined JUndefined JUndefined)).

(** The ids of the payments are distinct and have been given out by the
    sequence. *)
Definition ids_abonos_ok (db : DB) : Prop :=
  NoDup (ab_id <$> abonos db) ∧ ∀ a, a ∈ abonos db → ab_id a ≤ seq_abonos db.

(** * Results *)

(** ** Binary64 numbers *)

Lemma SFcompare_antisym x y :
  SFcompare y x = (λ c, CompOpp c) <$> SFcompare x y.
Proof.
  destruct x as [[]|[]| |[] m1 e1], y as [[]|[]| |[] m2 e2]; try reflexivity.
  all: cbn; rewrite (Z.compare_antisym e1 e2).
  all: change (Pos.compare_cont Eq m2 m1) with (Pos.compare_cont (CompOpp Eq) m2 m1).
  all: rewrite <- (Pos.compare_cont_antisym m1 m2 Eq).
  all: destruct (e1 ?= e2); cbn; try reflexivity.
  all: by destruct (Pos.compare_cont Eq m1 m2).
Qed.

Lemma SFcompare_nan x y :
  SFcompare x y = None ↔ x = S754_nan ∨ y = S754_nan.
Proof.
  destruct x as [[]|[]| |[] m1 e1], y as [[]|[]| |[] m2 e2]; cbn; split;
    try done; try (by intros [?|?]); auto.
Qed.

Lemma is_nan_spec x : is_nan x = true ↔ Prim2SF x = S754_nan.
Proof.
  unfold is_nan. rewrite FloatAxioms.eqb_spec. unfold SFeqb.
  destruct (SFcompare (Prim2SF x) (Prim2SF x)) as [c|] eqn:E.
  - assert (Prim2SF x ≠ S754_nan) as N.
    { intros H. rewrite H in E. done. }
    pose proof (SFcompare_antisym (Prim2SF x) (Prim2SF x)) as A.
    rewrite E in A. cbn in A. injection A as A.
    destruct c; cbn in *; try done.
  - apply SFcompare_nan in E. split; [tauto|done].
Qed.

Lemma js_gt_not_le x y : js_gt x y = true → js_le x y = false.
Proof.
  unfold js_gt, js_lt, js_le. rewrite FloatAxioms.ltb_spec, FloatAxioms.leb_spec. unfold SFltb, SFleb.
  rewrite (SFcompare_antisym (Prim2SF x) (Prim2SF y)).
  by destruct (SFcompare (Prim2SF x) (Prim2SF y)) as [[]|].
Qed.

Lemma js_le_total x y :
  isNaN x = false → isNaN y = false → js_le x y = false → js_gt x y = true.
Proof.
  unfold js_gt, js_lt, js_le, isNaN. rewrite FloatAxioms.ltb_spec, FloatAxioms.leb_spec. unfold SFltb, SFleb.
  intros Hx Hy.
  rewrite (SFcompare_antisym (Prim2SF x) (Prim2SF y)).
  destruct (SFcompare (Prim2SF x) (Prim2SF y)) as [[]|] eqn:E; try done.
  apply SFcompare_nan in E as [E|E]; apply is_nan_spec in E; congruence.
Qed.

Lemma js_gt_zero x :
  isNaN x = false → js_le x 0%float = false → js_gt x 0%float = true.
Proof. intros. by apply js_le_total. Qed.

Lemma js_sub_zero x : js_sub x 0%float = x.
Proof.
  apply Prim2SF_inj. unfold js_sub. rewrite sub_spec.
  change (Prim2SF 0%float) with (S754_zero false).
  by destruct (Prim2SF x) as [[]|[]| |[] m e].
Qed.
(** ** Rounding, as SpecFloat computes it *)

Lemma digits2_bounds m :
  2 ^ (Z.pos (digits2_pos m) - 1) ≤ Z.pos m < 2 ^ Z.pos (digits2_pos m).
Proof.
  induction m as [m IH|m IH|]; cbn [digits2_pos].
  - rewrite Pos2Z.inj_succ, (Pos2Z.inj_xI m).
    replace (Z.succ (Z.pos (digits2_pos m)) - 1) with (Z.succ (Z.pos (digits2_pos m) - 1)) by lia.
    rewrite !Z.pow_succ_r by lia.
    revert IH. generalize (2 ^ (Z.pos (digits2_pos m) - 1)), (2 ^ Z.pos (digits2_pos m)).
    intros; lia.
  - rewrite Pos2Z.inj_succ, (Pos2Z.inj_xO m).
    replace (Z.succ (Z.pos (digits2_pos m)) - 1) with (Z.succ (Z.pos (digits2_pos m) - 1)) by lia.
    rewrite !Z.pow_succ_r by lia.
    revert IH. generalize (2 ^ (Z.pos (digits2_pos m) - 1)), (2 ^ Z.pos (digits2_pos m)).
    intros; lia.
  - change (2 ^ (1 - 1)) with 1. change (2 ^ 1) with 2. lia.
Qed.

Lemma shr_1_m mrs : 0 ≤ shr_m mrs → shr_m (shr_1 mrs) = shr_m mrs / 2.
Proof.
  destruct mrs as [m r s]. cbn [shr_m]. intros Hm.
  destruct m as [|[p|p|]|p]; cbn [shr_1 shr_m]; try lia.
  - reflexivity.
  - apply (Z.div_unique _ 2 _ 1); lia.
  - apply (Z.div_unique _ 2 _ 0); lia.
  - reflexivity.
Qed.

Lemma iter_shr_1_m p : ∀ mrs,
  0 ≤ shr_m mrs → shr_m (SpecFloat.iter_pos shr_1 p mrs) = shr_m mrs / 2 ^ Z.pos p.
Proof.
  induction p as [p IH|p IH|]; intros mrs Hm; cbn [SpecFloat.iter_pos].
  - assert (0 ≤ shr_m (shr_1 mrs)) as H1.
    { rewrite shr_1_m by done. apply Z.div_pos; lia. }
    assert (0 ≤ shr_m (SpecFloat.iter_pos shr_1 p (shr_1 mrs))) as H2.
    { rewrite IH by done. apply Z.div_pos; [done|]. apply Z.pow_pos_nonneg; lia. }
    rewrite IH, IH, shr_1_m by done.
    rewrite !Z.div_div by (try apply Z.pow_pos_nonneg; lia).
    f_equal. rewrite (Pos2Z.inj_xI p).
    replace (2 * Z.pos p + 1) with (1 + Z.pos p + Z.pos p) by lia.
    rewrite !Z.pow_add_r by lia. lia.
  - assert (0 ≤ shr_m (SpecFloat.iter_pos shr_1 p mrs)) as H2.
    { rewrite IH by done. apply Z.div_pos; [done|]. apply Z.pow_pos_nonneg; lia. }
    rewrite IH, IH by done.
    rewrite !Z.div_div by (try apply Z.pow_pos_nonneg; lia).
    f_equal. rewrite (Pos2Z.inj_xO p).
    replace (2 * Z.pos p) with (Z.pos p + Z.pos p) by lia.
    rewrite !Z.pow_add_r by lia. lia.
  - by rewrite shr_1_m.
Qed.

(** [shr] divides the mantissa by a power of two, rounding down. *)
Lemma shr_m_shr m e n :
  0 ≤ m →
  let '(mrs, e') := shr (Build_shr_record m false false) e n in
  shr_m mrs = m / 2 ^ Z.max 0 n ∧ e' = e + Z.max 0 n.
Proof.
  intros Hm. destruct n as [|p|p]; cbn [shr].
  - cbn. rewrite Z.div_1_r. lia.
  - rewrite iter_shr_1_m by done. cbn [shr_m]. rewrite Z.max_r by lia. done.
  - rewrite Z.max_l by lia. cbn. rewrite Z.div_1_r. lia.
Qed.

Lemma round_nearest_even_ge mx lx : mx ≤ round_nearest_even mx lx.
Proof.
  destruct lx as [|[]]; cbn; try lia. destruct (Z.even mx); lia.
Qed.

Lemma shr_record_of_loc_m m l : shr_m (shr_record_of_loc m l) = m.
Proof. by destruct l as [|[]]. Qed.

Lemma fexp64 e : fexp prec emax e = Z.max (e - 53) (-1074).
Proof. reflexivity. Qed.

(** A valid finite number: its exponent is the one its digits call for. *)
Lemma valid_finite s m e :
  valid_binary (S754_finite s m e) = true →
  -1074 ≤ e ∧ Z.pos (digits2_pos m) ≤ 53 ∧
  (-1074 < e → Z.pos (digits2_pos m) = 53).
Proof.
  cbn. unfold bounded, canonical_mantissa. rewrite fexp64.
  intros [H%Z.eqb_eq _]%andb_prop. lia.
Qed.

Lemma pow2_pos n : 0 ≤ n → 0 < 2 ^ n.
Proof. intros. apply Z.pow_pos_nonneg; lia. Qed.

Lemma pow2_le_digits m n :
  0 ≤ n → n ≤ Z.pos (digits2_pos m) - 1 → 2 ^ n ≤ Z.pos m.
Proof.
  intros H0 Hn. etrans; [|apply digits2_bounds].
  apply Z.pow_le_mono_r; lia.
Qed.

(** Rounding a positive mantissa: the result is infinite or finite with the
    same sign, never below the mantissa cut off at the new exponent. *)
Lemma binary_round_aux_pos sx mz ez :
  -1074 ≤ ez →
  binary_round_aux prec emax sx (Z.pos mz) ez loc_Exact = S754_infinity sx ∨
  ∃ m e N,
    binary_round_aux prec emax sx (Z.pos mz) ez loc_Exact = S754_finite sx m e ∧
    0 ≤ N ∧ e = ez + N ∧ Z.pos mz / 2 ^ N ≤ Z.pos m.
Proof.
  intros Hez. unfold binary_round_aux, shr_fexp.
  cbn [shr_record_of_loc Zdigits2]. rewrite fexp64.
  set (n1 := Z.max (Z.pos (digits2_pos mz) + ez - 53) (-1074) - ez).
  pose proof (shr_m_shr (Z.pos mz) ez n1 ltac:(lia)) as H1.
  destruct (shr _ ez n1) as [mrs1 e1]. destruct H1 as [Hm1 He1].
  set (a := Z.max 0 n1) in *.
  assert (0 ≤ a ≤ Z.pos (digits2_pos mz) - 1) as Ha.
  { pose proof (Pos2Z.is_pos (digits2_pos mz)). unfold a, n1. lia. }
  assert (1 ≤ shr_m mrs1) as Hq1.
  { rewrite Hm1. apply Z.div_le_lower_bound; [apply pow2_pos; lia|].
    rewrite Z.mul_1_r. apply pow2_le_digits; lia. }
  pose proof (round_nearest_even_ge (shr_m mrs1) (loc_of_shr_record mrs1)) as Hr.
  set (m1r := round_nearest_even (shr_m mrs1) (loc_of_shr_record mrs1)) in *.
  destruct m1r as [|p1|p1] eqn:Ep1; try lia.
  cbn [Zdigits2]. rewrite fexp64.
  set (n2 := Z.max (Z.pos (digits2_pos p1) + e1 - 53) (-1074) - e1).
  pose proof (shr_m_shr (Z.pos p1) e1 n2 ltac:(lia)) as H2.
  destruct (shr _ e1 n2) as [mrs2 e2]. destruct H2 as [Hm2 He2].
  set (b := Z.max 0 n2) in *.
  assert (0 ≤ b ≤ Z.pos (digits2_pos p1) - 1) as Hb.
  { pose proof (Pos2Z.is_pos (digits2_pos p1)). unfold b, n2. lia. }
  assert (1 ≤ shr_m mrs2) as Hq2.
  { rewrite Hm2. apply Z.div_le_lower_bound; [apply pow2_pos; lia|].
    rewrite Z.mul_1_r. apply pow2_le_digits; lia. }
  destruct (shr_m mrs2) as [|m|m] eqn:Em; try lia.
  destruct (e2 <=? emax - prec); [|by left].
  right. exists m, e2, (a + b). split; [done|]. split; [lia|]. split; [lia|].
  rewrite Z.pow_add_r by lia.
  rewrite <- Z.div_div by (try apply pow2_pos; lia).
  rewrite <- Hm1, Hm2. apply Z.div_le_mono; [apply pow2_pos; lia|lia].
Qed.

Lemma iter_xO m d : Z.pos (Pos.iter xO m d) = Z.pos m * 2 ^ Z.pos d.
Proof.
  induction d as [|d IH] using Pos.peano_ind.
  - cbn. lia.
  - rewrite Pos.iter_succ, Pos2Z.inj_xO, IH, Pos2Z.inj_succ, Z.pow_succ_r by lia. lia.
Qed.

(** [shl_align] keeps the value and lowers the exponent to [ex'] if it was
    above. *)
Lemma shl_align_spec mx ex ex' :
  let '(mz, ez) := shl_align mx ex ex' in
  ez = Z.min ex ex' ∧ Z.pos mz = Z.pos mx * 2 ^ (ex - ez).
Proof.
  unfold shl_align. destruct (ex' - ex) as [|d|d] eqn:E.
  - split; [lia|]. rewrite Z.sub_diag. cbn. lia.
  - split; [lia|]. rewrite Z.sub_diag. cbn. lia.
  - split; [lia|]. rewrite iter_xO. do 2 f_equal. lia.
Qed.


Lemma Prim2SF_epsilon : Prim2SF epsilon = S754_finite false 4611686018427388 (-62).
Proof. reflexivity. Qed.

(** The sum of two positive finite numbers. *)
Lemma SFadd_pos_pos m1 e1 m2 e2 :
  valid_binary (S754_finite false m1 e1) = true →
  valid_binary (S754_finite false m2 e2) = true →
  let R := SF64add (S754_finite false m1 e1) (S754_finite false m2 e2) in
  R = S754_infinity false ∨
  ∃ m e, R = S754_finite false m e ∧
    (e ≤ e1 → Z.pos m1 * 2 ^ (e1 - e) ≤ Z.pos m).
Proof.
  intros (V1 & _)%valid_finite (V2 & _)%valid_finite. cbn zeta.
  unfold SF64add, SFadd. cbn [cond_Zopp].
  set (ez := Z.min e1 e2).
  pose proof (shl_align_spec m1 e1 ez) as A1.
  pose proof (shl_align_spec m2 e2 ez) as A2.
  destruct (shl_align m1 e1 ez) as [a ea], (shl_align m2 e2 ez) as [b eb].
  destruct A1 as [Ea Ha], A2 as [Eb Hb]. cbn [fst].
  change (Z.pos a + Z.pos b) with (Z.pos (a + b)).
  cbn [binary_normalize]. unfold binary_round. rewrite fexp64.
  pose proof (shl_align_spec (a + b) ez
                (Z.max (Z.pos (digits2_pos (a + b)) + ez - 53) (-1074))) as A3.
  destruct (shl_align (a + b) ez _) as [mz ez'].
  destruct A3 as [Ez Hz].
  destruct (binary_round_aux_pos false mz ez' ltac:(lia))
    as [->|(m & e & N & -> & HN & He & Hm)]; [by left|].
  right. exists m, e. split; [done|]. intros Hle.
  assert (ea = ez) as -> by (unfold ez in *; lia).
  assert (0 ≤ e1 - ez) by (unfold ez; lia).
  assert (0 ≤ ez - ez') by lia.
  assert (Z.pos m1 * 2 ^ (e1 - e) * 2 ^ N ≤ Z.pos mz) as Hge.
  { rewrite Hz, Pos2Z.inj_add, Ha.
    replace (e1 - e) with (e1 - ez + (ez - ez') - N) by lia.
    rewrite <- Z.mul_assoc, <- Z.pow_add_r by lia.
    replace (e1 - ez + (ez - ez') - N + N) with ((e1 - ez) + (ez - ez')) by lia.
    rewrite Z.pow_add_r by lia.
    pose proof (pow2_pos (e1 - ez) ltac:(lia)).
    pose proof (pow2_pos (ez - ez') ltac:(lia)).
    pose proof (Pos2Z.is_pos b). nia. }
  etrans; [|exact Hm].
  apply Z.div_le_lower_bound; [apply pow2_pos; lia|]. lia.
Qed.

(** ** Order *)

Lemma SFleb_trans x y z :
  SFleb x y = true → SFleb y z = true → SFleb x z = true.
Proof.
  unfold SFleb.
  destruct x as [[]|[]| |[] m1 e1], y as [[]|[]| |[] m2 e2], z as [[]|[]| |[] m3 e3];
    cbn; try done.
  all: rewrite !Pos.compare_cont_spec; cbn [Pos.switch_Eq].
  all: destruct (Z.compare_spec e1 e2), (Z.compare_spec e2 e3),
         (Z.compare_spec e1 e3); try done; try lia; subst.
  all: destruct (Pos.compare_spec m1 m2), (Pos.compare_spec m2 m3),
         (Pos.compare_spec m1 m3); cbn; try done; try lia.
Qed.

Lemma js_le_trans x y z : js_le x y = true → js_le y z = true → js_le x z = true.
Proof. unfold js_le. rewrite !FloatAxioms.leb_spec. apply SFleb_trans. Qed.

(** What is above zero is a positive finite number or [Infinity]. *)
Lemma js_gt_zero_inv x :
  js_gt x 0%float = true →
  Prim2SF x = S754_infinity false ∨ ∃ m e, Prim2SF x = S754_finite false m e.
Proof.
  unfold js_gt, js_lt. rewrite FloatAxioms.ltb_spec.
  change (Prim2SF 0%float) with (S754_zero false).
  destruct (Prim2SF x) as [[]|[]| |[] m e]; try done; eauto.
Qed.


(** Adding the tolerance to a positive number does not take it below. *)
Lemma js_le_add_epsilon y :
  js_gt y 0%float = true → js_le y (js_add y epsilon) = true.
Proof.
  intros Hy. unfold js_le, js_add. rewrite FloatAxioms.leb_spec, add_spec.
  pose proof (Prim2SF_valid y) as Vy.
  pose proof (Prim2SF_valid (y + epsilon)) as Vr. rewrite add_spec in Vr.
  rewrite Prim2SF_epsilon in *.
  destruct (js_gt_zero_inv y Hy) as [E|(m & e & E)]; rewrite E in *; [done|].
  destruct (SFadd_pos_pos m e 4611686018427388 (-62) Vy eq_refl)
    as [->|(m' & e' & E' & Hm)]; [done|].
  cbn zeta in E'. rewrite E' in *.
  apply valid_finite in Vy as (Ve & Vd & Vn), Vr as (Ve' & Vd' & Vn').
  unfold SFleb. cbn. rewrite Pos.compare_cont_spec. cbn [Pos.switch_Eq].
  destruct (Z.compare_spec e e') as [->|Hlt|Hgt]; [|done|].
  - specialize (Hm ltac:(lia)). rewrite Z.sub_diag in Hm.
    destruct (Pos.compare_spec m m'); try done. cbn in Hm. lia.
  - specialize (Hm ltac:(lia)). exfalso.
    pose proof (digits2_bounds m) as Bm. pose proof (digits2_bounds m') as Bm'.
    rewrite Vn in Bm by lia.
    assert (2 ^ 1 ≤ 2 ^ (e - e')) by (apply Z.pow_le_mono_r; lia).
    assert (2 ^ Z.pos (digits2_pos m') ≤ 2 ^ 53) by (apply Z.pow_le_mono_r; lia).
    change (2 ^ 1) with 2 in *. change (2 ^ (53 - 1)) with 4503599627370496 in *.
    change (2 ^ 53) with 9007199254740992 in *. nia.
Qed.

(** The check of line 614 on a positive balance: an amount that is at most
    the balance is not above the balance plus the tolerance. *)
Lemma js_le_not_gt_epsilon x y :
  js_gt y 0%float = true → js_le x y = true →
  js_gt x (js_add y epsilon) = false.
Proof.
  intros Hy Hle. pose proof (js_le_trans _ _ _ Hle (js_le_add_epsilon y Hy)) as H.
  destruct (js_gt x (js_add y epsilon)) eqn:G; [|done].
  apply js_gt_not_le in G. congruence.
Qed.


(** ** The layaway state machine: delivery and cancellation *)

Section Acciones.

Variable pf : jsval → num.
Variable pi : jsval → option Z.
Variable today : string.

Lemma serve_entregar db id :
  serve pf pi today (PUT_entregar id) db =
  match apartados db !! id with
  | Some a =>
      if bool_decide (ap_estadoApartado a = Pagado) then
        let db' :=
          with_apartados (<[id := set_entregado today a]> (apartados db)) db in
        Some (db', [Write 1; Respond (mkResponse 200 (MarkedDelivered id today)) db'])
      else
        Some (db, [Write 0;
                   Respond (mkResponse 400 (NotInPagado (ap_estadoApartado a))) db])
  | None => Some (db, [Write 0; Respond (mkResponse 404 NotFoundOrNotPagado) db])
  end.
Proof.
  unfold serve, serve_with, run_prog, enough_fuel. cbn. unfold update_apartado.
  destruct (apartados db !! id) as [a|] eqn:E; cbn.
  - case_bool_decide; cbn; [reflexivity|].
    rewrite E. cbn. case_bool_decide; [reflexivity|tauto].
  - rewrite E. reflexivity.
Qed.

Lemma serve_cancelar db id :
  serve pf pi today (PUT_cancelar id) db =
  match apartados db !! id with
  | Some a =>
      if bool_decide (ap_estadoApartado a = Apartado ∨ ap_estadoApartado a = Pagado)
      then
        let db' :=
          with_apartados (<[id := set_estadoApartado Cancelado a]> (apartados db)) db in
        Some (db', [Write 1; Respond (mkResponse 200 (MarkedCancelled id)) db'])
      else Some (db, [Write 0; Respond (mkResponse 400 NotCancellable) db])
  | None => Some (db, [Write 0; Respond (mkResponse 400 NotCancellable) db])
  end.
Proof.
  unfold serve, serve_with, run_prog, enough_fuel. cbn. unfold update_apartado.
  destruct (apartados db !! id) as [a|] eqn:E; cbn; [|reflexivity].
  case_bool_decide; reflexivity.
Qed.

(** C7. The delivery action answers 200 exactly when the layaway exists and
    is 'Pagado'; it then becomes 'Entregado' with [fechaEntrega] set to the
    current date, the other layaways being untouched.  From any other state
    the answer is the 400 that reports the current state
    (InvalidStateTransition), and for an unknown id a 404; in both cases the
    database is left as it was. *)
Theorem C7_entregar_solo_desde_pagado db id :
  ∃ db' n r,
    serve pf pi today (PUT_entregar id) db = Some (db', [Write n; Respond r db']) ∧
    (status r = 200%nat ↔
       ∃ a, apartados db !! id = Some a ∧ ap_estadoApartado a = Pagado) ∧
    (∀ a, apartados db !! id = Some a → ap_estadoApartado a = Pagado →
       r = mkResponse 200 (MarkedDelivered id today) ∧
       db' = with_apartados (<[id := set_entregado today a]> (apartados db)) db ∧
       (ap_estadoApartado <$> apartados db' !! id) = Some Entregado ∧
       (ap_fechaEntrega <$> apartados db' !! id) = Some (Some today)) ∧
    (∀ a, apartados db !! id = Some a → ap_estadoApartado a ≠ Pagado →
       r = mkResponse 400 (NotInPagado (ap_estadoApartado a)) ∧
       failure_of r = Some InvalidStateTransition ∧ db' = db) ∧
    (apartados db !! id = None → failure_of r = Some NotFound ∧ db' = db).
Proof.
  rewrite serve_entregar.
  destruct (apartados db !! id) as [a|] eqn:E.
  - case_bool_decide as Hp.
    + eexists _, _, _. split; [reflexivity|]. cbn.
      split; [split; [eauto|done]|].
      split; [|split; [intros a' [= <-] Hn; done | done]].
      intros a' [= <-] _. rewrite lookup_insert_eq. done.
    + eexists _, _, _. split; [reflexivity|]. cbn.
      split; [split; [done|intros (a' & [= <-] & ?); done]|].
      split; [intros a' [= <-] ?; done|].
      split; [intros a' [= <-] _; done | done].
  - eexists _, _, _. split; [reflexivity|]. cbn.
    split; [split; [done|intros (a' & ? & ?); done]|].
    repeat split; done.
Qed.

(** C8. The cancellation action answers 200 exactly when the layaway exists
    and is 'Apartado' or 'Pagado'; it then becomes 'Cancelado'.  On a layaway
    that is 'Entregado' or already 'Cancelado' the answer is the 400 of a
    refused transition and the database is left as it was. *)
Theorem C8_cancelar_desde_apartado_o_pagado db id :
  ∃ db' n r,
    serve pf pi today (PUT_cancelar id) db = Some (db', [Write n; Respond r db']) ∧
    (status r = 200%nat ↔
       ∃ a, apartados db !! id = Some a ∧
            (ap_estadoApartado a = Apartado ∨ ap_estadoApartado a = Pagado)) ∧
    (∀ a, apartados db !! id = Some a →
       ap_estadoApartado a = Apartado ∨ ap_estadoApartado a = Pagado →
       r = mkResponse 200 (MarkedCancelled id) ∧
       db' = with_apartados
               (<[id := set_estadoApartado Cancelado a]> (apartados db)) db ∧
       (ap_estadoApartado <$> apartados db' !! id) = Some Cancelado) ∧
    (∀ a, apartados db !! id = Some a →
       ap_estadoApartado a = Entregado ∨ ap_estadoApartado a = Cancelado →
       r = mkResponse 400 NotCancellable ∧
       failure_of r = Some InvalidStateTransition ∧ db' = db).
Proof.
  rewrite serve_cancelar.
  destruct (apartados db !! id) as [a|] eqn:E.
  - case_bool_decide as Hp.
    + eexists _, _, _. split; [reflexivity|]. cbn.
      split; [split; [eauto|done]|].
      split.
      * intros a' [= <-] _. rewrite lookup_insert_eq. done.
      * intros a' [= <-] [H|H]; rewrite H in Hp; by destruct Hp.
    + eexists _, _, _. split; [reflexivity|]. cbn.
      split; [split; [done|intros (a' & [= <-] & ?); done]|].
      split; [intros a' [= <-] ?; done|].
      intros a' [= <-] _; done.
  - eexists _, _, _. split; [reflexivity|]. cbn.
    split; [split; [done|intros (a' & ? & ?); done]|].
    split; intros; done.
Qed.

End Acciones.

(** ** Payment admission *)

Lemma event_loop_nil fuel db out : event_loop fuel db out [] = Some (db, out).
Proof. by destruct fuel. Qed.

Lemma abonos_constraints_ok refType refId z m fecha :
  refId = Some z → isNaN m = false → truthy fecha = true →
  abonos_constraints
    (match refType with RefVenta => refId | RefApartado => None end)
    (match refType with RefApartado => refId | RefVenta => None end) m fecha
  = true.
Proof.
  intros -> Hm Hf. unfold abonos_constraints. rewrite Hm.
  assert (binds_null fecha = false) as ->.
  { destruct fecha as [| | |x| |]; try done.
    cbn in Hf |- *. unfold isNaN. by destruct (is_nan x). }
  destruct refType; done.
Qed.

Lemma ref_lookup_Some db refType refId info :
  ref_lookup db refType refId = Some info → ∃ z, refId = Some z.
Proof. destruct refType, refId; cbn; eauto; done. Qed.

Lemma responses_written {R} (q : sql R) res : responses (written q res) = [].
Proof. destruct q; try done; by destruct res. Qed.

Ltac una_respuesta :=
  eexists _, _, _; split; [reflexivity|split; [reflexivity|by cbn]].

Section Pagos.

Variable pf : jsval → num.
Variable pi : jsval → option Z.
Variable today : string.

(** What the handler does with a body that passes the validation. *)
Lemma serve_post_validado b db :
  passes_validation pf b = true →
  serve pf pi today (POST_abonos b) db =
  let '(refType, refId) := referenced pi b in
  let montoAbono := parseFloat pf (b_monto b) in
  match ref_lookup db refType refId with
  | None => Some (db, [Respond (mkResponse 404 (RefNotFound refType refId)) db])
  | Some refInfo =>
      if js_gt montoAbono (js_add (saldo refInfo) epsilon)
      then Some (db, [Respond (mkResponse 400
                        (ExceedsBalance montoAbono (toFixed2 (saldo refInfo))
                           refType refId)) db])
      else
        let db1 :=
          con_abono db refType refId montoAbono (b_fecha b) (b_comentarios b) in
        match esPagada <$> ref_lookup db1 refType refId with
        | Some true =>
            let '(res, db2) := exec (marcar_pagado refType refId) db1 in
            Some (db2, [Write 1; Respond (created pf b refType refId db) db1]
                         ++ written (marcar_pagado refType refId) res)
        | _ => Some (db1, [Write 1; Respond (created pf b refType refId db) db1])
        end
  end.
Proof.
  unfold passes_validation. intros H.
  repeat (apply andb_prop in H as [H ?]).
  repeat match goal with H : negb _ = true |- _ => apply negb_true_iff in H end.
  unfold serve, serve_with, run_prog, enough_fuel, handler, post_api_abonos,
    referenced.
  destruct (truthy (b_ventaId b)) eqn:Hv, (truthy (b_apartadoId b)) eqn:Ha;
    try discriminate H; cbn [negb andb orb].
  all: repeat match goal with H : _ = _ |- _ => rewrite H end; cbn [negb andb orb].
  - destruct (parseInt pi (b_ventaId b)) as [z|] eqn:Hz; cbn; [|reflexivity].
    destruct (ref_venta db z) as [info|] eqn:E; cbn; [|reflexivity].
    unfold saldo. destruct (js_gt _ _) eqn:G; cbn; [reflexivity|].
    rewrite (abonos_constraints_ok RefVenta _ z) by done. cbn.
    unfold con_abono.
    match goal with |- context [esPagada <$> ?x] =>
      destruct (esPagada <$> x) as [[]|] eqn:P end; cbn; try reflexivity.
    destruct (update_venta _ _ _ _) eqn:U. cbn. apply event_loop_nil.
  - destruct (parseInt pi (b_apartadoId b)) as [z|] eqn:Hz; cbn; [|reflexivity].
    destruct (ref_apartado db z) as [info|] eqn:E; cbn; [|reflexivity].
    unfold saldo. destruct (js_gt _ _) eqn:G; cbn; [reflexivity|].
    rewrite (abonos_constraints_ok RefApartado _ z) by done. cbn.
    unfold con_abono.
    match goal with |- context [esPagada <$> ?x] =>
      destruct (esPagada <$> x) as [[]|] eqn:P end; cbn; try reflexivity.
    destruct (update_apartado _ _ _ _) eqn:U. cbn. apply event_loop_nil.
Qed.

(** What it does with one that does not. *)
Lemma serve_post_no_validado b db :
  passes_validation pf b = false →
  ∃ r, serve pf pi today (POST_abonos b) db = Some (db, [Respond r db]) ∧
       status r = 400%nat ∧ failure_of r = Some ValidationError.
Proof.
  unfold passes_validation, serve, serve_with, run_prog, enough_fuel, handler,
    post_api_abonos.
  intros H.
  destruct (truthy (b_ventaId b)), (truthy (b_apartadoId b)),
    (is_undefined (b_monto b)), (truthy (b_fecha b));
    cbn [negb andb orb xorb] in *;
    try (eexists; split; [reflexivity|split; reflexivity]).
  all: destruct (isNaN (parseFloat pf (b_monto b)));
    cbn [negb andb orb] in *;
    try (eexists; split; [reflexivity|split; reflexivity]).
  all: destruct (js_le (parseFloat pf (b_monto b)) 0%float);
    cbn [negb andb orb] in *;
    try (eexists; split; [reflexivity|split; reflexivity]); done.
Qed.

Lemma passes_validation_false b :
  passes_validation pf b = false ↔
  truthy (b_ventaId b) = truthy (b_apartadoId b) ∨
  is_undefined (b_monto b) = true ∨ truthy (b_fecha b) = false ∨
  isNaN (parseFloat pf (b_monto b)) = true ∨
  js_le (parseFloat pf (b_monto b)) 0%float = true.
Proof.
  unfold passes_validation.
  destruct (truthy (b_ventaId b)), (truthy (b_apartadoId b)),
    (is_undefined (b_monto b)), (truthy (b_fecha b)),
    (isNaN (parseFloat pf (b_monto b))),
    (js_le (parseFloat pf (b_monto b)) 0%float); cbn; intuition congruence.
Qed.

(** A request gets exactly one response, and a validated one is never
    answered with a validation error. *)
Lemma serve_post_validado_respuesta b db :
  passes_validation pf b = true →
  ∃ db' tr r, serve pf pi today (POST_abonos b) db = Some (db', tr) ∧
    responses tr = [r] ∧ failure_of r ≠ Some ValidationError.
Proof.
  intros H. rewrite serve_post_validado by done.
  destruct (referenced pi b) as [refType refId]. cbn zeta.
  destruct (ref_lookup db refType refId) as [info|]; [|una_respuesta].
  destruct (js_gt _ _); [una_respuesta|].
  destruct (esPagada <$> _) as [[]|]; try una_respuesta.
  destruct (exec _ _) as [res db2] eqn:E.
  eexists _, _, _. split; [reflexivity|]. split.
  - unfold responses. rewrite omap_app.
    fold (responses (written (marcar_pagado refType refId) res)).
    rewrite responses_written. reflexivity.
  - by cbn.
Qed.

(** C4, as amended.  The payment request is answered with the 400 of a
    validation error exactly when neither or both of [ventaId] and
    [apartadoId] are given, or [monto] is undefined, or [fecha] is missing,
    or the parsed amount is NaN or not above zero; the database is then left
    as it was.  An infinite amount is none of these cases. *)
Theorem C4_validation_error b db :
  ∃ db' tr r,
    serve pf pi today (POST_abonos b) db = Some (db', tr) ∧
    responses tr = [r] ∧
    (failure_of r = Some ValidationError ↔
       truthy (b_ventaId b) = truthy (b_apartadoId b) ∨
       is_undefined (b_monto b) = true ∨ truthy (b_fecha b) = false ∨
       isNaN (parseFloat pf (b_monto b)) = true ∨
       js_le (parseFloat pf (b_monto b)) 0%float = true) ∧
    (failure_of r = Some ValidationError →
       status r = 400%nat ∧ db' = db ∧ tr = [Respond r db]).
Proof.
  destruct (passes_validation pf b) eqn:V.
  - destruct (serve_post_validado_respuesta b db V) as (db' & tr & r & E & R & F).
    exists db', tr, r. split; [done|]. split; [done|]. split; [|done].
    split; [done|]. intros C. apply passes_validation_false in C. congruence.
  - destruct (serve_post_no_validado b db V) as (r & E & S & F).
    exists db, [Respond r db], r. split; [done|]. split; [done|].
    split; [|done]. split; [|done]. intros _. by apply passes_validation_false.
Qed.

Lemma IFNULL_SUM l : IFNULL (SUM l) 0%float = total_pagado l.
Proof.
  unfold total_pagado, suma, SUM, sqlite_real. destruct l as [|x l]; [reflexivity|].
  by destruct (isNaN _).
Qed.

(** The balance of line 612 is the total of the parent less what its
    payments add up to. *)
Lemma ref_lookup_saldo_de db refType id :
  saldo <$> ref_lookup db refType (Some id) = saldo_de db refType id.
Proof.
  unfold saldo_de, total_de, montos_de, pagos_de.
  destruct refType; cbn; [unfold ref_venta|unfold ref_apartado].
  - destruct (ventas db !! id) as [v|]; cbn; [|done].
    unfold saldo. cbn. by rewrite IFNULL_SUM.
  - destruct (apartados db !! id) as [a|]; cbn; [|done].
    unfold saldo. cbn. by rewrite IFNULL_SUM.
Qed.

(** C1, as amended.  For a validated request whose parent exists, the answer
    is the overpayment error exactly when the amount is above the sum, as
    binary64 computes it, of 0.001 and the balance before admission, the
    balance being the total of the parent less what its payments add up to;
    the error carries the amount and the balance to two decimals, and nothing
    is written; any other answer is the 201.  Against a balance of 100,
    payments of 100.001 and of 100.0005 are both admitted, and exactly the
    amounts above 100.001 are refused. *)
Theorem C1_overpayment b db refType id saldoPendiente :
  passes_validation pf b = true →
  referenced pi b = (refType, Some id) →
  saldo_de db refType id = Some saldoPendiente →
  let montoAbono := parseFloat pf (b_monto b) in
  ∃ db' tr r,
    serve pf pi today (POST_abonos b) db = Some (db', tr) ∧
    responses tr = [r] ∧
    (failure_of r = Some OverpaymentError ↔
       js_gt montoAbono (js_add saldoPendiente epsilon) = true) ∧
    (failure_of r = Some OverpaymentError →
       r = mkResponse 400
             (ExceedsBalance montoAbono (toFixed2 saldoPendiente) refType
                (Some id)) ∧
       db' = db) ∧
    (failure_of r ≠ Some OverpaymentError → status r = 201%nat) ∧
    (saldoPendiente = 100%float →
       (montoAbono = 100.001%float ∨ montoAbono = 100.0005%float →
          status r = 201%nat) ∧
       (failure_of r = Some OverpaymentError ↔
          js_gt montoAbono 100.001%float = true)).
Proof.
  intros V Href Hsaldo montoAbono.
  rewrite <- ref_lookup_saldo_de in Hsaldo.
  destruct (ref_lookup db refType (Some id)) as [refInfo|] eqn:Hlook; [|done].
  injection Hsaldo as Hsaldo.
  rewrite serve_post_validado by done. rewrite Href, Hlook. cbn zeta.
  fold montoAbono. rewrite Hsaldo.
  assert (saldoPendiente = 100%float →
          js_add saldoPendiente epsilon = 100.001%float) as Hcien.
  { intros ->. vm_compute. reflexivity. }
  destruct (js_gt montoAbono (js_add saldoPendiente epsilon)) eqn:G.
  - eexists _, _, _. split; [reflexivity|]. split; [reflexivity|]. cbn.
    split; [done|]. split; [done|]. split; [done|].
    intros HT. rewrite (Hcien HT) in G. split; [|done].
    intros [E|E]; rewrite E in G; vm_compute in G; discriminate G.
  - destruct (esPagada <$> _) as [[]|].
    + destruct (exec _ _) as [res db2].
      eexists _, _, _. split; [reflexivity|]. split.
      { unfold responses. rewrite omap_app.
        fold (responses (written (marcar_pagado refType (Some id)) res)).
        rewrite responses_written. reflexivity. }
      cbn. split; [done|]. split; [done|]. split; [done|].
      intros HT. rewrite (Hcien HT) in G. by rewrite G.
    + eexists _, _, _. split; [reflexivity|]. split; [reflexivity|]. cbn.
      split; [done|]. split; [done|]. split; [done|].
      intros HT. rewrite (Hcien HT) in G. by rewrite G.
    + eexists _, _, _. split; [reflexivity|]. split; [reflexivity|]. cbn.
      split; [done|]. split; [done|]. split; [done|].
      intros HT. rewrite (Hcien HT) in G. by rewrite G.
Qed.


(** C10.  Admission does not look at the state of the layaway: on one that is
    'Entregado' or 'Cancelado' and has a positive balance, a valid payment
    within that balance is answered with 201 and its row is inserted; the
    layaway stays as it is. *)
Theorem C10_admission_ignores_state b db id a :
  passes_validation pf b = true →
  referenced pi b = (RefApartado, Some id) →
  apartados db !! id = Some a →
  ap_estadoApartado a = Entregado ∨ ap_estadoApartado a = Cancelado →
  let saldoPendiente := js_sub (ap_montoTotal a) (totalAbonado_apartado db id) in
  js_gt saldoPendiente 0%float = true →
  js_le (parseFloat pf (b_monto b)) saldoPendiente = true →
  ∃ db' tr,
    serve pf pi today (POST_abonos b) db = Some (db', tr) ∧
    responses tr = [created pf b RefApartado (Some id) db] ∧
    abonos db' =
      abonos db ++
        [mkAbono (seq_abonos db + 1) None (Some id) (parseFloat pf (b_monto b))
           (b_fecha b) (or_null (b_comentarios b))] ∧
    apartados db' !! id = Some a.
Proof.
  intros V Href Ha He saldoPendiente Hpos Hle.
  rewrite serve_post_validado by done. rewrite Href. cbn.
  unfold ref_apartado at 1. rewrite Ha. cbn.
  unfold saldo. cbn [montoTotal totalAbonadoActual]. rewrite IFNULL_SUM.
  change (js_sub _ _) with saldoPendiente.
  rewrite (js_le_not_gt_epsilon _ _ Hpos Hle).
  destruct (esPagada <$> _) as [[]|]; try (by eexists _, _).
  unfold update_apartado. cbn. rewrite Ha.
  rewrite bool_decide_eq_false_2 by (destruct He as [-> | ->]; done).
  by eexists _, _.
Qed.

End Pagos.

(** *** The boundary of the overpayment check on examples *)

(** Against the sale of 100 without payments, whose balance is 100, a
    payment of 100.001 is not refused: the answer is 201 and the row is
    inserted. *)
Lemma C1_counterexample :
  saldo_de db_ejemplo RefVenta 1 = Some 100%float ∧
  ∃ db' tr,
    serve parseFloat_other_NaN parseInt_other_NaN "2024-03-01"
      (POST_abonos (pago_venta 1 100.001)) db_ejemplo = Some (db', tr) ∧
    status <$> responses tr = [201%nat] ∧
    failure_of <$> responses tr = [None] ∧
    ab_monto <$> abonos db' = [100.001%float].
Proof.
  split; [reflexivity|].
  eexists _, _. split; [vm_compute; reflexivity|]. by vm_compute.
Qed.

Lemma C1_overpayment_witness :
  passes_validation parseFloat_other_NaN (pago_venta 1 100.001) = true ∧
  ∃ db' tr r,
    serve parseFloat_other_NaN parseInt_other_NaN "2024-03-01"
      (POST_abonos (pago_venta 1 100.001)) db_ejemplo = Some (db', tr) ∧
    responses tr = [r] ∧ status r = 201%nat.
Proof.
  split; [reflexivity|].
  destruct (C1_overpayment parseFloat_other_NaN parseInt_other_NaN "2024-03-01"
              (pago_venta 1 100.001) db_ejemplo RefVenta 1 100%float)
    as (db' & tr & r & E & R & _ & _ & _ & H); try reflexivity.
  exists db', tr, r. split; [exact E|]. split; [exact R|].
  apply H; [reflexivity|]. left. reflexivity.
Defined.

(** A sale of 1100.10 of which 1000.10 is paid: the balance prints as
    100.00, and a payment of 100.001 is refused, the difference and the sum
    of line 612 to 614 having rounded below it.  So is one of 0.101 on a
    sale of 0.30 of which 0.20 is paid. *)
Lemma pago_contra_saldo_redondeado :
  (toFixed2 <$> saldo_de db_redondeo RefVenta 1) = Some (Fixed false 10000) ∧
  (∃ b,
     serve parseFloat_other_NaN parseInt_other_NaN "2024-03-01"
       (POST_abonos (pago_venta 1 100.001)) db_redondeo
       = Some (db_redondeo, [Respond (mkResponse 400 b) db_redondeo]) ∧
     b = ExceedsBalance 100.001 (Fixed false 10000) RefVenta (Some 1)) ∧
  (toFixed2 <$> saldo_de db_redondeo RefVenta 2) = Some (Fixed false 10) ∧
  (∃ b,
     serve parseFloat_other_NaN parseInt_other_NaN "2024-03-01"
       (POST_abonos (pago_venta 2 0.101)) db_redondeo
       = Some (db_redondeo, [Respond (mkResponse 400 b) db_redondeo]) ∧
     b = ExceedsBalance 0.101 (Fixed false 10) RefVenta (Some 2)).
Proof.
  split; [vm_compute; reflexivity|]. split.
  { eexists. split; vm_compute; reflexivity. }
  split; [vm_compute; reflexivity|].
  eexists. split; vm_compute; reflexivity.
Qed.

(** [toFixed(2)] prints the number that is stored, not the decimal it was
    written as: 1.005 is stored a little below and prints as 1.00; 1.125 is
    stored exactly and prints as 1.13; [-0.001] prints as [-0.00]. *)
Lemma toFixed2_ejemplos :
  toFixed2 1.005 = Fixed false 100 ∧
  toFixed2 1.125 = Fixed false 113 ∧
  toFixed2 100 = Fixed false 10000 ∧
  toFixed2 (-0.001) = Fixed true 0 ∧
  toFixed2 0.005 = Fixed false 1 ∧
  toFixed2 1e21 = NotFixed 1e21 ∧
  toFixed2 infinity = NotFixed infinity.
Proof. repeat split; vm_compute; reflexivity. Qed.



(** An amount of [Infinity] is not a validation error: against the sale of
    100.00 it is refused as an overpayment, and against a sale whose total is
    itself infinite it is admitted and inserted. *)
Lemma C4_counterexample :
  (∃ r,
     serve parseFloat_other_NaN parseInt_other_NaN "2024-03-01"
       (POST_abonos (pago_venta 1 infinity)) db_ejemplo
       = Some (db_ejemplo, [Respond r db_ejemplo]) ∧
     failure_of r = Some OverpaymentError) ∧
  (∃ db' tr,
     serve parseFloat_other_NaN parseInt_other_NaN "2024-03-01"
       (POST_abonos (pago_venta 1 infinity)) db_infinito = Some (db', tr) ∧
     status <$> responses tr = [201%nat] ∧
     ab_monto <$> abonos db' = [infinity]).
Proof.
  split.
  - eexists. split; [vm_compute; reflexivity|]. reflexivity.
  - eexists _, _. split; [vm_compute; reflexivity|]. by vm_compute.
Qed.

Lemma C10_admission_ignores_state_witness :
  passes_validation parseFloat_other_NaN (pago_apartado 2 10) = true ∧
  ap_estadoApartado <$> apartados db_ejemplo !! 2 = Some Cancelado ∧
  ∃ db' tr,
    serve parseFloat_other_NaN parseInt_other_NaN "2024-03-01"
      (POST_abonos (pago_apartado 2 10)) db_ejemplo = Some (db', tr) ∧
    status <$> responses tr = [201%nat] ∧
    ab_monto <$> abonos db' = [10%float] ∧
    ap_estadoApartado <$> apartados db' !! 2 = Some Cancelado.
Proof.
  split; [reflexivity|]. split; [reflexivity|].
  destruct (C10_admission_ignores_state parseFloat_other_NaN parseInt_other_NaN
              "2024-03-01" (pago_apartado 2 10) db_ejemplo 2
              (mkApartado (ClienteId 1) "Mesa" 30 "2024-02-02" Cancelado None))
    as (db' & tr & E & R & A & L); try reflexivity.
  { right. reflexivity. }
  exists db', tr. split; [exact E|]. rewrite R, A, L. repeat split.
Defined.

(** ** The listings and their reconciliation *)

Lemma event_loop_run_tasks ts : ∀ fuel db out,
  Forall (λ t, ∀ res, t_cb t res = Halt) ts →
  (length ts ≤ fuel)%nat →
  event_loop fuel db out ts = Some (run_tasks db out ts).
Proof.
  induction ts as [|t ts IH]; intros fuel db out Hcb Hlen.
  - apply event_loop_nil.
  - destruct fuel as [|fuel]; [cbn in Hlen; lia|].
    inversion Hcb as [|? ? Ht Hts]; subst. cbn.
    destruct (exec (t_sql t) db) as [res db']. rewrite Ht. cbn.
    apply IH; [done|cbn in Hlen; lia].
Qed.

Lemma run_sync_forEach_ventas l k db out queue :
  run_sync (forEach l update_status_venta k) db out queue =
  run_sync k db out (queue ++ (tarea_venta <$> l)).
Proof.
  revert queue. induction l as [|v l IH]; intros queue; cbn.
  - by rewrite app_nil_r.
  - unfold update_status_venta at 1. unfold forEach in IH.
    destruct (decide (vr_estado v = Pagada)) as [E|E]; cbn; rewrite IH, <- app_assoc; cbn.
    + unfold tarea_venta at 2. by rewrite E.
    + unfold tarea_venta at 2. destruct (vr_estado v); done.
Qed.

Lemma run_sync_forEach_apartados rows l k db out queue :
  run_sync (forEach l (update_status_apartado rows) k) db out queue =
  run_sync k db out (queue ++ tareas_apartados rows l).
Proof.
  revert queue. induction l as [|ap l IH]; intros queue; cbn.
  - by rewrite app_nil_r.
  - unfold update_status_apartado at 1. unfold forEach in IH.
    unfold tareas_apartados. cbn.
    destruct (pasa_a_pagado rows ap); cbn.
    + rewrite IH, <- app_assoc. done.
    + apply IH.
Qed.

Lemma tareas_sin_callback_ventas l :
  Forall (λ t, ∀ res, t_cb t res = Halt) (tarea_venta <$> l).
Proof. apply Forall_fmap, Forall_true. done. Qed.

Lemma tareas_sin_callback_apartados l :
  Forall (λ t, ∀ res, t_cb t res = Halt) (tarea_apartado <$> l).
Proof. apply Forall_fmap, Forall_true. done. Qed.

Lemma length_omap_le {A B} (f : A → option B) l : (length (omap f l) ≤ length l)%nat.
Proof. induction l as [|x l IH]; cbn; [done|]. destruct (f x); cbn; lia. Qed.

Lemma length_select_ventas db : (length (select_ventas db) ≤ size (ventas db))%nat.
Proof.
  unfold select_ventas. rewrite merge_sort_Permutation.
  etrans; [apply length_omap_le|]. by rewrite length_map_to_list.
Qed.

Lemma length_select_apartados db : (length (select_apartados db) ≤ size (apartados db))%nat.
Proof.
  unfold select_apartados. rewrite merge_sort_Permutation.
  etrans; [apply length_omap_le|]. by rewrite length_map_to_list.
Qed.

Lemma event_loop_step fuel db out t queue :
  event_loop (S fuel) db out (t :: queue) =
  let '(res, db') := exec (t_sql t) db in
  let '(out', queue') :=
    run_sync (t_cb t res) db' (out ++ written (t_sql t) res) queue in
  event_loop fuel db' out' queue'.
Proof. reflexivity. Qed.

Lemma serve_get_ventas pf pi today db :
  serve pf pi today GET_ventas db =
  let act := venta_actualizada <$> select_ventas db in
  Some (run_tasks db [Respond (mkResponse 200 (SalesList act)) db] (tarea_venta <$> act)).
Proof.
  unfold serve, serve_with, run_prog, enough_fuel.
  cbn [handler get_api_ventas run_sync app].
  change (4 + ?n)%nat with (S (3 + n)). rewrite event_loop_step.
  cbn [t_sql t_cb exec written app].
  rewrite run_sync_forEach_ventas. cbn [run_sync app].
  apply event_loop_run_tasks; [apply tareas_sin_callback_ventas|].
  rewrite !length_fmap. pose proof (length_select_ventas db). lia.
Qed.

Lemma length_filter_le {A} (f : A → bool) l : (length (List.filter f l) ≤ length l)%nat.
Proof. induction l as [|x l IH]; cbn; [done|]. destruct (f x); cbn; lia. Qed.

Lemma serve_get_apartados pf pi today db :
  serve pf pi today GET_apartados db =
  let rows := select_apartados db in
  let act := apartado_actualizado <$> rows in
  Some (run_tasks db [Respond (mkResponse 200 (LayawayList act)) db] (tareas_apartados rows act)).
Proof.
  unfold serve, serve_with, run_prog, enough_fuel.
  cbn [handler get_api_apartados run_sync app].
  change (4 + ?n)%nat with (S (3 + n)). rewrite event_loop_step.
  cbn [t_sql t_cb exec written app].
  rewrite run_sync_forEach_apartados. cbn [run_sync app].
  apply event_loop_run_tasks; [apply tareas_sin_callback_apartados|].
  unfold tareas_apartados. rewrite length_fmap.
  etrans; [apply length_filter_le|]. rewrite length_fmap.
  pose proof (length_select_apartados db). lia.
Qed.

Lemma with_ventas_id db : with_ventas (ventas db) db = db.
Proof. by destruct db. Qed.

Lemma with_apartados_id db : with_apartados (apartados db) db = db.
Proof. by destruct db. Qed.

Lemma set_estado_id v : set_estado (v_estado v) v = v.
Proof. by destruct v. Qed.

Lemma set_estadoApartado_id a : set_estadoApartado (ap_estadoApartado a) a = a.
Proof. by destruct a. Qed.

Lemma pagar_pagar a : pagar (pagar a) = pagar a.
Proof.
  unfold pagar. destruct (decide (ap_estadoApartado a = Apartado)) as [H|H].
  - rewrite (bool_decide_eq_true_2 _ H). cbn. done.
  - rewrite (bool_decide_eq_false_2 _ H). by rewrite (bool_decide_eq_false_2 _ H).
Qed.

Lemma exec_update_venta_estado e i db :
  ∃ n, exec (UpdateVentaEstado e i e) db =
       (DbOk (mkRun (seq_abonos db) n),
        with_ventas (alter (set_estado e) i (ventas db)) db) ∧
       (n = 0%nat ↔ ∀ v, ventas db !! i = Some v → v_estado v = e).
Proof.
  cbn. unfold update_venta.
  destruct (ventas db !! i) as [v|] eqn:E.
  - case_bool_decide as H.
    + exists 1%nat. split.
      * do 2 f_equal. apply map_eq. intros j. rewrite lookup_alter.
        case_decide; simplify_map_eq; done.
      * split; [done|]. intros Hv. by specialize (Hv _ eq_refl).
    + exists 0%nat. split.
      * f_equal. rewrite <- (with_ventas_id db) at 1. f_equal.
        apply map_eq. intros j. rewrite lookup_alter.
        case_decide; simplify_map_eq; [|done]. by rewrite set_estado_id.
      * split; [|done]. by intros _ ? [= <-].
  - exists 0%nat. split.
    + f_equal. rewrite <- (with_ventas_id db) at 1. f_equal.
      apply map_eq. intros j. rewrite lookup_alter.
      case_decide; simplify_map_eq; done.
    + split; [|done]. by intros _ ? [=].
Qed.

Lemma exec_update_apartado_pagado i db :
  ∃ n, exec (UpdateApartadoPagado (Some i)) db =
       (DbOk (mkRun (seq_abonos db) n),
        with_apartados (alter pagar i (apartados db)) db) ∧
       (n = 0%nat ↔ ∀ a, apartados db !! i = Some a → ap_estadoApartado a ≠ Apartado).
Proof.
  cbn. unfold update_apartado.
  destruct (apartados db !! i) as [a|] eqn:E.
  - case_bool_decide as H.
    + exists 1%nat. split.
      * do 2 f_equal. apply map_eq. intros j. rewrite lookup_alter.
        case_decide; simplify_map_eq; [|done]. unfold pagar.
        by rewrite bool_decide_eq_true_2.
      * split; [done|]. intros Hv. by specialize (Hv _ eq_refl).
    + exists 0%nat. split.
      * f_equal. rewrite <- (with_apartados_id db) at 1. f_equal.
        apply map_eq. intros j. rewrite lookup_alter.
        case_decide; simplify_map_eq; [|done]. unfold pagar.
        by rewrite bool_decide_eq_false_2.
      * split; [|done]. by intros _ ? [= <-].
  - exists 0%nat. split.
    + f_equal. rewrite <- (with_apartados_id db) at 1. f_equal.
      apply map_eq. intros j. rewrite lookup_alter.
      case_decide; simplify_map_eq; done.
    + split; [|done]. by intros _ ? [=].
Qed.

Lemma run_tasks_cons db out t ts :
  run_tasks db out (t :: ts) =
  let '(res, db') := exec (t_sql t) db in
  run_tasks db' (out ++ written (t_sql t) res) ts.
Proof. reflexivity. Qed.

Lemma run_tasks_ventas l : ∀ db out,
  (∀ r1 r2, r1 ∈ l → r2 ∈ l → vr_id r1 = vr_id r2 → vr_estado r1 = vr_estado r2) →
  ∃ t ws,
    run_tasks db out (tarea_venta <$> l) = (with_ventas t db, out ++ (Write <$> ws)) ∧
    ∀ id, t !! id =
      match List.find (λ r, vr_id r =? id) l with
      | Some r => set_estado (vr_estado r) <$> ventas db !! id
      | None => ventas db !! id
      end.
Proof.
  induction l as [|r l IH]; intros db out Hc.
  - exists (ventas db), []. cbn. by rewrite with_ventas_id, app_nil_r.
  - rewrite fmap_cons, run_tasks_cons. cbn [t_sql t_R tarea_venta].
    destruct (exec_update_venta_estado (vr_estado r) (vr_id r) db) as (n & -> & _).
    cbn [written changes].
    edestruct (IH (with_ventas (alter (set_estado (vr_estado r)) (vr_id r) (ventas db)) db)
                  (out ++ [Write n])) as (t & ws & -> & Ht).
    { intros r1 r2 H1 H2. apply Hc; by right. }
    exists t, (n :: ws). split.
    { cbn. by rewrite <- app_assoc. }
    intros id. rewrite Ht. cbn [List.find ventas with_ventas].
    rewrite lookup_alter.
    destruct (vr_id r =? id) eqn:Eid.
    + apply Z.eqb_eq in Eid. subst id. rewrite decide_True by done.
      destruct (List.find _ l) as [r'|] eqn:F; [|done].
      apply find_some in F as [Hin Hid%Z.eqb_eq].
      rewrite (Hc r' r); [| right; by apply list_elem_of_In | by left | done].
      destruct (ventas db !! vr_id r); done.
    + apply Z.eqb_neq in Eid. rewrite decide_False by done. done.
Qed.

Lemma run_tasks_apartados l : ∀ db out,
  ∃ t ws,
    run_tasks db out (tarea_apartado <$> l) =
      (with_apartados t db, out ++ (Write <$> ws)) ∧
    ∀ id, t !! id =
      if bool_decide (id ∈ ar_id <$> l) then pagar <$> apartados db !! id
      else apartados db !! id.
Proof.
  induction l as [|r l IH]; intros db out.
  - exists (apartados db), []. cbn. by rewrite with_apartados_id, app_nil_r.
  - rewrite fmap_cons, run_tasks_cons. cbn [t_sql t_R tarea_apartado].
    destruct (exec_update_apartado_pagado (ar_id r) db) as (n & -> & _).
    cbn [written changes].
    edestruct (IH (with_apartados (alter pagar (ar_id r) (apartados db)) db)
                  (out ++ [Write n])) as (t & ws & -> & Ht).
    exists t, (n :: ws). split.
    { cbn. by rewrite <- app_assoc. }
    intros id. rewrite Ht. cbn [apartados with_apartados].
    rewrite lookup_alter, fmap_cons.
    destruct (decide (ar_id r = id)) as [->|Hne].
    + rewrite (bool_decide_eq_true_2 (id ∈ id :: _)) by set_solver.
      case_bool_decide; [|done].
      destruct (apartados db !! id); cbn; [|done]. by rewrite pagar_pagar.
    + case_bool_decide as H1; case_bool_decide as H2; try done.
      * destruct H2. by right.
      * apply elem_of_cons in H2 as [?|?]; done.
Qed.

(** *** Rows of the listings *)

Lemma venta_row_of_Some db id v r :
  venta_row_of db (id, v) = Some r →
  vr_id r = id ∧ vr_estado r = v_estado v ∧
  vr_totalAbonado r = totalAbonado_venta db id ∧
  vr_saldoPendiente r = saldoPendiente_venta db id v ∧
  is_Some (join_cliente db (v_clienteId v)).
Proof.
  cbn. destruct (join_cliente db (v_clienteId v)); cbn; [|done].
  intros [= <-]. cbn. rewrite IFNULL_SUM. eauto 10.
Qed.

Lemma apartado_row_of_Some db id a r :
  apartado_row_of db (id, a) = Some r →
  ar_id r = id ∧ ar_estadoApartado r = ap_estadoApartado a ∧
  ar_totalAbonado r = totalAbonado_apartado db id ∧
  ar_saldoPendiente r = saldoPendiente_apartado db id a ∧
  is_Some (join_cliente db (ap_clienteId a)).
Proof.
  cbn. destruct (join_cliente db (ap_clienteId a)); cbn; [|done].
  intros [= <-]. cbn. rewrite IFNULL_SUM. eauto 10.
Qed.

Lemma elem_of_select_ventas db r :
  r ∈ select_ventas db ↔
  ∃ id v, ventas db !! id = Some v ∧ venta_row_of db (id, v) = Some r.
Proof.
  unfold select_ventas. rewrite merge_sort_Permutation, list_elem_of_omap.
  split.
  - intros ([id v] & Hin%elem_of_map_to_list & Hr). eauto.
  - intros (id & v & Hin & Hr). exists (id, v). by rewrite elem_of_map_to_list.
Qed.

Lemma elem_of_select_apartados db r :
  r ∈ select_apartados db ↔
  ∃ id a, apartados db !! id = Some a ∧ apartado_row_of db (id, a) = Some r.
Proof.
  unfold select_apartados. rewrite merge_sort_Permutation, list_elem_of_omap.
  split.
  - intros ([id a] & Hin%elem_of_map_to_list & Hr). eauto.
  - intros (id & a & Hin & Hr). exists (id, a). by rewrite elem_of_map_to_list.
Qed.

Lemma find_select_ventas db id :
  List.find (λ r, vr_id r =? id) (venta_actualizada <$> select_ventas db) =
  venta_actualizada <$> (ventas db !! id ≫= λ v, venta_row_of db (id, v)).
Proof.
  destruct (List.find _ _) as [x|] eqn:F.
  - apply find_some in F as [Hin Hid%Z.eqb_eq].
    apply list_elem_of_In, list_elem_of_fmap in Hin as (r & -> & Hr).
    apply elem_of_select_ventas in Hr as (id' & v & Hv & Hr).
    destruct (venta_row_of_Some _ _ _ _ Hr) as (Hid' & _).
    cbn in Hid. subst. rewrite Hv. cbn [mbind option_bind]. by rewrite Hr.
  - destruct (ventas db !! id) as [v|] eqn:Hv; [|done]. cbn [mbind option_bind].
    destruct (venta_row_of db (id, v)) as [r|] eqn:Hr; [|done].
    eapply find_none with (x := venta_actualizada r) in F.
    + destruct (venta_row_of_Some _ _ _ _ Hr) as (Hid' & _). cbn in F. lia.
    + apply list_elem_of_In, list_elem_of_fmap. exists r. split; [done|].
      apply elem_of_select_ventas. eauto.
Qed.

Lemma find_select_apartados db id :
  List.find (λ r, ar_id r =? id) (select_apartados db) =
  apartados db !! id ≫= λ a, apartado_row_of db (id, a).
Proof.
  destruct (List.find _ _) as [r|] eqn:F.
  - apply find_some in F as [Hin Hid%Z.eqb_eq].
    apply list_elem_of_In in Hin.
    apply elem_of_select_apartados in Hin as (id' & a & Ha & Hr).
    destruct (apartado_row_of_Some _ _ _ _ Hr) as (Hid' & _).
    subst. rewrite Ha. cbn [mbind option_bind]. by rewrite Hr.
  - destruct (apartados db !! id) as [a|] eqn:Ha; [|done]. cbn [mbind option_bind].
    destruct (apartado_row_of db (id, a)) as [r|] eqn:Hr; [|done].
    eapply find_none with (x := r) in F.
    + destruct (apartado_row_of_Some _ _ _ _ Hr) as (Hid' & _). lia.
    + apply list_elem_of_In. apply elem_of_select_apartados. eauto.
Qed.

Lemma serve_get_ventas_closed pf pi today db :
  ∃ ws,
    serve pf pi today GET_ventas db =
    Some (with_ventas (ventas_reconciliadas db) db,
          Respond (mkResponse 200 (SalesList (venta_actualizada <$> select_ventas db))) db
            :: (Write <$> ws)).
Proof.
  rewrite serve_get_ventas. cbn zeta.
  edestruct (run_tasks_ventas (venta_actualizada <$> select_ventas db) db)
    as (t & ws & -> & Ht).
  { intros r1 r2 (x1 & -> & H1)%list_elem_of_fmap (x2 & -> & H2)%list_elem_of_fmap.
    apply elem_of_select_ventas in H1 as (id1 & v1 & Hv1 & Hr1).
    apply elem_of_select_ventas in H2 as (id2 & v2 & Hv2 & Hr2).
    destruct (venta_row_of_Some _ _ _ _ Hr1) as (? & _).
    destruct (venta_row_of_Some _ _ _ _ Hr2) as (? & _).
    cbn. intros Hid. subst id1 id2. rewrite Hid, Hv2 in Hv1.
    injection Hv1 as <-. rewrite Hid, Hr2 in Hr1. by injection Hr1 as <-. }
  exists ws. do 3 f_equal. apply map_eq. intros id.
  rewrite Ht, find_select_ventas. unfold ventas_reconciliadas.
  rewrite map_lookup_imap.
  destruct (ventas db !! id) as [v|]; [|done]. cbn [mbind option_bind].
  destruct (venta_row_of db (id, v)); done.
Qed.

Lemma pasa_a_pagado_actualizado db id a r :
  apartados db !! id = Some a →
  apartado_row_of db (id, a) = Some r →
  pasa_a_pagado (select_apartados db) (apartado_actualizado r) =
  bool_decide (ap_estadoApartado a = Apartado)
  && js_le (ToNumber (saldoPendiente_apartado db id a)) epsilon.
Proof.
  intros Ha Hr. unfold pasa_a_pagado.
  destruct (apartado_row_of_Some _ _ _ _ Hr) as (Hid & He & _ & Hs & _).
  replace (ar_id (apartado_actualizado r)) with id by done.
  rewrite find_select_apartados, Ha. cbn [mbind option_bind]. rewrite Hr.
  cbn. rewrite He, Hs.
  destruct (ap_estadoApartado a), (js_le _ epsilon); done.
Qed.

Lemma apartado_actualizado_estado db id a r :
  apartado_row_of db (id, a) = Some r →
  set_estadoApartado (ar_estadoApartado (apartado_actualizado r)) a =
  if bool_decide (ap_estadoApartado a = Apartado)
     && js_le (ToNumber (saldoPendiente_apartado db id a)) epsilon
  then pagar a else a.
Proof.
  intros Hr.
  destruct (apartado_row_of_Some _ _ _ _ Hr) as (Hid & He & _ & Hs & _).
  cbn. rewrite He, Hs. unfold pagar.
  destruct (bool_decide (ap_estadoApartado a = Apartado)) eqn:E; cbn;
    [|by rewrite set_estadoApartado_id].
  destruct (js_le _ epsilon); [done|by rewrite set_estadoApartado_id].
Qed.

Lemma serve_get_apartados_closed pf pi today db :
  ∃ ws,
    serve pf pi today GET_apartados db =
    Some (with_apartados (apartados_reconciliados db) db,
          Respond (mkResponse 200
                     (LayawayList (apartado_actualizado <$> select_apartados db))) db
            :: (Write <$> ws)).
Proof.
  rewrite serve_get_apartados. cbn zeta. unfold tareas_apartados.
  edestruct (run_tasks_apartados
               (List.filter (pasa_a_pagado (select_apartados db))
                  (apartado_actualizado <$> select_apartados db)) db)
    as (t & ws & -> & Ht).
  exists ws. do 3 f_equal. apply map_eq. intros id.
  rewrite Ht. unfold apartados_reconciliados. rewrite map_lookup_imap.
  destruct (apartados db !! id) as [a|] eqn:Ha; [|by case_bool_decide].
  cbn [mbind option_bind fmap option_fmap option_map].
  destruct (apartado_row_of db (id, a)) as [r|] eqn:Hr.
  - rewrite (apartado_actualizado_estado _ _ _ _ Hr).
    rewrite <- (pasa_a_pagado_actualizado _ _ _ _ Ha Hr).
    destruct (pasa_a_pagado _ (apartado_actualizado r)) eqn:P.
    + rewrite bool_decide_eq_true_2; [done|].
      apply list_elem_of_fmap. exists (apartado_actualizado r).
      destruct (apartado_row_of_Some _ _ _ _ Hr) as (Hid & _).
      split; [done|]. apply list_elem_of_In, filter_In. split; [|done].
      apply list_elem_of_In, list_elem_of_fmap. exists r. split; [done|].
      apply elem_of_select_apartados. eauto.
    + rewrite bool_decide_eq_false_2; [done|].
      intros (x & Hx & Hin)%list_elem_of_fmap.
      apply list_elem_of_In, filter_In in Hin as [Hin Hp].
      apply list_elem_of_In, list_elem_of_fmap in Hin as (r' & -> & Hr').
      apply elem_of_select_apartados in Hr' as (id' & a' & Ha' & Hr').
      destruct (apartado_row_of_Some _ _ _ _ Hr') as (Hid' & _).
      cbn in Hx. simplify_eq; congruence.
  - rewrite bool_decide_eq_false_2; [done|].
    intros (x & Hx & Hin)%list_elem_of_fmap.
    apply list_elem_of_In, filter_In in Hin as [Hin Hp].
    apply list_elem_of_In, list_elem_of_fmap in Hin as (r' & -> & Hr').
    apply elem_of_select_apartados in Hr' as (id' & a' & Ha' & Hr').
    destruct (apartado_row_of_Some _ _ _ _ Hr') as (Hid' & _).
    cbn in Hx. simplify_eq; congruence.
Qed.

(** ** Sums of payments *)








(** ** Reconciliation on the listings *)

Section Listados.

Variable pf : jsval → num.
Variable pi : jsval → option Z.
Variable today : string.


End Listados.


(** ** What the write paths leave untouched *)

Lemma exec_marcar_pagado refType z db :
  (exec (marcar_pagado refType (Some z)) db).2 =
  match refType with
  | RefVenta => with_ventas (alter (set_estado Pagada) z (ventas db)) db
  | RefApartado => with_apartados (alter pagar z (apartados db)) db
  end.
Proof.
  destruct refType.
  - cbn. unfold update_venta.
    destruct (ventas db !! z) as [v|] eqn:E; cbn.
    + f_equal. apply map_eq. intros j. rewrite lookup_alter.
      case_decide; simplify_map_eq; done.
    + rewrite <- (with_ventas_id db) at 1. f_equal.
      apply map_eq. intros j. rewrite lookup_alter.
      case_decide; simplify_map_eq; done.
  - cbn [marcar_pagado].
    by destruct (exec_update_apartado_pagado z db) as (n & -> & _).
Qed.

Lemma solo_apartado_a_pagado_pagar a :
  solo_apartado_a_pagado a (pagar a) ∧
  (ap_estadoApartado a ≠ Apartado → pagar a = a).
Proof.
  unfold pagar, solo_apartado_a_pagado. case_bool_decide; split; eauto; done.
Qed.

Lemma lookup_alter_pagar (t : gmap Z apartado) z id a :
  t !! id = Some a →
  ∃ a', alter pagar z t !! id = Some a' ∧ solo_apartado_a_pagado a a' ∧
        (ap_estadoApartado a ≠ Apartado → a' = a).
Proof.
  intros Ha. rewrite lookup_alter. case_decide; subst; rewrite Ha; cbn.
  - exists (pagar a). split; [done|]. apply solo_apartado_a_pagado_pagar.
  - exists a. split; [done|]. split; [by left|done].
Qed.

Lemma mismos_montos_with_ventas db (f : Z → venta → venta) :
  (∀ id v, v_monto (f id v) = v_monto v) →
  mismos_montos db (with_ventas (map_imap (λ id v, Some (f id v)) (ventas db)) db).
Proof.
  intros Hf. split; [done|]. split; [|eauto]. intros id v'. cbn.
  rewrite map_lookup_imap. destruct (ventas db !! id) as [v|]; cbn; [|done].
  intros [= <-]. eauto.
Qed.

Lemma mismos_montos_with_apartados db (f : Z → apartado → apartado) :
  (∀ id a, ap_montoTotal (f id a) = ap_montoTotal a) →
  mismos_montos db
    (with_apartados (map_imap (λ id a, Some (f id a)) (apartados db)) db).
Proof.
  intros Hf. split; [done|]. split; [eauto|]. intros id a'. cbn.
  rewrite map_lookup_imap. destruct (apartados db !! id) as [a|]; cbn; [|done].
  intros [= <-]. eauto.
Qed.

Lemma mismos_montos_alter_ventas db (f : venta → venta) z :
  (∀ v, v_monto (f v) = v_monto v) →
  mismos_montos db (with_ventas (alter f z (ventas db)) db).
Proof.
  intros Hf. split; [done|]. split; [|eauto]. intros id v'. cbn.
  rewrite lookup_alter. case_decide; subst; [|eauto].
  destruct (ventas db !! id) as [v|]; cbn; [|done]. intros [= <-]. eauto.
Qed.

Lemma mismos_montos_alter_apartados db (f : apartado → apartado) z :
  (∀ a, ap_montoTotal (f a) = ap_montoTotal a) →
  mismos_montos db (with_apartados (alter f z (apartados db)) db).
Proof.
  intros Hf. split; [done|]. split; [eauto|]. intros id a'. cbn.
  rewrite lookup_alter. case_decide; subst; [|eauto].
  destruct (apartados db !! id) as [a|]; cbn; [|done]. intros [= <-]. eauto.
Qed.

Lemma mismos_montos_insert_apartado db z a a1 :
  apartados db !! z = Some a → ap_montoTotal a1 = ap_montoTotal a →
  mismos_montos db (with_apartados (<[z := a1]> (apartados db)) db).
Proof.
  intros Ha Hm. split; [done|]. split; [eauto|]. intros id a'. cbn.
  rewrite lookup_insert. case_decide; subst; [|eauto]. intros [= <-]. eauto.
Qed.

Lemma pagar_montoTotal a : ap_montoTotal (pagar a) = ap_montoTotal a.
Proof. unfold pagar. by case_bool_decide. Qed.

Lemma mismos_montos_marcar_pagado refType z db :
  mismos_montos db (exec (marcar_pagado refType (Some z)) db).2.
Proof.
  rewrite exec_marcar_pagado. destruct refType.
  - by apply mismos_montos_alter_ventas.
  - apply mismos_montos_alter_apartados, pagar_montoTotal.
Qed.
Lemma pagos_admitidos_mismos_montos db db' :
  mismos_montos db db' → pagos_admitidos db → pagos_admitidos db'.
Proof.
  intros (Hab & Hv & Ha) P l1 a l2 Hl. rewrite Hab in Hl.
  destruct (P l1 a l2 Hl) as [Pv Pa]. split.
  - intros id v' Hid (v & Hlk & Hm)%Hv. rewrite Hm. by eapply Pv.
  - intros id a' Hid (p & Hlk & Hm)%Ha. rewrite Hm. by eapply Pa.
Qed.

Lemma abonos_positivos_mismos_montos db db' :
  mismos_montos db db' → abonos_positivos db → abonos_positivos db'.
Proof. intros (Hab & _) P. unfold abonos_positivos. by rewrite Hab. Qed.

(** ** Payments within the balance *)

Lemma app_cons_snoc {A} (l1 l2 l : list A) a x :
  l1 ++ a :: l2 = l ++ [x] →
  (l2 = [] ∧ a = x ∧ l1 = l) ∨ ∃ l2', l2 = l2' ++ [x] ∧ l = l1 ++ a :: l2'.
Proof.
  destruct l2 as [|b l2 _] using rev_ind.
  - intros [-> ->]%(app_inj_tail l1 l). by left.
  - rewrite app_comm_cons, app_assoc. intros [<- ->]%app_inj_tail.
    right. by exists l2.
Qed.

(** The test decides [pagos_admitidos]. *)
Lemma admitidos_b_ok db : ∀ l previos,
  admitidos_b db previos l = true →
  ∀ l1 a l2, l = l1 ++ a :: l2 →
    (∀ id v, ab_ventaId a = Some id → ventas db !! id = Some v →
       admitido (v_monto v)
         (ab_monto <$> filter (λ x, ab_ventaId x = Some id) (previos ++ l1))
         (ab_monto a)) ∧
    (∀ id p, ab_apartadoId a = Some id → apartados db !! id = Some p →
       admitido (ap_montoTotal p)
         (ab_monto <$> filter (λ x, ab_apartadoId x = Some id) (previos ++ l1))
         (ab_monto a)).
Proof.
  induction l as [|b l IH]; intros previos H l1 a l2 Hl.
  - by destruct l1.
  - cbn [admitidos_b] in H.
    apply andb_prop in H as [[Hv Ha]%andb_prop Hrest].
    destruct l1 as [|b' l1]; cbn in Hl; injection Hl as <- Hl.
    + rewrite app_nil_r. split.
      * intros id v Hid Hlk. rewrite Hid in Hv. cbn in Hv. rewrite Hlk in Hv.
        cbn in Hv. by apply negb_true_iff in Hv.
      * intros id p Hid Hlk. rewrite Hid in Ha. cbn in Ha. rewrite Hlk in Ha.
        cbn in Ha. by apply negb_true_iff in Ha.
    + rewrite (cons_middle b previos l1), app_assoc. by eapply IH.
Qed.

Lemma pagos_admitidos_test db :
  admitidos_b db [] (abonos db) = true → pagos_admitidos db.
Proof. intros H l1 a l2 Hl. by apply (admitidos_b_ok db _ [] H l1 a l2). Qed.

Lemma abonos_positivos_test db :
  forallb (λ a, js_gt (ab_monto a) 0%float) (abonos db) = true →
  abonos_positivos db.
Proof.
  intros H a Ha. rewrite forallb_forall in H. by apply H, list_elem_of_In.
Qed.

(** Inserting an admitted payment keeps the payments within the balance. *)
Lemma pagos_admitidos_con_abono db refType z refInfo m fecha comentarios :
  pagos_admitidos db →
  ref_lookup db refType (Some z) = Some refInfo →
  js_gt m (js_add (saldo refInfo) epsilon) = false →
  pagos_admitidos (con_abono db refType (Some z) m fecha comentarios).
Proof.
  intros P Hlook G l1 a l2 Hl. unfold con_abono in Hl. cbn [abonos] in Hl.
  symmetry in Hl. apply app_cons_snoc in Hl as [(-> & -> & ->)|(l2' & -> & Hl)].
  - unfold saldo in G. destruct refType; cbn in Hlook |- *.
    + unfold ref_venta in Hlook.
      destruct (ventas db !! z) as [v'|] eqn:Hv'; [|done]. cbn in Hlook.
      injection Hlook as <-. cbn in G. rewrite IFNULL_SUM in G.
      split; [|done]. intros id v [= <-] Hv. rewrite Hv' in Hv. by injection Hv as <-.
    + unfold ref_apartado in Hlook.
      destruct (apartados db !! z) as [p'|] eqn:Hp'; [|done]. cbn in Hlook.
      injection Hlook as <-. cbn in G. rewrite IFNULL_SUM in G.
      split; [done|]. intros id p [= <-] Hp. rewrite Hp' in Hp. by injection Hp as <-.
  - by apply (P l1 a l2').
Qed.

Lemma abonos_positivos_con_abono db refType refId m fecha comentarios :
  abonos_positivos db → js_gt m 0%float = true →
  abonos_positivos (con_abono db refType refId m fecha comentarios).
Proof.
  intros Pos Hm a. unfold con_abono. cbn [abonos].
  intros [Ha|Ha]%elem_of_app; [by apply Pos|].
  apply list_elem_of_singleton in Ha as ->. by destruct refType.
Qed.


Section Invariantes.

Variable pf : jsval → num.
Variable pi : jsval → option Z.

(** Where a payment request can leave the database. *)
Lemma serve_post_outcome today b db :
  ∃ db' tr,
    serve pf pi today (POST_abonos b) db = Some (db', tr) ∧
    (db' = db ∨
     ∃ refType z refInfo,
       passes_validation pf b = true ∧
       ref_lookup db refType (Some z) = Some refInfo ∧
       js_gt (parseFloat pf (b_monto b)) (js_add (saldo refInfo) epsilon) = false ∧
       let db1 :=
         con_abono db refType (Some z) (parseFloat pf (b_monto b)) (b_fecha b)
           (b_comentarios b) in
       (db' = db1 ∨ db' = (exec (marcar_pagado refType (Some z)) db1).2)).
Proof.
  destruct (passes_validation pf b) eqn:V.
  - rewrite serve_post_validado by done.
    destruct (referenced pi b) as [refType refId]. cbn zeta.
    destruct (ref_lookup db refType refId) as [refInfo|] eqn:L; [|by eauto].
    destruct (js_gt _ _) eqn:G; [by eauto|].
    destruct (ref_lookup_Some _ _ _ _ L) as [z ->].
    destruct (esPagada <$> _) as [[]|].
    + destruct (exec _ _) as [res db2] eqn:E.
      eexists _, _. split; [reflexivity|]. right.
      exists refType, z, refInfo. repeat split; try done.
      right. by rewrite E.
    + eexists _, _. split; [reflexivity|]. right.
      exists refType, z, refInfo. repeat split; try done. by left.
    + eexists _, _. split; [reflexivity|]. right.
      exists refType, z, refInfo. repeat split; try done. by left.
  - destruct (serve_post_no_validado pf pi today b db V) as (r & -> & _). eauto.
Qed.
(** Every request keeps the payments positive and within the balance, and
    takes none of them away. *)
Lemma serve_pagos_admitidos today rq db :
  abonos_positivos db → pagos_admitidos db →
  ∃ db' tr,
    serve pf pi today rq db = Some (db', tr) ∧
    abonos_positivos db' ∧ pagos_admitidos db' ∧
    ∃ nuevos, abonos db' = abonos db ++ nuevos.
Proof.
  intros Pos Ok.
  assert (∀ db', mismos_montos db db' →
            abonos_positivos db' ∧ pagos_admitidos db' ∧
            ∃ nuevos, abonos db' = abonos db ++ nuevos) as Hmm.
  { intros db' M. split; [by eapply abonos_positivos_mismos_montos|].
    split; [by eapply pagos_admitidos_mismos_montos|].
    exists []. rewrite app_nil_r. apply M. }
  assert (mismos_montos db db) as Mrefl by (split; [done|split; eauto]).
  destruct rq as [| |id|id|b].
  - destruct (serve_get_ventas_closed pf pi today db) as [ws ->].
    eexists _, _. split; [reflexivity|]. apply Hmm.
    apply (mismos_montos_with_ventas db
      (λ id v, match venta_row_of db (id, v) with
               | Some r => set_estado (vr_estado (venta_actualizada r)) v
               | None => v
               end)).
    intros ??; by destruct (venta_row_of _ _).
  - destruct (serve_get_apartados_closed pf pi today db) as [ws ->].
    eexists _, _. split; [reflexivity|]. apply Hmm.
    apply (mismos_montos_with_apartados db
      (λ id a, match apartado_row_of db (id, a) with
               | Some r =>
                   set_estadoApartado (ar_estadoApartado (apartado_actualizado r)) a
               | None => a
               end)).
    intros ??; by destruct (apartado_row_of _ _).
  - rewrite serve_entregar.
    destruct (apartados db !! id) as [a|] eqn:Ha; [|by eauto 10].
    case_bool_decide; [|by eauto 10].
    eexists _, _. split; [reflexivity|]. apply Hmm.
    by apply (mismos_montos_insert_apartado db id a (set_entregado today a) Ha).
  - rewrite serve_cancelar.
    destruct (apartados db !! id) as [a|] eqn:Ha; [|by eauto 10].
    case_bool_decide; [|by eauto 10].
    eexists _, _. split; [reflexivity|]. apply Hmm.
    by apply (mismos_montos_insert_apartado db id a
                (set_estadoApartado Cancelado a) Ha).
  - destruct (serve_post_outcome today b db) as (db' & tr & E & Hout).
    exists db', tr. split; [done|].
    destruct Hout as [->|(refType & z & refInfo & V & L & G & Hdb)]; [by apply Hmm|].
    assert (js_gt (parseFloat pf (b_monto b)) 0%float = true) as Hm.
    { unfold passes_validation in V.
      repeat (apply andb_prop in V as [V ?]).
      apply js_gt_zero; by apply negb_true_iff. }
    pose proof (pagos_admitidos_con_abono db refType z refInfo _ (b_fecha b)
                  (b_comentarios b) Ok L G) as Ok1.
    pose proof (abonos_positivos_con_abono db refType (Some z) _ (b_fecha b)
                  (b_comentarios b) Pos Hm) as Pos1.
    cbn zeta in Hdb. destruct Hdb as [->| ->]; [by eauto|].
    pose proof (mismos_montos_marcar_pagado refType z
      (con_abono db refType (Some z) (parseFloat pf (b_monto b)) (b_fecha b)
         (b_comentarios b))) as M.
    split; [by eapply abonos_positivos_mismos_montos|].
    split; [by eapply pagos_admitidos_mismos_montos|].
    destruct M as [-> _]. by eauto.
Qed.

(** C2, as amended.  From a database in which every payment is positive and
    was within the balance when it came in, any sequence of requests served
    one after the other ends in a database where this still holds, with the
    payments it had and those that came in after them: every payment of a
    stored sale or layaway is positive and not above the sum, as binary64
    computes it, of 0.001 and the balance that the total of the parent and
    the payments before it leave. *)
Theorem C2_payments_within_total rqs db :
  abonos_positivos db → pagos_admitidos db →
  ∃ db', serve_all pf pi rqs db = Some db' ∧
         abonos_positivos db' ∧ pagos_admitidos db' ∧
         ∃ nuevos, abonos db' = abonos db ++ nuevos.
Proof.
  revert db. induction rqs as [|[today rq] rqs IH]; intros db Pos Ok.
  - exists db. cbn. split; [done|]. split; [done|]. split; [done|].
    exists []. by rewrite app_nil_r.
  - cbn. destruct (serve_pagos_admitidos today rq db Pos Ok)
      as (db1 & tr & -> & Pos1 & Ok1 & l1 & Hl1).
    destruct (IH db1 Pos1 Ok1) as (db' & E & Pos' & Ok' & l2 & Hl2).
    exists db'. split; [done|]. split; [done|]. split; [done|]. exists (l1 ++ l2).
    by rewrite Hl2, Hl1, app_assoc.
Qed.

End Invariantes.

Lemma C2_payments_within_total_witness :
  abonos_positivos db_saldada ∧ pagos_admitidos db_saldada ∧
  ∃ db',
    serve_all parseFloat_other_NaN parseInt_other_NaN
      [("2024-03-01", POST_abonos (pago_apartado 1 0.001));
       ("2024-03-02", POST_abonos (pago_apartado 1 0.002));
       ("2024-03-03", POST_abonos (pago_venta 2 0.5));
       ("2024-03-04", GET_ventas)] db_saldada = Some db' ∧
    pagos_admitidos db' ∧
    ab_monto <$> abonos db' = [100; 4; 5.999; 4; 5.999; 50; 0.001]%float.
Proof.
  assert (abonos_positivos db_saldada) as Pos
    by (apply abonos_positivos_test; vm_compute; reflexivity).
  assert (pagos_admitidos db_saldada) as Ok
    by (apply pagos_admitidos_test; vm_compute; reflexivity).
  split; [exact Pos|]. split; [exact Ok|].
  destruct (C2_payments_within_total parseFloat_other_NaN parseInt_other_NaN
              [("2024-03-01", POST_abonos (pago_apartado 1 0.001));
               ("2024-03-02", POST_abonos (pago_apartado 1 0.002));
               ("2024-03-03", POST_abonos (pago_venta 2 0.5));
               ("2024-03-04", GET_ventas)] db_saldada Pos Ok)
    as (db' & E & _ & Ok' & _).
  exists db'. split; [exact E|]. split; [exact Ok'|].
  vm_compute in E. injection E as <-. vm_compute. reflexivity.
Defined.

(** On a sale of 1.00, payments of 0.10 and of 0.901 are both admitted, and
    their sum as binary64 adds them is above 1.00 plus 0.001.  On a sale of
    1e16, payments of 1.00 and of 1e16 are both admitted, the balance after
    the first being 1e16 again: what has been paid is above the total by 1,
    not by 0.001. *)
Lemma C2_counterexample :
  ∃ db',
    serve_all parseFloat_other_NaN parseInt_other_NaN
      [("2024-03-01", POST_abonos (pago_venta 2 0.1));
       ("2024-03-02", POST_abonos (pago_venta 2 0.901));
       ("2024-03-03", POST_abonos (pago_venta 1 1));
       ("2024-03-04", POST_abonos (pago_venta 1 1e16))] db_bordes = Some db' ∧
    total_de db' RefVenta 2 = Some 1%float ∧
    montos_de db' RefVenta 2 = [0.1; 0.901]%float ∧
    js_le (suma [0.1; 0.901]%float) (js_add 1 epsilon) = false ∧
    total_de db' RefVenta 1 = Some 1e16%float ∧
    montos_de db' RefVenta 1 = [1; 1e16]%float ∧
    ∃ total pagado,
      exacto 1e16 = Some total ∧ suma_exacta [1; 1e16]%float = Some pagado ∧
      (total + 1 == pagado)%Q ∧ (total + 0.001 < pagado)%Q.
Proof.
  eexists. split; [vm_compute; reflexivity|].
  repeat (split; [vm_compute; reflexivity|]).
  eexists _, _. split; [vm_compute; reflexivity|].
  split; [vm_compute; reflexivity|]. split; vm_compute; reflexivity.
Qed.

(** ** Layaways under balance-driven reconciliation *)

Section Apartados.

Variable pf : jsval → num.
Variable pi : jsval → option Z.
Variable today : string.

(** C6.  Neither a listing of the layaways nor a payment request does
    anything to a layaway but, possibly, take it from 'Apartado' to 'Pagado':
    one that is 'Pagado', 'Entregado' or 'Cancelado' is left exactly as it
    is, whatever its balance. *)
Theorem C6_only_apartado_to_pagado db :
  (∃ db' tr,
     serve pf pi today GET_apartados db = Some (db', tr) ∧
     ∀ id a, apartados db !! id = Some a →
       ∃ a', apartados db' !! id = Some a' ∧ solo_apartado_a_pagado a a' ∧
             (ap_estadoApartado a ≠ Apartado → a' = a)) ∧
  (∀ b, ∃ db' tr,
     serve pf pi today (POST_abonos b) db = Some (db', tr) ∧
     ∀ id a, apartados db !! id = Some a →
       ∃ a', apartados db' !! id = Some a' ∧ solo_apartado_a_pagado a a' ∧
             (ap_estadoApartado a ≠ Apartado → a' = a)).
Proof.
  split.
  - destruct (serve_get_apartados_closed pf pi today db) as [ws ->].
    eexists _, _. split; [reflexivity|]. intros id a Ha.
    cbn [apartados with_apartados]. unfold apartados_reconciliados.
    rewrite map_lookup_imap, Ha. cbn [mbind option_bind].
    destruct (apartado_row_of db (id, a)) as [r|] eqn:Hr.
    + rewrite (apartado_actualizado_estado _ _ _ _ Hr).
      destruct (_ && _).
      * exists (pagar a). split; [done|]. apply solo_apartado_a_pagado_pagar.
      * exists a. split; [done|]. split; [by left|done].
    + exists a. split; [done|]. split; [by left|done].
  - intros b. destruct (serve_post_outcome pf pi today b db) as (db' & tr & E & Hout).
    exists db', tr. split; [done|]. intros id a Ha.
    destruct Hout as [->|(refType & z & refInfo & _ & _ & _ & [->| ->])].
    + exists a. split; [done|]. split; [by left|done].
    + exists a. split; [done|]. split; [by left|done].
    + rewrite exec_marcar_pagado. destruct refType.
      * exists a. split; [done|]. split; [by left|done].
      * cbn [apartados with_apartados con_abono]. by apply lookup_alter_pagar.
Qed.

End Apartados.

(** ** Running the reconciliation a second time *)

Lemma exec_update_venta_estado_noop e i db :
  (∀ v, ventas db !! i = Some v → v_estado v = e) →
  exec (UpdateVentaEstado e i e) db = (DbOk (mkRun (seq_abonos db) 0), db).
Proof.
  intros H. cbn. unfold update_venta.
  destruct (ventas db !! i) as [v|]; [|done].
  by rewrite bool_decide_eq_false_2 by (intros Hne; by apply Hne, H).
Qed.

Lemma run_tasks_ventas_noop l : ∀ db out,
  (∀ r, r ∈ l → ∀ v, ventas db !! vr_id r = Some v → v_estado v = vr_estado r) →
  run_tasks db out (tarea_venta <$> l) =
  (db, out ++ (Write <$> replicate (length l) 0%nat)).
Proof.
  induction l as [|r l IH]; intros db out H.
  - cbn. by rewrite app_nil_r.
  - rewrite fmap_cons, run_tasks_cons. cbn [t_sql t_R tarea_venta].
    rewrite exec_update_venta_estado_noop by (apply H; by left).
    cbn [written changes]. rewrite IH by (intros ???; apply H; by right).
    cbn. by rewrite <- app_assoc.
Qed.

Lemma filter_false {A} (f : A → bool) l :
  (∀ x, x ∈ l → f x = false) → List.filter f l = [].
Proof.
  induction l as [|x l IH]; intros H; cbn; [done|].
  rewrite (H x) by (by left). apply IH. intros ??. apply H. by right.
Qed.

Lemma lookup_ventas_reconciliadas db id :
  ventas_reconciliadas db !! id =
  (λ v, match venta_row_of db (id, v) with
        | Some r => set_estado (vr_estado (venta_actualizada r)) v
        | None => v
        end) <$> ventas db !! id.
Proof.
  unfold ventas_reconciliadas. rewrite map_lookup_imap.
  by destruct (ventas db !! id).
Qed.

Lemma lookup_apartados_reconciliados db id :
  apartados_reconciliados db !! id =
  (λ a, match apartado_row_of db (id, a) with
        | Some r =>
            set_estadoApartado (ar_estadoApartado (apartado_actualizado r)) a
        | None => a
        end) <$> apartados db !! id.
Proof.
  unfold apartados_reconciliados. rewrite map_lookup_imap.
  by destruct (apartados db !! id).
Qed.

Section Idempotencia.

Variable pf : jsval → num.
Variable pi : jsval → option Z.
Variable today : string.

Lemma serve_get_ventas_again db :
  let db1 := with_ventas (ventas_reconciliadas db) db in
  ∃ r ws,
    serve pf pi today GET_ventas db1 = Some (db1, Respond r db1 :: (Write <$> ws)) ∧
    Forall (λ n, n = 0%nat) ws.
Proof.
  intros db1. rewrite serve_get_ventas. cbn zeta.
  rewrite run_tasks_ventas_noop.
  { eexists _, _. split; [reflexivity|]. apply Forall_replicate. done. }
  intros x (r1 & -> & Hr1)%list_elem_of_fmap v1 Hv1.
  apply elem_of_select_ventas in Hr1 as (id & v1' & Hv1' & Hr1).
  destruct (venta_row_of_Some _ _ _ _ Hr1) as (Hid & _).
  cbn [vr_id venta_actualizada] in Hv1. rewrite Hid, Hv1' in Hv1.
  injection Hv1 as ->.
  unfold db1 in Hv1'. cbn [ventas with_ventas] in Hv1'.
  rewrite lookup_ventas_reconciliadas in Hv1'.
  destruct (ventas db !! id) as [v|] eqn:Hv; [|done].
  apply (inj Some) in Hv1'.
  assert (v_clienteId v1 = v_clienteId v ∧ v_monto v1 = v_monto v) as [Hc Hm].
  { rewrite <- Hv1'. by destruct (venta_row_of db (id, v)). }
  assert (is_Some (venta_row_of db (id, v))) as [r Hr].
  { revert Hr1. unfold venta_row_of.
    assert (∀ r, join_cliente db1 r = join_cliente db r) as -> by (by intros []).
    rewrite Hc. destruct (join_cliente db (v_clienteId v)); cbn; [eauto|done]. }
  rewrite Hr in Hv1'.
  destruct (venta_row_of_Some _ _ _ _ Hr) as (_ & _ & _ & Hs & _).
  destruct (venta_row_of_Some _ _ _ _ Hr1) as (_ & _ & _ & Hs1 & _).
  cbn [vr_estado venta_actualizada] in *. rewrite Hs1, <- Hv1', Hs.
  reflexivity.
Qed.

Lemma serve_get_apartados_again db :
  let db1 := with_apartados (apartados_reconciliados db) db in
  ∃ r, serve pf pi today GET_apartados db1 = Some (db1, [Respond r db1]).
Proof.
  intros db1. rewrite serve_get_apartados. cbn zeta. unfold tareas_apartados.
  rewrite filter_false; [by eexists|].
  intros x (r1 & -> & Hr1)%list_elem_of_fmap.
  apply elem_of_select_apartados in Hr1 as (id & a1 & Ha1 & Hr1).
  rewrite (pasa_a_pagado_actualizado _ _ _ _ Ha1 Hr1).
  unfold db1 in Ha1. cbn [apartados with_apartados] in Ha1.
  rewrite lookup_apartados_reconciliados in Ha1.
  destruct (apartados db !! id) as [a|] eqn:Ha; [|done].
  apply (inj Some) in Ha1.
  assert (ap_clienteId a1 = ap_clienteId a ∧ ap_montoTotal a1 = ap_montoTotal a)
    as [Hc Hm].
  { rewrite <- Ha1. by destruct (apartado_row_of _ _). }
  assert (saldoPendiente_apartado db1 id a1 = saldoPendiente_apartado db id a) as ->.
  { unfold saldoPendiente_apartado. by rewrite Hm. }
  assert (is_Some (apartado_row_of db (id, a))) as [r Hr].
  { revert Hr1. unfold apartado_row_of.
    assert (∀ r, join_cliente db1 r = join_cliente db r) as -> by (by intros []).
    rewrite Hc. destruct (join_cliente db (ap_clienteId a)); cbn; [eauto|done]. }
  rewrite Hr, (apartado_actualizado_estado _ _ _ _ Hr) in Ha1.
  destruct (bool_decide (ap_estadoApartado a = Apartado)) eqn:E1;
    destruct (js_le _ epsilon) eqn:E2; cbn in Ha1; subst a1; cbn.
  - unfold pagar. rewrite E1. done.
  - by rewrite E1.
  - by rewrite E1.
  - by rewrite E1.
Qed.

End Idempotencia.

Lemma exec_marcar_pagado_ok refType refId db :
  ∃ r db', exec (marcar_pagado refType refId) db = (DbOk r, db').
Proof.
  destruct refType, refId as [z|]; cbn; eauto.
  - destruct (update_venta _ _ _ _); eauto.
  - destruct (update_apartado _ _ _ _); eauto.
Qed.

(** The check and update that follow an insertion, run on their own. *)
Lemma run_update_if_fully_paid refType refId db :
  run_prog 2 (update_if_fully_paid refType refId Halt) db =
  match esPagada <$> ref_lookup db refType refId with
  | Some true =>
      let '(res, db') := exec (marcar_pagado refType refId) db in
      Some (db', written (marcar_pagado refType refId) res)
  | _ => Some (db, [])
  end.
Proof.
  destruct (exec_marcar_pagado_ok refType refId db) as (r & db' & E).
  rewrite E. unfold run_prog, update_if_fully_paid.
  destruct refType; cbn [run_sync app]; rewrite event_loop_step;
    cbn [t_sql t_cb t_R exec written ref_lookup app]; cbn [marcar_pagado] in E.
  - destruct (esPagada <$> (refId ≫= ref_venta db)) as [[]|];
      cbn [run_sync app]; try reflexivity.
    rewrite event_loop_step. cbn [t_sql t_cb t_R]. rewrite E. reflexivity.
  - destruct (esPagada <$> (refId ≫= ref_apartado db)) as [[]|];
      cbn [run_sync app]; try reflexivity.
    rewrite event_loop_step. cbn [t_sql t_cb t_R]. rewrite E. reflexivity.
Qed.

Lemma alter_alter_idemp {A} (f : A → A) (z : Z) (t : gmap Z A) :
  (∀ x, f (f x) = f x) → alter f z (alter f z t) = alter f z t.
Proof.
  intros Hf. apply map_eq. intros j. rewrite !lookup_alter.
  case_decide; [|done]. rewrite decide_True by done.
  destruct (t !! z); cbn; by rewrite ?Hf.
Qed.

Lemma exec_marcar_pagado_again refType z db :
  let db1 := (exec (marcar_pagado refType (Some z)) db).2 in
  (exec (marcar_pagado refType (Some z)) db1).2 = db1 ∧
  ref_lookup db1 refType (Some z) = ref_lookup db refType (Some z).
Proof.
  cbn zeta. rewrite !exec_marcar_pagado. destruct refType.
  - cbn [ventas with_ventas]. split.
    + unfold with_ventas. cbn. by rewrite alter_alter_idemp.
    + cbn. unfold ref_venta. cbn [ventas with_ventas]. rewrite lookup_alter.
      rewrite decide_True by done. by destruct (ventas db !! z).
  - cbn [apartados with_apartados]. split.
    + unfold with_apartados. cbn. by rewrite alter_alter_idemp by apply pagar_pagar.
    + cbn. unfold ref_apartado. cbn [apartados with_apartados].
      rewrite lookup_alter. rewrite decide_True by done.
      destruct (apartados db !! z); cbn; [|done]. by rewrite pagar_montoTotal.
Qed.

Section Reconciliador.

Variable pf : jsval → num.
Variable pi : jsval → option Z.
Variable today : string.

(** C9.  Reconciling twice in a row gives what reconciling once gives.  After
    a listing of the sales, or of the layaways, a second listing leaves the
    database as the first one left it and none of its updates changes a row;
    the check and update that follow an insertion, run again, leave the
    database as their first run left it. *)
Theorem C9_reconciler_idempotent db :
  (∃ db1 tr1 r2 ws2,
     serve pf pi today GET_ventas db = Some (db1, tr1) ∧
     serve pf pi today GET_ventas db1 = Some (db1, Respond r2 db1 :: (Write <$> ws2)) ∧
     Forall (λ n, n = 0%nat) ws2) ∧
  (∃ db1 tr1 r2,
     serve pf pi today GET_apartados db = Some (db1, tr1) ∧
     serve pf pi today GET_apartados db1 = Some (db1, [Respond r2 db1])) ∧
  (∀ refType refId, ∃ db1 tr1 tr2,
     run_prog 2 (update_if_fully_paid refType refId Halt) db = Some (db1, tr1) ∧
     run_prog 2 (update_if_fully_paid refType refId Halt) db1 = Some (db1, tr2)).
Proof.
  split; [|split].
  - destruct (serve_get_ventas_closed pf pi today db) as [ws E].
    destruct (serve_get_ventas_again pf pi today db) as (r2 & ws2 & E2 & Z0).
    eexists _, _, r2, ws2. split; [exact E|]. split; [exact E2|exact Z0].
  - destruct (serve_get_apartados_closed pf pi today db) as [ws E].
    destruct (serve_get_apartados_again pf pi today db) as (r2 & E2).
    eexists _, _, r2. split; [exact E|exact E2].
  - intros refType refId. rewrite run_update_if_fully_paid.
    destruct (esPagada <$> ref_lookup db refType refId) as [[]|] eqn:P.
    + destruct refId as [z|]; [|by destruct refType].
      destruct (exec_marcar_pagado_again refType z db) as [Hdb Hlook].
      destruct (exec (marcar_pagado refType (Some z)) db) as [res db1] eqn:E.
      cbn [snd] in Hdb, Hlook.
      destruct (exec (marcar_pagado refType (Some z)) db1) as [res' db2] eqn:E'.
      cbn [snd] in Hdb. subst db2.
      exists db1, (written (marcar_pagado refType (Some z)) res),
        (written (marcar_pagado refType (Some z)) res').
      split; [reflexivity|].
      by rewrite run_update_if_fully_paid, Hlook, P, E'.
    + eexists _, _, _. split; [reflexivity|].
      by rewrite run_update_if_fully_paid, P.
    + eexists _, _, _. split; [reflexivity|].
      by rewrite run_update_if_fully_paid, P.
Qed.

End Reconciliador.

(** ** Termination and scenarios *)

(** More fuel never changes what the event loop gives. *)
Lemma event_loop_more_fuel fuel : ∀ fuel' db out queue res,
  event_loop fuel db out queue = Some res → (fuel ≤ fuel')%nat →
  event_loop fuel' db out queue = Some res.
Proof.
  induction fuel as [|fuel IH]; intros fuel' db out queue res H Hle.
  - destruct queue; [|done]. cbn in H. by rewrite event_loop_nil.
  - destruct queue as [|t queue]; [by rewrite event_loop_nil|].
    destruct fuel' as [|fuel']; [lia|].
    rewrite event_loop_step in *.
    destruct (exec (t_sql t) db) as [r db'].
    destruct (run_sync _ _ _ _) as [out' queue'].
    apply IH; [done|lia].
Qed.

Lemma serve_with_more_fuel pf pi today rq db fuel res :
  serve pf pi today rq db = Some res → (enough_fuel db ≤ fuel)%nat →
  serve_with pf pi fuel today rq db = Some res.
Proof.
  unfold serve, serve_with, run_prog. destruct (run_sync _ _ _ _).
  apply event_loop_more_fuel.
Qed.

(** Every request is served to the end. *)
Lemma serve_total pf pi today rq db :
  ∃ db' tr, serve pf pi today rq db = Some (db', tr).
Proof.
  destruct rq as [| |id|id|b].
  - destruct (serve_get_ventas_closed pf pi today db) as [ws ->]. eauto.
  - destruct (serve_get_apartados_closed pf pi today db) as [ws ->]. eauto.
  - rewrite serve_entregar. destruct (apartados db !! id); [|eauto].
    case_bool_decide; eauto.
  - rewrite serve_cancelar. destruct (apartados db !! id); [|eauto].
    case_bool_decide; eauto.
  - destruct (serve_post_outcome pf pi today b db) as (db' & tr & -> & _). eauto.
Qed.

(** A sale of 100.00 paid with 100.00 is listed as 'Pagada' with nothing
    left to pay. *)
Example venta_pagada_en_un_abono :
  ∃ db1 tr1 db2 ws row,
    serve parseFloat_other_NaN parseInt_other_NaN "2024-03-01"
      (POST_abonos (pago_venta 1 100%float)) db_ejemplo = Some (db1, tr1) ∧
    serve parseFloat_other_NaN parseInt_other_NaN "2024-03-02" GET_ventas db1 =
      Some (db2, Respond (mkResponse 200 (SalesList [row])) db1 :: ws) ∧
    vr_estado row = Pagada ∧ vr_totalAbonado row = 100%float ∧
    vr_saldoPendiente row = Some 0%float.
Proof.
  eexists _, _, _, _, _. split; [vm_compute; reflexivity|].
  split; [vm_compute; reflexivity|]. by vm_compute.
Qed.

(** A sale of 10.00 with payments of 4.00 and of 5.999: the payments add up
    to a little less than 9.999, the balance is above 0.001, and the listing
    shows the sale as 'Pendiente' and stores that state, though the balance
    that 9.999 would leave is not above 0.001.  The same holds of the layaway
    with these payments, which stays 'Apartado'. *)
Example venta_casi_pagada :
  ∃ db' ws fila1 fila2 ws' ap1 ap2,
    v_estado <$> ventas db_saldada !! 2 = Some Pagada ∧
    serve parseFloat_other_NaN parseInt_other_NaN "2024-03-02" GET_ventas db_saldada =
      Some (db', Respond (mkResponse 200 (SalesList [fila2; fila1])) db_saldada
                   :: ws) ∧
    vr_id fila2 = 2 ∧ vr_estado fila2 = Pendiente ∧
    vr_totalAbonado fila2 = js_add 4 5.999 ∧
    vr_totalAbonado fila2 = 0x1.3ff7ced916872p+3%float ∧
    vr_saldoPendiente fila2 = Some (js_sub 10 (js_add 4 5.999)) ∧
    js_gt (js_sub 10 (js_add 4 5.999)) epsilon = true ∧
    js_le (js_sub 10 9.999) epsilon = true ∧
    v_estado <$> ventas db' !! 2 = Some Pendiente ∧
    (snd <$> serve parseFloat_other_NaN parseInt_other_NaN "2024-03-02"
               GET_apartados db_saldada) =
      Some (Respond (mkResponse 200 (LayawayList [ap2; ap1])) db_saldada :: ws') ∧
    ar_id ap1 = 1 ∧ ar_estadoApartado ap1 = Apartado ∧
    ar_id ap2 = 2 ∧ ar_estadoApartado ap2 = Pagado.
Proof.
  eexists _, _, _, _, _, _, _. split; [reflexivity|].
  split; [vm_compute; reflexivity|].
  repeat (split; [vm_compute; reflexivity|]). vm_compute. reflexivity.
Qed.

(** The life of a layaway of 50.00: it cannot be delivered while 'Apartado';
    paid in full and listed it is 'Pagado'; delivered it is 'Entregado' with
    the date of the day; it can then no longer be cancelled. *)
Example ciclo_de_un_apartado :
  ∃ r1 db1 db2 db3 r4 db4 r5,
    responses <$> (snd <$> serve parseFloat_other_NaN parseInt_other_NaN
                     "2024-03-01" (PUT_entregar 1) db_ejemplo) = Some [r1] ∧
    failure_of r1 = Some InvalidStateTransition ∧
    serve_all parseFloat_other_NaN parseInt_other_NaN
      [("2024-03-02", POST_abonos (pago_apartado 1 50%float))] db_ejemplo
      = Some db1 ∧
    serve_all parseFloat_other_NaN parseInt_other_NaN
      [("2024-03-03", GET_apartados)] db1 = Some db2 ∧
    ap_estadoApartado <$> apartados db2 !! 1 = Some Pagado ∧
    serve parseFloat_other_NaN parseInt_other_NaN "2024-03-04" (PUT_entregar 1) db2
      = Some (db3, [Write 1; Respond r4 db3]) ∧
    status r4 = 200%nat ∧
    apartados db3 !! 1 =
      Some (mkApartado (ClienteId 1) "Sofa" 50%float "2024-02-01" Entregado
              (Some "2024-03-04")) ∧
    serve parseFloat_other_NaN parseInt_other_NaN "2024-03-05" (PUT_cancelar 1) db3
      = Some (db4, [Write 0; Respond r5 db4]) ∧
    failure_of r5 = Some InvalidStateTransition ∧ db4 = db3.
Proof.
  eexists _, _, _, _, _, _, _.
  repeat (split; [vm_compute; reflexivity|]). by vm_compute.
Qed.

(** * The other routes *)

(** ** The first part within the whole *)

Lemma event_loopx_nil env fuel st out : event_loopx env fuel st out [] = Some (st, out).
Proof. by destruct fuel. Qed.

Lemma with_db_st_db st : with_db (st_db st) st = st.
Proof. by destruct st. Qed.

Lemma run_syncx_lift st p : ∀ db out queue,
  run_syncx (lift p) (with_db db st) (event_of st <$> out) (taskx_of <$> queue) =
  let '(o, q) := run_sync p db out queue in (event_of st <$> o, taskx_of <$> q).
Proof.
  induction p as [|r k IH|m k IH|R q cb _ k IH]; intros db out queue; cbn.
  - reflexivity.
  - rewrite <- IH. by rewrite fmap_app.
  - rewrite <- IH. by rewrite fmap_app.
  - rewrite <- IH. by rewrite fmap_app.
Qed.

Lemma event_loopx_lift env st fuel : ∀ db out queue,
  event_loopx env fuel (with_db db st) (event_of st <$> out) (taskx_of <$> queue) =
  outcome_of st <$> event_loop fuel db out queue.
Proof.
  induction fuel as [|fuel IH]; intros db out queue.
  - by destruct queue.
  - destruct queue as [|t queue]; [done|].
    cbn [event_loop event_loopx fmap list_fmap taskx_of tx_sql tx_cb execx].
    change (st_db (with_db db st)) with db.
    destruct (exec (t_sql t) db) as [res db'] eqn:E.
    cbn [writtenx].
    rewrite <- fmap_app.
    pose proof (run_syncx_lift st (t_cb t res) db' (out ++ written (t_sql t) res)
                  queue) as L.
    destruct (run_sync _ _ _ _) as [o q].
    change (with_db db' (with_db db st)) with (with_db db' st).
    change (event_of (with_db db' st)) with (event_of st).
    rewrite L. apply IH.
Qed.

(** A request of the first part is served over the store as it is over the
    database; the sequences stay as they are. *)
Lemma servex_antes env today rq st :
  servex env today (Antes rq) st =
  outcome_of st <$> serve (env_parseFloat env) (env_parseInt env) today rq (st_db st).
Proof.
  unfold servex, serve, serve_with, run_progx, run_prog. cbn [handlerx].
  pose proof (run_syncx_lift st
    (handler (env_parseFloat env) (env_parseInt env) today rq) (st_db st) [] []) as L.
  rewrite with_db_st_db in L. cbn [fmap list_fmap] in L.
  destruct (run_sync _ _ _ _) as [o q]. rewrite L.
  pose proof (event_loopx_lift env st (enough_fuel (st_db st)) (st_db st) o q) as H.
  by rewrite with_db_st_db in H.
Qed.

(** ** What each of the other handlers does *)

Lemma test_fecha_binds fecha : test_fecha fecha = true → binds_null fecha = false.
Proof. by destruct fecha. Qed.

Lemma test_fecha_truthy fecha : test_fecha fecha = true → truthy fecha = true.
Proof. destruct fecha as [| | | |s|l]; try done. by destruct s. Qed.

Lemma truthy_binds v : truthy v = true → binds_null v = false.
Proof.
  destruct v as [| | |x| |]; try done. cbn. unfold isNaN. by destruct (is_nan x).
Qed.

Section Formas.

Variable env : entorno.
Variable today : string.

Lemma servex_put_ventas_fecha id fecha st :
  servex env today (PUT_ventas_fecha id fecha) st =
  if negb (truthy fecha)
  then Some (st, [RespondX (mkResponseX 400 FechaRequerida) st])
  else if negb (test_fecha fecha)
  then Some (st, [RespondX (mkResponseX 400 FormatoFechaInvalido) st])
  else
    match ventas (st_db st) !! id with
    | Some v =>
        let st' :=
          with_db (with_ventas (<[id := set_fecha (as_text env fecha) v]>
                                  (ventas (st_db st))) (st_db st)) st in
        Some (st', [WriteX 1;
                    RespondX (mkResponseX 200 (FechaVentaActualizada id fecha)) st'])
    | None => Some (st, [WriteX 0; RespondX (mkResponseX 404 VentaNoEncontrada) st])
    end.
Proof.
  unfold servex, run_progx, enough_fuel. cbn [handlerx]. unfold put_api_ventas_fecha.
  destruct (truthy fecha); [|reflexivity]. cbn [negb].
  destruct (test_fecha fecha) eqn:T; [|reflexivity]. cbn.
  rewrite (test_fecha_binds _ T).
  destruct (ventas (st_db st) !! id); reflexivity.
Qed.

Lemma servex_put_apartados_fecha id fecha st :
  servex env today (PUT_apartados_fecha id fecha) st =
  if negb (truthy fecha)
  then Some (st, [RespondX (mkResponseX 400 FechaCreacionRequerida) st])
  else if negb (test_fecha fecha)
  then Some (st, [RespondX (mkResponseX 400 FormatoFechaInvalido) st])
  else
    match apartados (st_db st) !! id with
    | Some a =>
        let st' :=
          with_db (with_apartados
                     (<[id := set_fechaCreacion (as_text env fecha) a]>
                        (apartados (st_db st))) (st_db st)) st in
        Some (st', [WriteX 1;
                    RespondX (mkResponseX 200 (FechaApartadoActualizada id fecha))
                      st'])
    | None =>
        Some (st, [WriteX 0; RespondX (mkResponseX 404 ApartadoNoEncontrado) st])
    end.
Proof.
  unfold servex, run_progx, enough_fuel. cbn [handlerx]. unfold put_api_apartados_fecha.
  destruct (truthy fecha); [|reflexivity]. cbn [negb].
  destruct (test_fecha fecha) eqn:T; [|reflexivity]. cbn.
  rewrite (test_fecha_binds _ T).
  destruct (apartados (st_db st) !! id); reflexivity.
Qed.

Lemma servex_delete_ventas id st :
  servex env today (DELETE_ventas id) st =
  match ventas (st_db st) !! id with
  | Some _ =>
      let st' :=
        with_db (with_abonos (tras_borrar env ab_ventaId id (abonos (st_db st)))
                   (with_ventas (delete id (ventas (st_db st))) (st_db st))) st in
      Some (st', [WriteX 1; RespondX (mkResponseX 200 (VentaEliminada id)) st'])
  | None => Some (st, [WriteX 0; RespondX (mkResponseX 404 VentaNoEncontrada) st])
  end.
Proof.
  unfold servex, run_progx, enough_fuel. cbn.
  destruct (ventas (st_db st) !! id); reflexivity.
Qed.

Lemma servex_delete_apartados id st :
  servex env today (DELETE_apartados id) st =
  match apartados (st_db st) !! id with
  | Some _ =>
      let st' :=
        with_db (with_abonos (tras_borrar env ab_apartadoId id (abonos (st_db st)))
                   (with_apartados (delete id (apartados (st_db st))) (st_db st)))
          st in
      Some (st', [WriteX 1; RespondX (mkResponseX 200 (ApartadoEliminado id)) st'])
  | None => Some (st, [WriteX 0; RespondX (mkResponseX 404 ApartadoNoEncontrado) st])
  end.
Proof.
  unfold servex, run_progx, enough_fuel. cbn.
  destruct (apartados (st_db st) !! id); reflexivity.
Qed.

Lemma servex_get_abonos q st :
  servex env today (GET_abonos q) st =
  Some (st, [RespondX (mkResponseX 200
                         (PaymentsList (select_abonos env (q_ventaId q)
                                          (q_apartadoId q) (st_db st)))) st]).
Proof. reflexivity. Qed.

Lemma servex_post_clientes b st :
  servex env today (POST_clientes b) st =
  if negb (truthy (cb_nombre b))
  then Some (st, [RespondX (mkResponseX 400 ClientNameRequired) st])
  else if identificacion_taken (clientes (st_db st))
            (sql_text env (cb_identificacion b))
  then Some (st, [RespondX (mkResponseX 400
                              (IdentificationExists (cb_identificacion b))) st])
  else
    let id := next_id (seq_clientes st) (clientes (st_db st)) in
    let st' :=
      mkStore
        (with_clientes
           (<[id := mkCliente (as_text env (cb_nombre b))
                      (sql_text env (cb_identificacion b))
                      (sql_text env (cb_telefono b)) (sql_text env (cb_email b))]>
              (clientes (st_db st))) (st_db st))
        id (seq_ventas st) (seq_apartados st) in
    Some (st', [WriteX 1;
                RespondX (mkResponseX 201
                            (ClientCreated id (cb_nombre b) (cb_identificacion b)
                               (cb_telefono b) (cb_email b))) st']).
Proof.
  unfold servex, run_progx, enough_fuel. cbn [handlerx]. unfold post_api_clientes.
  destruct (truthy (cb_nombre b)) eqn:T; [|reflexivity]. cbn.
  rewrite (truthy_binds _ T).
  destruct (identificacion_taken _ _); reflexivity.
Qed.

Lemma servex_put_clientes id telefono email st :
  servex env today (PUT_clientes id telefono email) st =
  if is_undefined telefono && is_undefined email
  then Some (st, [RespondX (mkResponseX 400 ContactRequired) st])
  else
    match clientes (st_db st) !! id with
    | Some c =>
        let c' :=
          mkCliente (c_nombre c) (c_identificacion c)
            (if is_undefined telefono then c_telefono c else sql_text env telefono)
            (if is_undefined email then c_email c else sql_text env email) in
        let st' :=
          with_db (with_clientes (<[id := c']> (clientes (st_db st))) (st_db st))
            st in
        Some (st', [WriteX 1;
                    RespondX (mkResponseX 200
                                (ClienteActualizado (Some (mkClienteRow id c'))))
                      st'])
    | None =>
        Some (st, [WriteX 0; RespondX (mkResponseX 404 ClienteNoEncontrado) st])
    end.
Proof.
  unfold servex, run_progx, enough_fuel. cbn [handlerx]. unfold put_api_clientes.
  destruct (is_undefined telefono), (is_undefined email); cbn;
    try reflexivity;
    destruct (clientes (st_db st) !! id) as [c|]; cbn; try reflexivity;
    rewrite lookup_insert_eq; destruct c; reflexivity.
Qed.

Lemma servex_post_ventas b st :
  servex env today (POST_ventas b) st =
  let monto := parseFloat (env_parseFloat env) (vb_monto b) in
  if negb (truthy (vb_clienteId b)) || negb (truthy (vb_producto b))
     || is_undefined (vb_monto b) || negb (truthy (vb_fecha b))
  then Some (st, [RespondX (mkResponseX 400 SaleMissingFields) st])
  else if isNaN monto || js_le monto 0%float
  then Some (st, [RespondX (mkResponseX 400 SaleAmountNotPositive) st])
  else
  if sin_cliente env (st_db st) (cliente_ref_of env (vb_clienteId b))
  then Some (st, [RespondX (mkResponseX 500
                    (Body (StorageError "Error adding sale: "
                             "SQLITE_CONSTRAINT: FOREIGN KEY constraint failed")))
                    st])
  else
    let id := next_id (seq_ventas st) (ventas (st_db st)) in
    let st' :=
      mkStore
        (with_ventas
           (<[id := mkVenta (cliente_ref_of env (vb_clienteId b))
                      (as_text env (vb_producto b)) monto
                      (as_text env (vb_fecha b)) Pendiente]>
              (ventas (st_db st))) (st_db st))
        (seq_clientes st) id (seq_apartados st) in
    Some (st', [WriteX 1;
                RespondX (mkResponseX 201
                            (SaleCreated id (vb_clienteId b) (vb_producto b)
                               monto (vb_fecha b) Pendiente 0%float monto))
                  st']).
Proof.
  unfold servex, run_progx, enough_fuel. cbn [handlerx]. unfold post_api_ventas.
  destruct (truthy (vb_clienteId b)) eqn:T1; [|reflexivity].
  destruct (truthy (vb_producto b)) eqn:T2; [|reflexivity].
  destruct (is_undefined (vb_monto b)); [reflexivity|].
  destruct (truthy (vb_fecha b)) eqn:T3; [|reflexivity]. cbn [negb orb].
  destruct (isNaN _) eqn:N; [reflexivity|].
  destruct (js_le _ _); [reflexivity|]. cbn.
  rewrite (truthy_binds _ T1), (truthy_binds _ T2), (truthy_binds _ T3), N. cbn.
  destruct (sin_cliente env _ _); reflexivity.
Qed.

Lemma servex_post_apartados b st :
  servex env today (POST_apartados b) st =
  let montoTotal := parseFloat (env_parseFloat env) (pb_montoTotal b) in
  let fecha :=
    if truthy (pb_fechaCreacion b) then pb_fechaCreacion b else JStr today in
  if negb (truthy (pb_clienteId b)) || negb (truthy (pb_producto b))
     || is_undefined (pb_montoTotal b)
  then Some (st, [RespondX (mkResponseX 400 LayawayMissingFields) st])
  else if isNaN montoTotal || js_le montoTotal 0%float
  then Some (st, [RespondX (mkResponseX 400 LayawayAmountNotPositive) st])
  else
  if sin_cliente env (st_db st) (cliente_ref_of env (pb_clienteId b))
  then Some (st, [RespondX (mkResponseX 500
                    (Body (StorageError "Error creating apartado: "
                             "SQLITE_CONSTRAINT: FOREIGN KEY constraint failed")))
                    st])
  else
    let id := next_id (seq_apartados st) (apartados (st_db st)) in
    let st' :=
      mkStore
        (with_apartados
           (<[id := mkApartado (cliente_ref_of env (pb_clienteId b))
                      (as_text env (pb_producto b)) montoTotal
                      (as_text env fecha) Apartado None]>
              (apartados (st_db st))) (st_db st))
        (seq_clientes st) (seq_ventas st) id in
    Some (st', [WriteX 1;
                RespondX (mkResponseX 201
                            (LayawayCreated id (pb_clienteId b)
                               (pb_producto b) montoTotal fecha Apartado
                               0%float montoTotal)) st']).
Proof.
  unfold servex, run_progx, enough_fuel. cbn [handlerx]. unfold post_api_apartados.
  destruct (truthy (pb_clienteId b)) eqn:T1; [|reflexivity].
  destruct (truthy (pb_producto b)) eqn:T2; [|reflexivity].
  destruct (is_undefined (pb_montoTotal b)); [reflexivity|]. cbn [negb orb].
  destruct (isNaN _) eqn:N; [reflexivity|].
  destruct (js_le _ _); [reflexivity|]. cbn.
  rewrite (truthy_binds _ T1), (truthy_binds _ T2), N.
  assert (binds_null (if truthy (pb_fechaCreacion b) then pb_fechaCreacion b
                      else JStr today) = false) as ->.
  { destruct (truthy (pb_fechaCreacion b)) eqn:T3; [by apply truthy_binds|done]. }
  cbn.
  destruct (sin_cliente env _ _); reflexivity.
Qed.

End Formas.

(** ** Changing the date of a sale or of a layaway *)

Lemma test_fecha_anidada n s : test_fecha (anidada n (JStr s)) = date_shape s.
Proof. induction n as [|n IH]; [done|]. exact IH. Qed.

Lemma test_fecha_inv v : test_fecha v = true → imprime_fecha v.
Proof.
  revert v. fix IH 1. intros v.
  destruct v as [| | | |s|l]; try discriminate.
  - intros H. by exists 0%nat, s.
  - destruct l as [|x [|y l]]; try discriminate. cbn.
    intros (n & s & -> & Hs)%IH. by exists (S n), s.
Qed.

(** The regex test passes exactly on the values that print as a date. *)
Lemma test_fecha_imprime v : test_fecha v = true ↔ imprime_fecha v.
Proof.
  split; [apply test_fecha_inv|].
  intros (n & s & -> & Hs). by rewrite test_fecha_anidada.
Qed.

Lemma test_fecha_no_imprime v : test_fecha v = false ↔ ¬ imprime_fecha v.
Proof. rewrite <- test_fecha_imprime. by destruct (test_fecha v). Qed.

Section Fechas.

Variable env : entorno.
Variable today : string.

(** X1.  [PUT /api/ventas/:id/fecha] answers 200 exactly when [fecha] prints
    as a date of the shape dddd-dd-dd, that is when it is such a string, bare
    or wrapped in arrays of one element, and the sale exists; the sale then
    carries as its date the text stored for [fecha], which is the string
    itself when [fecha] is a string, and nothing else in the store has
    changed, its amount, state and client included.  A [fecha] that does not
    print so is answered with 400 and an unknown sale with 404, the store
    being left as it was. *)
Theorem put_ventas_fecha_solo_la_fecha id fecha st :
  ∃ st' tr r,
    servex env today (PUT_ventas_fecha id fecha) st = Some (st', tr) ∧
    responsesx tr = [r] ∧
    (statusx r = 200%nat ↔
       imprime_fecha fecha ∧ is_Some (ventas (st_db st) !! id)) ∧
    (statusx r = 400%nat ↔ ¬ imprime_fecha fecha) ∧
    (statusx r = 404%nat ↔
       imprime_fecha fecha ∧ ventas (st_db st) !! id = None) ∧
    (statusx r ≠ 200%nat → st' = st) ∧
    (statusx r = 200%nat →
       ∃ v, ventas (st_db st) !! id = Some v ∧
            st' = with_db (with_ventas
                             (<[id := set_fecha (as_text env fecha) v]>
                                (ventas (st_db st)))
                             (st_db st)) st ∧
            (∀ s, fecha = JStr s → as_text env fecha = s ∧ date_shape s = true) ∧
            v_monto (set_fecha (as_text env fecha) v) = v_monto v ∧
            v_estado (set_fecha (as_text env fecha) v) = v_estado v ∧
            v_clienteId (set_fecha (as_text env fecha) v) = v_clienteId v).
Proof.
  rewrite servex_put_ventas_fecha.
  setoid_rewrite <- test_fecha_no_imprime. setoid_rewrite <- test_fecha_imprime.
  destruct (test_fecha fecha) eqn:T.
  - rewrite (test_fecha_truthy _ T). cbn [negb].
    destruct (ventas (st_db st) !! id) as [v|] eqn:E.
    + eexists _, _, _. split; [reflexivity|]. split; [reflexivity|]. cbn.
      split; [split; [intros _; split; [done|by eexists]|done]|].
      split; [done|]. split; [split; [done|by intros [_ ?]]|].
      split; [done|]. intros _. exists v. split; [done|]. split; [done|].
      split; [intros s ->; split; [done|exact T]|]. done.
    + eexists _, _, _. split; [reflexivity|]. split; [reflexivity|]. cbn.
      split; [split; [done|by intros [_ [? ?]]]|]. by repeat split.
  - destruct (truthy fecha); cbn [negb].
    all: eexists _, _, _; split; [reflexivity|]; split; [reflexivity|]; cbn.
    all: split; [split; [done|by intros [? _]]|].
    all: split; [done|]; split; [split; [done|by intros [? _]]|]; by split.
Qed.

(** X2.  [PUT /api/apartados/:id/fecha] does the same for the creation date
    of a layaway: 200 exactly for a [fechaCreacion] that prints as a date of
    the shape dddd-dd-dd, a string or such a string wrapped in arrays of one
    element, and an existing layaway, whose state, total and delivery date
    stay as they are whatever the state; otherwise 400 or 404 and nothing
    changes. *)
Theorem put_apartados_fecha_solo_la_fecha id fecha st :
  ∃ st' tr r,
    servex env today (PUT_apartados_fecha id fecha) st = Some (st', tr) ∧
    responsesx tr = [r] ∧
    (statusx r = 200%nat ↔
       imprime_fecha fecha ∧ is_Some (apartados (st_db st) !! id)) ∧
    (statusx r = 400%nat ↔ ¬ imprime_fecha fecha) ∧
    (statusx r = 404%nat ↔
       imprime_fecha fecha ∧ apartados (st_db st) !! id = None) ∧
    (statusx r ≠ 200%nat → st' = st) ∧
    (statusx r = 200%nat →
       ∃ a, apartados (st_db st) !! id = Some a ∧
            st' = with_db (with_apartados
                             (<[id := set_fechaCreacion (as_text env fecha) a]>
                                (apartados (st_db st)))
                             (st_db st)) st ∧
            (∀ s, fecha = JStr s → as_text env fecha = s ∧ date_shape s = true) ∧
            ap_montoTotal (set_fechaCreacion (as_text env fecha) a) = ap_montoTotal a ∧
            ap_estadoApartado (set_fechaCreacion (as_text env fecha) a) =
              ap_estadoApartado a ∧
            ap_fechaEntrega (set_fechaCreacion (as_text env fecha) a) =
              ap_fechaEntrega a).
Proof.
  rewrite servex_put_apartados_fecha.
  setoid_rewrite <- test_fecha_no_imprime. setoid_rewrite <- test_fecha_imprime.
  destruct (test_fecha fecha) eqn:T.
  - rewrite (test_fecha_truthy _ T). cbn [negb].
    destruct (apartados (st_db st) !! id) as [a|] eqn:E.
    + eexists _, _, _. split; [reflexivity|]. split; [reflexivity|]. cbn.
      split; [split; [intros _; split; [done|by eexists]|done]|].
      split; [done|]. split; [split; [done|by intros [_ ?]]|].
      split; [done|]. intros _. exists a. split; [done|]. split; [done|].
      split; [intros s ->; split; [done|exact T]|]. done.
    + eexists _, _, _. split; [reflexivity|]. split; [reflexivity|]. cbn.
      split; [split; [done|by intros [_ [? ?]]]|]. by repeat split.
  - destruct (truthy fecha); cbn [negb].
    all: eexists _, _, _; split; [reflexivity|]; split; [reflexivity|]; cbn.
    all: split; [split; [done|by intros [? _]]|].
    all: split; [done|]; split; [split; [done|by intros [? _]]|]; by split.
Qed.

End Fechas.

(** ** Deleting a sale or a layaway *)

Section Borrados.

Variable env : entorno.
Variable today : string.

(** X3.  [DELETE /api/ventas/:id] answers 200 exactly when the sale exists,
    and 404 with the store untouched when it does not.  On 200 the sale is
    gone and the other sales, the clients and the layaways are as before.
    Its payments go with it only if the connection enforces the foreign keys;
    otherwise every payment row stays, those of the deleted sale included. *)
Theorem delete_ventas_y_sus_abonos id st :
  ∃ st' tr r,
    servex env today (DELETE_ventas id) st = Some (st', tr) ∧
    responsesx tr = [r] ∧
    (statusx r = 200%nat ↔ is_Some (ventas (st_db st) !! id)) ∧
    (statusx r = 404%nat ↔ ventas (st_db st) !! id = None) ∧
    (statusx r = 404%nat → st' = st) ∧
    ventas (st_db st') = delete id (ventas (st_db st)) ∧
    clientes (st_db st') = clientes (st_db st) ∧
    apartados (st_db st') = apartados (st_db st) ∧
    (statusx r = 200%nat → foreign_keys env = true →
       ∀ a, a ∈ abonos (st_db st') ↔
            a ∈ abonos (st_db st) ∧ ab_ventaId a ≠ Some id) ∧
    (foreign_keys env = false → abonos (st_db st') = abonos (st_db st)).
Proof.
  rewrite servex_delete_ventas.
  destruct (ventas (st_db st) !! id) as [v|] eqn:E.
  - eexists _, _, _. split; [reflexivity|]. split; [reflexivity|]. cbn.
    split; [split; [by eauto|done]|]. split; [done|]. split; [done|].
    split; [done|]. split; [done|]. split; [done|].
    unfold tras_borrar. split.
    + intros _ ->. intros a. rewrite list_elem_of_filter. tauto.
    + by intros ->.
  - eexists _, _, _. split; [reflexivity|]. split; [reflexivity|]. cbn.
    split; [split; [done|by intros [? ?]]|]. split; [done|]. split; [done|].
    split; [by rewrite delete_id|]. by repeat split.
Qed.

(** X4.  The same for [DELETE /api/apartados/:id], whatever the state of the
    layaway. *)
Theorem delete_apartados_y_sus_abonos id st :
  ∃ st' tr r,
    servex env today (DELETE_apartados id) st = Some (st', tr) ∧
    responsesx tr = [r] ∧
    (statusx r = 200%nat ↔ is_Some (apartados (st_db st) !! id)) ∧
    (statusx r = 404%nat ↔ apartados (st_db st) !! id = None) ∧
    (statusx r = 404%nat → st' = st) ∧
    apartados (st_db st') = delete id (apartados (st_db st)) ∧
    clientes (st_db st') = clientes (st_db st) ∧
    ventas (st_db st') = ventas (st_db st) ∧
    (statusx r = 200%nat → foreign_keys env = true →
       ∀ a, a ∈ abonos (st_db st') ↔
            a ∈ abonos (st_db st) ∧ ab_apartadoId a ≠ Some id) ∧
    (foreign_keys env = false → abonos (st_db st') = abonos (st_db st)).
Proof.
  rewrite servex_delete_apartados.
  destruct (apartados (st_db st) !! id) as [v|] eqn:E.
  - eexists _, _, _. split; [reflexivity|]. split; [reflexivity|]. cbn.
    split; [split; [by eauto|done]|]. split; [done|]. split; [done|].
    split; [done|]. split; [done|]. split; [done|].
    unfold tras_borrar. split.
    + intros _ ->. intros a. rewrite list_elem_of_filter. tauto.
    + by intros ->.
  - eexists _, _, _. split; [reflexivity|]. split; [reflexivity|]. cbn.
    split; [split; [done|by intros [? ?]]|]. split; [done|]. split; [done|].
    split; [by rewrite delete_id|]. by repeat split.
Qed.

End Borrados.

(** ** The order of the listings *)

Lemma compare_refl s : String.compare s s = Eq.
Proof.
  pose proof (String.compare_antisym s s) as H.
  destruct (String.compare s s); done.
Qed.

Lemma compare_lt_trans s1 : ∀ s2 s3,
  String.compare s1 s2 = Lt → String.compare s2 s3 = Lt → String.compare s1 s3 = Lt.
Proof.
  induction s1 as [|a s1 IH]; intros [|b s2] [|c s3]; cbn; try done.
  unfold Ascii.compare.
  destruct (N.compare_spec (N_of_ascii a) (N_of_ascii b)) as [E1|L1|G1];
    destruct (N.compare_spec (N_of_ascii b) (N_of_ascii c)) as [E2|L2|G2];
    destruct (N.compare_spec (N_of_ascii a) (N_of_ascii c)) as [E3|L3|G3];
    try done; try lia; eauto.
Qed.

Lemma desc_fecha_id_total f1 i1 f2 i2 :
  desc_fecha_id f1 i1 f2 i2 = true ∨ desc_fecha_id f2 i2 f1 i1 = true.
Proof.
  unfold desc_fecha_id. rewrite (String.compare_antisym f1 f2).
  destruct (String.compare f2 f1); cbn; auto. lia.
Qed.

Lemma desc_fecha_id_trans f1 i1 f2 i2 f3 i3 :
  desc_fecha_id f1 i1 f2 i2 = true → desc_fecha_id f2 i2 f3 i3 = true →
  desc_fecha_id f1 i1 f3 i3 = true.
Proof.
  unfold desc_fecha_id.
  destruct (String.compare f2 f1) eqn:E1; [|  |done];
    destruct (String.compare f3 f2) eqn:E2; try done.
  - apply String.compare_eq_iff in E1, E2. subst. rewrite compare_refl. lia.
  - apply String.compare_eq_iff in E1. subst. by rewrite E2.
  - apply String.compare_eq_iff in E2. subst. by rewrite E1.
  - by rewrite (compare_lt_trans _ _ _ E2 E1).
Qed.

#[global] Instance venta_row_antes_total : Total venta_row_antes.
Proof. intros r1 r2. apply desc_fecha_id_total. Qed.
#[global] Instance venta_row_antes_trans : Transitive venta_row_antes.
Proof. intros r1 r2 r3. apply desc_fecha_id_trans. Qed.
#[global] Instance apartado_row_antes_total : Total apartado_row_antes.
Proof. intros r1 r2. apply desc_fecha_id_total. Qed.
#[global] Instance apartado_row_antes_trans : Transitive apartado_row_antes.
Proof. intros r1 r2 r3. apply desc_fecha_id_trans. Qed.
#[global] Instance abono_row_antes_total : Total abono_row_antes.
Proof. intros r1 r2. apply desc_fecha_id_total. Qed.
#[global] Instance abono_row_antes_trans : Transitive abono_row_antes.
Proof. intros r1 r2 r3. apply desc_fecha_id_trans. Qed.

Lemma ids_select_ventas_sublist db l :
  (vr_id <$> omap (venta_row_of db) l) `sublist_of` l.*1.
Proof.
  induction l as [|[id v] l IH]; [done|]. cbn [omap list_omap].
  destruct (venta_row_of db (id, v)) as [r|] eqn:E.
  - destruct (venta_row_of_Some _ _ _ _ E) as [<- _]. by apply sublist_skip.
  - by apply sublist_cons.
Qed.

Lemma ids_select_apartados_sublist db l :
  (ar_id <$> omap (apartado_row_of db) l) `sublist_of` l.*1.
Proof.
  induction l as [|[id a] l IH]; [done|]. cbn [omap list_omap].
  destruct (apartado_row_of db (id, a)) as [r|] eqn:E.
  - destruct (apartado_row_of_Some _ _ _ _ E) as [<- _]. by apply sublist_skip.
  - by apply sublist_cons.
Qed.

Lemma NoDup_ids_select_ventas db : NoDup (vr_id <$> select_ventas db).
Proof.
  unfold select_ventas. rewrite merge_sort_Permutation.
  eapply sublist_NoDup; [|apply ids_select_ventas_sublist].
  apply NoDup_fst_map_to_list.
Qed.

Lemma NoDup_ids_select_apartados db : NoDup (ar_id <$> select_apartados db).
Proof.
  unfold select_apartados. rewrite merge_sort_Permutation.
  eapply sublist_NoDup; [|apply ids_select_apartados_sublist].
  apply NoDup_fst_map_to_list.
Qed.

(** A row is joined to a client exactly when it holds the id of one. *)
Lemma join_cliente_Some db r :
  is_Some (join_cliente db r) ↔
  ∃ c, r = ClienteId c ∧ is_Some (clientes db !! c).
Proof.
  destruct r as [c|v]; cbn.
  - split; [by exists c|]. by intros (? & [= <-] & ?).
  - split; [by intros [? ?]|]. by intros (? & ? & ?).
Qed.

Section Orden.

Variable pf : jsval → num.
Variable pi : jsval → option Z.
Variable today : string.

(** X5.  The sales listing answers with the sales whose client exists, each
    once, the most recent date first and, within a date, the highest id
    first.  A sale whose client does not exist is not listed. *)
Theorem listado_ventas_ordenado db :
  ∃ db' rows ws,
    serve pf pi today GET_ventas db =
      Some (db', Respond (mkResponse 200 (SalesList rows)) db :: (Write <$> ws)) ∧
    StronglySorted venta_row_antes rows ∧
    NoDup (vr_id <$> rows) ∧
    (∀ id, id ∈ vr_id <$> rows ↔
       ∃ v c, ventas db !! id = Some v ∧ v_clienteId v = ClienteId c ∧
              is_Some (clientes db !! c)).
Proof.
  destruct (serve_get_ventas_closed pf pi today db) as [ws ->].
  eexists _, _, ws. split; [reflexivity|]. split; [|split].
  - apply (StronglySorted_fmap _ venta_row_antes venta_row_antes); [by intros [] []|].
    apply StronglySorted_merge_sort; apply _.
  - rewrite <- list_fmap_compose.
    replace (vr_id ∘ venta_actualizada) with vr_id by done.
    apply NoDup_ids_select_ventas.
  - intros id. rewrite <- list_fmap_compose.
    replace (vr_id ∘ venta_actualizada) with vr_id by done.
    rewrite list_elem_of_fmap. split.
    + intros (r & -> & (id' & v & Hv & Hr)%elem_of_select_ventas).
      destruct (venta_row_of_Some _ _ _ _ Hr) as (-> & _ & _ & _ & Hc).
      apply join_cliente_Some in Hc as (c & Hc & Hs). eauto.
    + intros (v & c & Hv & Hc & [cl Hcl]).
      destruct (venta_row_of db (id, v)) as [r|] eqn:Hr.
      * exists r. destruct (venta_row_of_Some _ _ _ _ Hr) as (-> & _).
        split; [done|]. apply elem_of_select_ventas. eauto.
      * cbn in Hr. rewrite Hc in Hr. cbn in Hr. by rewrite Hcl in Hr.
Qed.

(** X6.  The same holds of the layaways listing, ordered by creation date. *)
Theorem listado_apartados_ordenado db :
  ∃ db' rows ws,
    serve pf pi today GET_apartados db =
      Some (db', Respond (mkResponse 200 (LayawayList rows)) db :: (Write <$> ws)) ∧
    StronglySorted apartado_row_antes rows ∧
    NoDup (ar_id <$> rows) ∧
    (∀ id, id ∈ ar_id <$> rows ↔
       ∃ a c, apartados db !! id = Some a ∧ ap_clienteId a = ClienteId c ∧
              is_Some (clientes db !! c)).
Proof.
  destruct (serve_get_apartados_closed pf pi today db) as [ws ->].
  eexists _, _, ws. split; [reflexivity|]. split; [|split].
  - apply (StronglySorted_fmap _ apartado_row_antes apartado_row_antes);
      [by intros [] []|].
    apply StronglySorted_merge_sort; apply _.
  - rewrite <- list_fmap_compose.
    replace (ar_id ∘ apartado_actualizado) with ar_id by done.
    apply NoDup_ids_select_apartados.
  - intros id. rewrite <- list_fmap_compose.
    replace (ar_id ∘ apartado_actualizado) with ar_id by done.
    rewrite list_elem_of_fmap. split.
    + intros (r & -> & (id' & a & Ha & Hr)%elem_of_select_apartados).
      destruct (apartado_row_of_Some _ _ _ _ Hr) as (-> & _ & _ & _ & Hc).
      apply join_cliente_Some in Hc as (c & Hc & Hs). eauto.
    + intros (a & c & Ha & Hc & [cl Hcl]).
      destruct (apartado_row_of db (id, a)) as [r|] eqn:Hr.
      * exists r. destruct (apartado_row_of_Some _ _ _ _ Hr) as (-> & _).
        split; [done|]. apply elem_of_select_apartados. eauto.
      * cbn in Hr. rewrite Hc in Hr. cbn in Hr. by rewrite Hcl in Hr.
Qed.

End Orden.

(** ** The listing of the payments *)

Lemma abono_selected_spec q a :
  abono_selected (q_ventaId q) (q_apartadoId q) a = true ↔ pasa_filtros q a.
Proof.
  unfold abono_selected, pasa_filtros. rewrite andb_true_iff.
  destruct (q_ventaId q) as [v|], (q_apartadoId q) as [p|];
    rewrite ?bool_decide_eq_true; split.
  all: try (intros [H1 H2]; split; intros z [= <-]; done).
  all: try (intros [H1 H2]; split; intros z ?; done).
  all: intros [H1 H2]; split; auto.
Qed.

Lemma elem_of_select_abonos env q db r :
  r ∈ select_abonos env (q_ventaId q) (q_apartadoId q) db ↔
  ∃ a, a ∈ abonos db ∧ pasa_filtros q a ∧ r = abono_row_of env a.
Proof.
  unfold select_abonos. rewrite merge_sort_Permutation, list_elem_of_fmap.
  split.
  - intros (a & -> & Hin). apply list_elem_of_In, filter_In in Hin as [Hin Hs].
    exists a. by rewrite <- abono_selected_spec, list_elem_of_In.
  - intros (a & Hin & Hs & ->). exists a. split; [done|].
    apply list_elem_of_In, filter_In. by rewrite <- list_elem_of_In, abono_selected_spec.
Qed.

Section Listado_de_abonos.

Variable env : entorno.
Variable today : string.

(** X7.  [GET /api/abonos] changes nothing and answers 200 with the stored
    payments that pass every filter given, the most recent date first and,
    within a date, the highest id first; without filters it answers with all
    of them. *)
Theorem get_abonos_filtra q st :
  ∃ rows,
    servex env today (GET_abonos q) st =
      Some (st, [RespondX (mkResponseX 200 (PaymentsList rows)) st]) ∧
    StronglySorted abono_row_antes rows ∧
    (∀ r, r ∈ rows ↔
       ∃ a, a ∈ abonos (st_db st) ∧ pasa_filtros q a ∧ r = abono_row_of env a) ∧
    (length rows ≤ length (abonos (st_db st)))%nat ∧
    (q_ventaId q = None → q_apartadoId q = None →
       length rows = length (abonos (st_db st))).
Proof.
  rewrite servex_get_abonos. eexists. split; [reflexivity|].
  split; [apply StronglySorted_merge_sort; apply _|].
  split; [intros r; apply elem_of_select_abonos|].
  unfold select_abonos. rewrite merge_sort_Permutation, length_fmap. split.
  - apply length_filter_le.
  - intros -> ->. cbn. f_equal. induction (abonos (st_db st)); cbn; congruence.
Qed.

(** X8.  As long as every payment refers to a sale or to a layaway and not
    to both, which is what [chk_abono_referencia] demands, a listing filtered
    by a sale and by a layaway at once is empty. *)
Theorem get_abonos_dos_filtros st v p :
  refs_exclusivas (st_db st) →
  servex env today (GET_abonos (mkQuery (Some v) (Some p))) st =
    Some (st, [RespondX (mkResponseX 200 (PaymentsList [])) st]).
Proof.
  intros Hx. rewrite servex_get_abonos. cbn [q_ventaId q_apartadoId]. do 6 f_equal.
  apply elem_of_nil_inv. intros r.
  change (r ∈ select_abonos env (q_ventaId (mkQuery (Some v) (Some p)))
                (q_apartadoId (mkQuery (Some v) (Some p))) (st_db st) → False).
  rewrite elem_of_select_abonos. intros (a & Hin & [Hv Hp] & _).
  specialize (Hv v eq_refl). specialize (Hp p eq_refl).
  destruct (Hx a Hin) as [[_ ?]|[? _]]; congruence.
Qed.

End Listado_de_abonos.

Lemma get_abonos_dos_filtros_witness :
  refs_exclusivas (st_db st_ejemplo) ∧
  servex (env_ejemplo false) "2024-03-03" (GET_abonos (mkQuery (Some 1) (Some 1)))
    st_ejemplo =
  Some (st_ejemplo, [RespondX (mkResponseX 200 (PaymentsList [])) st_ejemplo]).
Proof.
  assert (refs_exclusivas (st_db st_ejemplo)) as H.
  { intros a Ha. cbn in Ha. apply list_elem_of_In in Ha.
    destruct Ha as [<-|[<-|[]]]; cbn; eauto. }
  split; [exact H|].
  exact (get_abonos_dos_filtros (env_ejemplo false) "2024-03-03" st_ejemplo 1 1 H).
Defined.

(** ** What a payment request writes *)

Lemma passes_validation_monto pf b :
  passes_validation pf b = true →
  js_gt (parseFloat pf (b_monto b)) 0%float = true.
Proof.
  unfold passes_validation. intros H.
  repeat (apply andb_prop in H as [H ?]).
  apply js_gt_zero; by apply negb_true_iff.
Qed.

Lemma abonos_con_abono db refType z m fecha comentarios :
  abonos (con_abono db refType (Some z) m fecha comentarios) =
  abonos db ++ [nuevo_abono db refType z m fecha comentarios].
Proof. by destruct refType. Qed.

Section Efecto.

Variable pf : jsval → num.
Variable pi : jsval → option Z.
Variable today : string.

Lemma serve_post_efecto b db :
  ∃ db' tr r,
    serve pf pi today (POST_abonos b) db = Some (db', tr) ∧
    responses tr = [r] ∧
    (status r ≠ 201%nat → db' = db) ∧
    (status r = 201%nat →
       ∃ refType z,
         let a := nuevo_abono db refType z (parseFloat pf (b_monto b))
                    (b_fecha b) (b_comentarios b) in
         referenced pi b = (refType, Some z) ∧
         is_Some (ref_lookup db refType (Some z)) ∧
         r = created pf b refType (Some z) db ∧
         abonos db' = abonos db ++ [a] ∧
         seq_abonos db' = ab_id a ∧
         js_gt (ab_monto a) 0%float = true ∧
         clientes db' = clientes db ∧
         match refType with
         | RefVenta =>
             apartados db' = apartados db ∧
             (ventas db' = ventas db ∨
              ventas db' = alter (set_estado Pagada) z (ventas db))
         | RefApartado =>
             ventas db' = ventas db ∧
             (apartados db' = apartados db ∨
              apartados db' = alter pagar z (apartados db))
         end).
Proof.
  destruct (passes_validation pf b) eqn:V.
  - rewrite serve_post_validado by done.
    destruct (referenced pi b) as [refType refId] eqn:R. cbn zeta.
    destruct (ref_lookup db refType refId) as [refInfo|] eqn:L.
    2:{ eexists _, _, _. split; [reflexivity|]. split; [reflexivity|]. by cbn. }
    destruct (js_gt _ _) eqn:G.
    { eexists _, _, _. split; [reflexivity|]. split; [reflexivity|]. by cbn. }
    destruct (ref_lookup_Some _ _ _ _ L) as [z ->].
    pose proof (passes_validation_monto _ _ V) as Hm.
    destruct (esPagada <$> _) as [[]|].
    + pose proof (exec_marcar_pagado refType z
                    (con_abono db refType (Some z) (parseFloat pf (b_monto b))
                       (b_fecha b) (b_comentarios b))) as E.
      destruct (exec _ _) as [res db2]. cbn [snd] in E. subst db2.
      eexists _, _, _. split; [reflexivity|]. split.
      { unfold responses. rewrite omap_app.
        fold (responses (written (marcar_pagado refType (Some z)) res)).
        by rewrite responses_written. }
      split; [done|]. intros _. exists refType, z. cbn zeta.
      split; [done|]. split; [by eauto|]. split; [done|].
      destruct refType; cbn; repeat split; auto.
    + eexists _, _, _. split; [reflexivity|]. split; [reflexivity|].
      split; [done|]. intros _. exists refType, z. cbn zeta.
      split; [done|]. split; [by eauto|]. split; [done|].
      destruct refType; cbn; repeat split; auto.
    + eexists _, _, _. split; [reflexivity|]. split; [reflexivity|].
      split; [done|]. intros _. exists refType, z. cbn zeta.
      split; [done|]. split; [by eauto|]. split; [done|].
      destruct refType; cbn; repeat split; auto.
  - destruct (serve_post_no_validado pf pi today b db V) as (r & -> & S & _).
    eexists _, _, r. split; [reflexivity|]. split; [reflexivity|].
    split; [done|]. rewrite S. done.
Qed.

(** The answer is 201 exactly for a validated body whose parent exists and
    whose amount is not above the balance plus 0.001. *)
Lemma serve_post_201 b db :
  ∃ db' tr r,
    serve pf pi today (POST_abonos b) db = Some (db', tr) ∧
    responses tr = [r] ∧
    (status r = 201%nat ↔
       passes_validation pf b = true ∧
       ∃ refInfo,
         ref_lookup db (referenced pi b).1 (referenced pi b).2 = Some refInfo ∧
         js_gt (parseFloat pf (b_monto b)) (js_add (saldo refInfo) epsilon)
           = false) ∧
    (status r ≠ 201%nat → db' = db) ∧
    (status r = 201%nat →
       ∃ refType z,
         let a := nuevo_abono db refType z (parseFloat pf (b_monto b))
                    (b_fecha b) (b_comentarios b) in
         referenced pi b = (refType, Some z) ∧
         is_Some (ref_lookup db refType (Some z)) ∧
         r = created pf b refType (Some z) db ∧
         abonos db' = abonos db ++ [a] ∧
         seq_abonos db' = ab_id a ∧
         js_gt (ab_monto a) 0%float = true ∧
         clientes db' = clientes db ∧
         match refType with
         | RefVenta =>
             apartados db' = apartados db ∧
             (ventas db' = ventas db ∨
              ventas db' = alter (set_estado Pagada) z (ventas db))
         | RefApartado =>
             ventas db' = ventas db ∧
             (apartados db' = apartados db ∨
              apartados db' = alter pagar z (apartados db))
         end).
Proof.
  destruct (serve_post_efecto b db)
    as (db' & tr & r & E & R & N & H).
  exists db', tr, r. split; [exact E|]. split; [exact R|].
  split; [|split; [exact N|]].
  - split.
    + intros S. destruct (H S) as (refType & z & Href & [info L] & _).
      destruct (passes_validation pf b) eqn:V.
      * split; [done|]. rewrite Href. cbn [fst snd]. exists info. split; [done|].
        rewrite serve_post_validado in E by done. rewrite Href in E. cbn zeta in E.
        rewrite L in E. destruct (js_gt _ _); [|done].
        injection E as <- <-. cbn in R. injection R as <-. done.
      * destruct (serve_post_no_validado pf pi today b db V) as (r' & E' & S' & _).
        rewrite E in E'. injection E' as _ ->. cbn in R. injection R as <-.
        rewrite S' in S. done.
    + intros (V & info & L & G). revert E R.
      rewrite serve_post_validado by done.
      destruct (referenced pi b) as [refType refId]. cbn [fst snd] in L.
      cbn zeta. rewrite L, G.
      destruct (esPagada <$> _) as [[]|].
      * destruct (exec _ _) as [res db2]. intros [= <- <-].
        unfold responses. cbn [omap list_omap].
        fold (responses (written (marcar_pagado refType refId) res)).
        rewrite responses_written. by intros [= <-].
      * intros [= <- <-]. by intros [= <-].
      * intros [= <- <-]. by intros [= <-].
  - exact H.
Qed.

Lemma ref_lookup_total_de db refType z :
  montoTotal <$> ref_lookup db refType (Some z) = total_de db refType z.
Proof.
  destruct refType; cbn; [unfold ref_venta|unfold ref_apartado].
  - by destruct (ventas db !! z).
  - by destruct (apartados db !! z).
Qed.

(** X9.  A payment request is answered with 201 exactly when its body passes
    the validation, its parent exists and the amount is not above the sum, as
    binary64 computes it, of 0.001 and the balance, which is the total of the
    parent less what its payments add up to.  If it is not, the database is
    left as it was.  If it is, exactly one payment row has been appended: its
    id is the next of the sequence, its amount the parsed amount, which is
    positive, and it refers to the one parent of the request.  Besides,
    nothing has changed but, possibly, the state of that parent: a sale set
    to 'Pagada', or a layaway taken from 'Apartado' to 'Pagado'. *)
Theorem pago_efecto b db :
  ∃ db' tr r,
    serve pf pi today (POST_abonos b) db = Some (db', tr) ∧
    responses tr = [r] ∧
    (status r = 201%nat ↔
       passes_validation pf b = true ∧
       ∃ z saldoPendiente,
         (referenced pi b).2 = Some z ∧
         saldo_de db (referenced pi b).1 z = Some saldoPendiente ∧
         js_gt (parseFloat pf (b_monto b)) (js_add saldoPendiente epsilon)
           = false) ∧
    (status r ≠ 201%nat → db' = db) ∧
    (status r = 201%nat →
       ∃ refType z,
         let a := nuevo_abono db refType z (parseFloat pf (b_monto b))
                    (b_fecha b) (b_comentarios b) in
         referenced pi b = (refType, Some z) ∧
         is_Some (total_de db refType z) ∧
         r = created pf b refType (Some z) db ∧
         abonos db' = abonos db ++ [a] ∧
         seq_abonos db' = ab_id a ∧
         js_gt (ab_monto a) 0%float = true ∧
         clientes db' = clientes db ∧
         match refType with
         | RefVenta =>
             apartados db' = apartados db ∧
             (ventas db' = ventas db ∨
              ventas db' = alter (set_estado Pagada) z (ventas db))
         | RefApartado =>
             ventas db' = ventas db ∧
             (apartados db' = apartados db ∨
              apartados db' = alter pagar z (apartados db))
         end).
Proof.
  destruct (serve_post_201 b db) as (db' & tr & r & E & R & I & N & H).
  exists db', tr, r. split; [exact E|]. split; [exact R|].
  split; [|split; [exact N|]].
  - rewrite I. split.
    + intros (V & info & L & G). split; [done|].
      destruct (ref_lookup_Some _ _ _ _ L) as [z Hz]. exists z, (saldo info).
      split; [done|]. split; [|done].
      rewrite <- ref_lookup_saldo_de, <- Hz, L. done.
    + intros (V & z & sp & Hz & Hs & G). split; [done|].
      rewrite <- ref_lookup_saldo_de, <- Hz in Hs.
      destruct (ref_lookup _ _ _) as [info|]; [|done].
      injection Hs as <-. by exists info.
  - intros S. destruct (H S) as (refType & z & Href & [info L] & Hrest).
    exists refType, z. split; [done|]. split; [|done].
    rewrite <- ref_lookup_total_de, L. by eexists.
Qed.

End Efecto.

(** ** Payments, listings and deletions together *)

Lemma responsesx_event_of st tr :
  responsesx (event_of st <$> tr) = response_of <$> responses tr.
Proof.
  induction tr as [|[] tr IH]; cbn; [done| |done|done].
  f_equal. apply IH.
Qed.

Lemma servex_antes_Some env today rq st st' tr :
  servex env today (Antes rq) st = Some (st', tr) →
  ∃ db' tr0,
    serve (env_parseFloat env) (env_parseInt env) today rq (st_db st) =
      Some (db', tr0) ∧
    st' = with_db db' st ∧ tr = event_of st <$> tr0.
Proof.
  rewrite servex_antes.
  destruct (serve _ _ _ _ _) as [[db' tr0]|]; [|done].
  intros [= <- <-]. by exists db', tr0.
Qed.

Section Composicion.

Variable env : entorno.

(** X10.  What a 201 announces is what the listing then shows: after a
    payment request answered with 201, the listing filtered by the parent of
    the payment has a row with the id, the parent and the amount of the
    response. *)
Theorem abono_creado_se_lista today today' b st st1 tr id ventaId apartadoId monto
    fecha comentarios :
  servex env today (Antes (POST_abonos b)) st = Some (st1, tr) →
  responsesx tr =
    [mkResponseX 201
       (Body (PaymentCreated id ventaId apartadoId monto fecha comentarios))] →
  ∃ rows row,
    servex env today' (GET_abonos (mkQuery ventaId apartadoId)) st1 =
      Some (st1, [RespondX (mkResponseX 200 (PaymentsList rows)) st1]) ∧
    row ∈ rows ∧
    pr_id row = id ∧ pr_ventaId row = ventaId ∧ pr_apartadoId row = apartadoId ∧
    pr_monto row = monto.
Proof.
  intros (db' & tr0 & E & -> & ->)%servex_antes_Some HR.
  rewrite responsesx_event_of in HR.
  destruct (serve_post_efecto (env_parseFloat env) (env_parseInt env) today b (st_db st))
    as (db2 & tr2 & r & E2 & Hr & _ & H201).
  rewrite E in E2. injection E2 as <- <-. rewrite Hr in HR.
  injection HR as S B. destruct r as [s bd]. cbn in S, B. subst s bd.
  destruct (H201 eq_refl) as (refType & z & _ & _ & Hc & Hab & _).
  injection Hc as -> -> -> -> -> ->.
  rewrite servex_get_abonos. eexists _, _. split; [reflexivity|].
  split.
  - apply (elem_of_select_abonos env (mkQuery _ _)).
    eexists. split; [|split; [|reflexivity]].
    + cbn. rewrite Hab. apply elem_of_app. right. apply list_elem_of_singleton.
      reflexivity.
    + destruct refType; split; cbn; intros ? [= <-]; done.
  - by destruct refType.
Qed.

(** X11.  Once a sale or a layaway has been deleted, or if it never existed,
    a valid payment for it is answered with 404 and nothing is written. *)
Theorem pago_tras_borrar today today' refType id b st st1 tr :
  servex env today (DELETE_de refType id) st = Some (st1, tr) →
  passes_validation (env_parseFloat env) b = true →
  referenced (env_parseInt env) b = (refType, Some id) →
  servex env today' (Antes (POST_abonos b)) st1 =
    Some (st1, [RespondX
                  (response_of (mkResponse 404 (RefNotFound refType (Some id))))
                  st1]).
Proof.
  intros D V R. rewrite servex_antes, serve_post_validado by done.
  rewrite R. cbn zeta.
  assert (ref_lookup (st_db st1) refType (Some id) = None) as ->.
  { destruct refType; cbn [DELETE_de] in D.
    - rewrite servex_delete_ventas in D. cbn. unfold ref_venta.
      destruct (ventas (st_db st) !! id) eqn:E; injection D as <- _; cbn.
      + by rewrite lookup_delete_eq.
      + by rewrite E.
    - rewrite servex_delete_apartados in D. cbn. unfold ref_apartado.
      destruct (apartados (st_db st) !! id) eqn:E; injection D as <- _; cbn.
      + by rewrite lookup_delete_eq.
      + by rewrite E. }
  cbn. unfold outcome_of. cbn. by rewrite with_db_st_db.
Qed.

(** X12.  The payments of a deleted sale or layaway: with the foreign keys
    enforced the listing filtered by it is empty afterwards; without them it
    is what it was before the deletion. *)
Theorem abonos_tras_borrar today today' refType id st st1 tr rows :
  is_Some (ref_lookup (st_db st) refType (Some id)) →
  servex env today (DELETE_de refType id) st = Some (st1, tr) →
  servex env today' (GET_abonos (abonos_de refType id)) st =
    Some (st, [RespondX (mkResponseX 200 (PaymentsList rows)) st]) →
  servex env today' (GET_abonos (abonos_de refType id)) st1 =
    Some (st1, [RespondX (mkResponseX 200
                            (PaymentsList (if foreign_keys env then [] else rows)))
                  st1]).
Proof.
  intros [i N] D. rewrite !servex_get_abonos. intros [= <-]. do 6 f_equal.
  destruct refType;
    cbn [DELETE_de abonos_de q_ventaId q_apartadoId ref_lookup mbind option_bind] in *.
  - rewrite servex_delete_ventas in D. unfold ref_venta in N.
    destruct (ventas (st_db st) !! id) as [v0|] eqn:E; injection D as <- <-; [|done].
    unfold select_abonos, tras_borrar. cbn.
    destruct (foreign_keys env); [|done].
    replace (List.filter _ _) with (@nil abono); [done|].
    symmetry. apply elem_of_nil_inv. intros x.
    rewrite list_elem_of_In, filter_In, <- list_elem_of_In, list_elem_of_filter.
    unfold abono_selected. intros [[Hn _] H]. apply Hn.
    rewrite andb_true_r in H. by apply bool_decide_eq_true in H.
  - rewrite servex_delete_apartados in D. unfold ref_apartado in N.
    destruct (apartados (st_db st) !! id) as [a0|] eqn:E; injection D as <- <-; [|done].
    unfold select_abonos, tras_borrar. cbn.
    destruct (foreign_keys env); [|done].
    replace (List.filter _ _) with (@nil abono); [done|].
    symmetry. apply elem_of_nil_inv. intros x.
    rewrite list_elem_of_In, filter_In, <- list_elem_of_In, list_elem_of_filter.
    unfold abono_selected. intros [[Hn _] H]. apply Hn.
    by apply bool_decide_eq_true in H.
Qed.

End Composicion.

(** ** Clients *)

Lemma le_foldr_max l x : x ∈ l → x ≤ foldr Z.max 0 l.
Proof.
  induction l as [|y l IH]; [by intros ?%elem_of_nil|].
  intros [->|H]%elem_of_cons; cbn; [lia|]. specialize (IH H). lia.
Qed.

Lemma le_max_id {A} (t : gmap Z A) j : is_Some (t !! j) → j ≤ max_id t.
Proof.
  intros [x Hx]. apply le_foldr_max, list_elem_of_fmap.
  exists (j, x). split; [done|]. by apply elem_of_map_to_list.
Qed.

Lemma lt_next_id {A} seq (t : gmap Z A) j : is_Some (t !! j) → j < next_id seq t.
Proof. intros H%le_max_id. unfold next_id. lia. Qed.

Lemma seq_lt_next_id {A} seq (t : gmap Z A) : seq < next_id seq t.
Proof. unfold next_id. lia. Qed.

Lemma next_id_fresh {A} seq (t : gmap Z A) : t !! next_id seq t = None.
Proof.
  destruct (t !! next_id seq t) eqn:E; [|done].
  assert (next_id seq t < next_id seq t) by (apply lt_next_id; eauto). lia.
Qed.

Lemma identificacion_taken_spec t i :
  identificacion_taken t i = true ↔
  ∃ s j c, i = Some s ∧ t !! j = Some c ∧ c_identificacion c = Some s.
Proof.
  destruct i as [s|]; cbn.
  - rewrite bool_decide_eq_true. unfold map_Exists. split.
    + intros (j & c & ? & ?). by exists s, j, c.
    + intros (s' & j & c & [= <-] & ? & ?). by exists j, c.
  - split; [done|]. by intros (? & ? & ? & ? & _).
Qed.

Section Rutas_de_clientes.

Variable env : entorno.
Variable today : string.

(** X13.  [POST /api/clientes] answers 400 when the name is missing or empty
    and when the identification given is that of a stored client; otherwise
    it answers 201 and stores the client under an id that no client has or
    has had.  It answers nothing else, and a 400 changes nothing.  A missing
    identification never clashes. *)
Theorem post_clientes_crea_o_rechaza b st :
  ∃ st' tr r,
    servex env today (POST_clientes b) st = Some (st', tr) ∧
    responsesx tr = [r] ∧
    (statusx r = 400%nat ∨ statusx r = 201%nat) ∧
    (statusx r = 400%nat ↔
       truthy (cb_nombre b) = false ∨
       ∃ s j c, sql_text env (cb_identificacion b) = Some s ∧
                clientes (st_db st) !! j = Some c ∧ c_identificacion c = Some s) ∧
    (statusx r = 400%nat → st' = st) ∧
    (statusx r = 201%nat →
       ∃ id,
         res_bodyx r = ClientCreated id (cb_nombre b) (cb_identificacion b)
                         (cb_telefono b) (cb_email b) ∧
         clientes (st_db st) !! id = None ∧
         (∀ j, is_Some (clientes (st_db st) !! j) → j < id) ∧
         seq_clientes st < id ∧ seq_clientes st' = id ∧
         clientes (st_db st') =
           <[id := mkCliente (as_text env (cb_nombre b))
                     (sql_text env (cb_identificacion b))
                     (sql_text env (cb_telefono b)) (sql_text env (cb_email b))]>
             (clientes (st_db st)) ∧
         ventas (st_db st') = ventas (st_db st) ∧
         apartados (st_db st') = apartados (st_db st) ∧
         abonos (st_db st') = abonos (st_db st)).
Proof.
  rewrite servex_post_clientes.
  destruct (truthy (cb_nombre b)) eqn:T; cbn [negb].
  - destruct (identificacion_taken _ _) eqn:I.
    + eexists _, _, _. split; [reflexivity|]. split; [reflexivity|]. cbn.
      split; [by left|]. split; [|by split].
      split; [|done]. intros _. right. by apply identificacion_taken_spec.
    + eexists _, _, _. split; [reflexivity|]. split; [reflexivity|]. cbn.
      split; [by right|]. split; [|split; [done|]].
      * split; [done|]. intros [?|H]; [done|].
        apply identificacion_taken_spec in H. congruence.
      * intros _. eexists. split; [reflexivity|].
        split; [apply next_id_fresh|]. split; [intros j; apply lt_next_id|].
        split; [apply seq_lt_next_id|]. done.
  - eexists _, _, _. split; [reflexivity|]. split; [reflexivity|]. cbn.
    split; [by left|]. split; [|by split]. split; [by left|done].
Qed.

(** X14.  [PUT /api/clientes/:id] answers 400 when neither [telefono] nor
    [email] is given and 404 when the client does not exist, changing
    nothing.  Otherwise it answers 200 with the stored row: a field that is
    given is replaced ([null] clears it), one that is not is kept, and the
    name and the identification are never touched.  The 400 of the
    safeguard of lines 186-189 is never sent. *)
Theorem put_clientes_solo_contacto id telefono email st :
  ∃ st' tr r,
    servex env today (PUT_clientes id telefono email) st = Some (st', tr) ∧
    responsesx tr = [r] ∧
    res_bodyx r ≠ NoFieldsProvided ∧
    (statusx r = 400%nat ↔
       is_undefined telefono = true ∧ is_undefined email = true) ∧
    (statusx r = 404%nat ↔
       ¬ (is_undefined telefono = true ∧ is_undefined email = true) ∧
       clientes (st_db st) !! id = None) ∧
    (statusx r ≠ 200%nat → st' = st) ∧
    (statusx r = 200%nat →
       ∃ c c',
         clientes (st_db st) !! id = Some c ∧
         res_bodyx r = ClienteActualizado (Some (mkClienteRow id c')) ∧
         st' = with_db (with_clientes (<[id := c']> (clientes (st_db st)))
                          (st_db st)) st ∧
         c_nombre c' = c_nombre c ∧
         c_identificacion c' = c_identificacion c ∧
         c_telefono c' =
           (if is_undefined telefono then c_telefono c else sql_text env telefono) ∧
         c_email c' =
           (if is_undefined email then c_email c else sql_text env email)).
Proof.
  rewrite servex_put_clientes.
  destruct (is_undefined telefono && is_undefined email) eqn:U.
  - apply andb_prop in U as [-> ->].
    eexists _, _, _. split; [reflexivity|]. split; [reflexivity|]. cbn.
    split; [done|]. split; [done|]. split; [|done].
    split; [done|]. intros [H _]. by destruct H.
  - assert (¬ (is_undefined telefono = true ∧ is_undefined email = true)) as N.
    { intros [H1 H2]. by rewrite H1, H2 in U. }
    destruct (clientes (st_db st) !! id) as [c|] eqn:E.
    + eexists _, _, _. split; [reflexivity|]. split; [reflexivity|]. cbn.
      split; [done|]. split; [split; [done|tauto]|].
      split; [split; [done|by intros [_ ?]]|]. split; [done|].
      intros _. eexists c, _. split; [done|]. split; [reflexivity|]. done.
    + eexists _, _, _. split; [reflexivity|]. split; [reflexivity|]. cbn.
      split; [done|]. split; [split; [done|tauto]|]. by repeat split.
Qed.

End Rutas_de_clientes.

(** ** Creating a sale or a layaway *)

Section Altas.

Variable env : entorno.
Variable today : string.

Lemma cliente_ref_of_spec v :
  (∀ c, integer_of env v = Some c → cliente_ref_of env v = ClienteId c) ∧
  (integer_of env v = None → cliente_ref_of env v = OtroValor v).
Proof. unfold cliente_ref_of. destruct (integer_of env v); split; congruence. Qed.

Lemma sin_cliente_true db r :
  sin_cliente env db r = true ↔ foreign_keys env = true ∧ join_cliente db r = None.
Proof.
  unfold sin_cliente. rewrite andb_true_iff, bool_decide_eq_true. done.
Qed.

Lemma sin_cliente_false db r :
  sin_cliente env db r = false →
  foreign_keys env = true → ∃ c, r = ClienteId c ∧ is_Some (clientes db !! c).
Proof.
  unfold sin_cliente. intros H F. rewrite F in H. cbn in H.
  apply bool_decide_eq_false in H. apply join_cliente_Some.
  by destruct (join_cliente db r).
Qed.

(** X15.  [POST /api/ventas] answers 400 exactly when a field is missing or
    the parsed amount is NaN or not above zero (an infinite amount passes).
    A valid body is answered with 201, but for one case: with the foreign
    keys enforced, a client reference that is not the id of a client gives
    500.  On 201 the sale is stored as 'Pendiente' with the parsed amount
    under an id that no sale has or has had, and nothing else changes; it
    holds the integer of its client reference, or, without foreign keys, the
    reference as it came when that is no integer; without foreign keys the
    client need not exist.  Every answer but 201 leaves the store as it
    was. *)
Theorem post_ventas_crea b st :
  let monto := parseFloat (env_parseFloat env) (vb_monto b) in
  let clienteId := cliente_ref_of env (vb_clienteId b) in
  ∃ st' tr r,
    servex env today (POST_ventas b) st = Some (st', tr) ∧
    responsesx tr = [r] ∧
    (statusx r = 400%nat ↔ venta_valida env b = false) ∧
    (statusx r = 400%nat ∨ statusx r = 500%nat ∨ statusx r = 201%nat) ∧
    (statusx r = 500%nat ↔
       venta_valida env b = true ∧ foreign_keys env = true ∧
       join_cliente (st_db st) clienteId = None) ∧
    (statusx r ≠ 201%nat → st' = st) ∧
    (statusx r = 201%nat →
       ∃ id,
         (∀ c, integer_of env (vb_clienteId b) = Some c →
            clienteId = ClienteId c) ∧
         (integer_of env (vb_clienteId b) = None →
            clienteId = OtroValor (vb_clienteId b)) ∧
         (foreign_keys env = true →
            ∃ c, clienteId = ClienteId c ∧ is_Some (clientes (st_db st) !! c)) ∧
         res_bodyx r = SaleCreated id (vb_clienteId b) (vb_producto b) monto
                         (vb_fecha b) Pendiente 0%float monto ∧
         js_gt monto 0%float = true ∧
         ventas (st_db st) !! id = None ∧
         (∀ j, is_Some (ventas (st_db st) !! j) → j < id) ∧
         seq_ventas st < id ∧ seq_ventas st' = id ∧
         ventas (st_db st') =
           <[id := mkVenta clienteId (as_text env (vb_producto b)) monto
                     (as_text env (vb_fecha b)) Pendiente]>
             (ventas (st_db st)) ∧
         clientes (st_db st') = clientes (st_db st) ∧
         apartados (st_db st') = apartados (st_db st) ∧
         abonos (st_db st') = abonos (st_db st)).
Proof.
  cbn zeta. rewrite servex_post_ventas. cbn zeta. unfold venta_valida.
  destruct (truthy (vb_clienteId b)); cbn [negb orb andb].
  2:{ eexists _, _, _. split; [reflexivity|]. split; [reflexivity|]. cbn.
      split; [done|]. split; [auto|]. split; [|done]. split; [done|by intros [? _]]. }
  destruct (truthy (vb_producto b)); cbn [negb orb andb].
  2:{ eexists _, _, _. split; [reflexivity|]. split; [reflexivity|]. cbn.
      split; [done|]. split; [auto|]. split; [|done]. split; [done|by intros [? _]]. }
  destruct (is_undefined (vb_monto b)); cbn [negb orb andb].
  { eexists _, _, _. split; [reflexivity|]. split; [reflexivity|]. cbn.
    split; [done|]. split; [auto|]. split; [|done]. split; [done|by intros [? _]]. }
  destruct (truthy (vb_fecha b)); cbn [negb orb andb].
  2:{ eexists _, _, _. split; [reflexivity|]. split; [reflexivity|]. cbn.
      split; [done|]. split; [auto|]. split; [|done]. split; [done|by intros [? _]]. }
  destruct (isNaN _) eqn:N; cbn [negb orb andb].
  { eexists _, _, _. split; [reflexivity|]. split; [reflexivity|]. cbn.
    split; [done|]. split; [auto|]. split; [|done]. split; [done|by intros [? _]]. }
  destruct (js_le _ _) eqn:L; cbn [negb orb andb].
  { eexists _, _, _. split; [reflexivity|]. split; [reflexivity|]. cbn.
    split; [done|]. split; [auto|]. split; [|done]. split; [done|by intros [? _]]. }
  destruct (sin_cliente env _ _) eqn:S.
  - apply sin_cliente_true in S as [F J].
    eexists _, _, _. split; [reflexivity|]. split; [reflexivity|]. cbn.
    split; [done|]. split; [auto|]. split; [done|]. done.
  - eexists _, _, _. split; [reflexivity|]. split; [reflexivity|]. cbn.
    split; [done|]. split; [auto|]. split.
    { split; [done|]. intros (_ & F & J).
      destruct (sin_cliente_false _ _ S F) as (c & Hc & [cl Hcl]).
      rewrite Hc in J. cbn in J. congruence. }
    split; [done|]. intros _.
    exists (next_id (seq_ventas st) (ventas (st_db st))).
    split; [apply cliente_ref_of_spec|]. split; [apply cliente_ref_of_spec|].
    split; [by apply sin_cliente_false|].
    split; [done|]. split; [by apply js_gt_zero|].
    split; [apply next_id_fresh|]. split; [intros j; apply lt_next_id|].
    split; [apply seq_lt_next_id|]. done.
Qed.

(** X16.  [POST /api/apartados] does the same for a layaway, which starts as
    'Apartado' without delivery date; the creation date is the one given or,
    when none is given, the date of the day. *)
Theorem post_apartados_crea b st :
  let montoTotal := parseFloat (env_parseFloat env) (pb_montoTotal b) in
  let fecha :=
    if truthy (pb_fechaCreacion b) then pb_fechaCreacion b else JStr today in
  let clienteId := cliente_ref_of env (pb_clienteId b) in
  ∃ st' tr r,
    servex env today (POST_apartados b) st = Some (st', tr) ∧
    responsesx tr = [r] ∧
    (statusx r = 400%nat ↔ apartado_valido env b = false) ∧
    (statusx r = 400%nat ∨ statusx r = 500%nat ∨ statusx r = 201%nat) ∧
    (statusx r = 500%nat ↔
       apartado_valido env b = true ∧ foreign_keys env = true ∧
       join_cliente (st_db st) clienteId = None) ∧
    (statusx r ≠ 201%nat → st' = st) ∧
    (statusx r = 201%nat →
       ∃ id,
         (∀ c, integer_of env (pb_clienteId b) = Some c →
            clienteId = ClienteId c) ∧
         (integer_of env (pb_clienteId b) = None →
            clienteId = OtroValor (pb_clienteId b)) ∧
         (foreign_keys env = true →
            ∃ c, clienteId = ClienteId c ∧ is_Some (clientes (st_db st) !! c)) ∧
         res_bodyx r = LayawayCreated id (pb_clienteId b) (pb_producto b)
                         montoTotal fecha Apartado 0%float montoTotal ∧
         js_gt montoTotal 0%float = true ∧
         apartados (st_db st) !! id = None ∧
         (∀ j, is_Some (apartados (st_db st) !! j) → j < id) ∧
         seq_apartados st < id ∧ seq_apartados st' = id ∧
         apartados (st_db st') =
           <[id := mkApartado clienteId (as_text env (pb_producto b)) montoTotal
                     (as_text env fecha) Apartado None]>
             (apartados (st_db st)) ∧
         clientes (st_db st') = clientes (st_db st) ∧
         ventas (st_db st') = ventas (st_db st) ∧
         abonos (st_db st') = abonos (st_db st)).
Proof.
  cbn zeta. rewrite servex_post_apartados. cbn zeta. unfold apartado_valido.
  destruct (truthy (pb_clienteId b)); cbn [negb orb andb].
  2:{ eexists _, _, _. split; [reflexivity|]. split; [reflexivity|]. cbn.
      split; [done|]. split; [auto|]. split; [|done]. split; [done|by intros [? _]]. }
  destruct (truthy (pb_producto b)); cbn [negb orb andb].
  2:{ eexists _, _, _. split; [reflexivity|]. split; [reflexivity|]. cbn.
      split; [done|]. split; [auto|]. split; [|done]. split; [done|by intros [? _]]. }
  destruct (is_undefined (pb_montoTotal b)); cbn [negb orb andb].
  { eexists _, _, _. split; [reflexivity|]. split; [reflexivity|]. cbn.
    split; [done|]. split; [auto|]. split; [|done]. split; [done|by intros [? _]]. }
  destruct (isNaN _) eqn:N; cbn [negb orb andb].
  { eexists _, _, _. split; [reflexivity|]. split; [reflexivity|]. cbn.
    split; [done|]. split; [auto|]. split; [|done]. split; [done|by intros [? _]]. }
  destruct (js_le _ _) eqn:L; cbn [negb orb andb].
  { eexists _, _, _. split; [reflexivity|]. split; [reflexivity|]. cbn.
    split; [done|]. split; [auto|]. split; [|done]. split; [done|by intros [? _]]. }
  destruct (sin_cliente env _ _) eqn:S.
  - apply sin_cliente_true in S as [F J].
    eexists _, _, _. split; [reflexivity|]. split; [reflexivity|]. cbn.
    split; [done|]. split; [auto|]. split; [done|]. done.
  - eexists _, _, _. split; [reflexivity|]. split; [reflexivity|]. cbn.
    split; [done|]. split; [auto|]. split.
    { split; [done|]. intros (_ & F & J).
      destruct (sin_cliente_false _ _ S F) as (c & Hc & [cl Hcl]).
      rewrite Hc in J. cbn in J. congruence. }
    split; [done|]. intros _.
    exists (next_id (seq_apartados st) (apartados (st_db st))).
    split; [apply cliente_ref_of_spec|]. split; [apply cliente_ref_of_spec|].
    split; [by apply sin_cliente_false|].
    split; [done|]. split; [by apply js_gt_zero|].
    split; [apply next_id_fresh|]. split; [intros j; apply lt_next_id|].
    split; [apply seq_lt_next_id|]. done.
Qed.

End Altas.

(** ** Every request as a series of changes *)

Lemma insert_as_imap {A} (t : gmap Z A) id x y :
  t !! id = Some x →
  <[id := y]> t = map_imap (λ j z, Some (if decide (j = id) then y else z)) t.
Proof.
  intros H. apply map_eq. intros j. rewrite map_lookup_imap, lookup_insert.
  case_decide as Hj; [subst j|].
  - rewrite H. cbn. by rewrite decide_True.
  - destruct (t !! j); cbn; [|done]. by rewrite decide_False.
Qed.

Lemma alter_as_imap {A} (f : A → A) (t : gmap Z A) id :
  alter f id t = map_imap (λ j z, Some (if decide (j = id) then f z else z)) t.
Proof.
  apply map_eq. intros j. rewrite map_lookup_imap, lookup_alter.
  case_decide as Hj; [subst j|].
  - destruct (t !! id); cbn; [|done]. by rewrite decide_True.
  - destruct (t !! j); cbn; [|done]. by rewrite decide_False.
Qed.

Lemma ventas_reconciliadas_imap db :
  ventas_reconciliadas db =
  map_imap (λ id v,
      Some (set_estado
              match venta_row_of db (id, v) with
              | Some r => vr_estado (venta_actualizada r)
              | None => v_estado v
              end v)) (ventas db).
Proof.
  apply map_eq. intros id. unfold ventas_reconciliadas. rewrite !map_lookup_imap.
  destruct (ventas db !! id) as [v|]; [|done]. cbn [mbind option_bind].
  destruct (venta_row_of db (id, v)); [done|]. by rewrite set_estado_id.
Qed.

Lemma alter_pagada_imap (t : gmap Z venta) z :
  alter (set_estado Pagada) z t =
  map_imap (λ id v,
      Some (set_estado (if decide (id = z) then Pagada else v_estado v) v)) t.
Proof.
  rewrite alter_as_imap. apply map_eq. intros j. rewrite !map_lookup_imap.
  destruct (t !! j) as [v|]; cbn; [|done]. case_decide; [done|].
  by rewrite set_estado_id.
Qed.

Lemma paso_apartado_pagar a : paso_apartado a (pagar a).
Proof.
  unfold pagar. case_bool_decide; [right; left; done|by left].
Qed.

Section Cambios.

Variable env : entorno.

Lemma cambios_marcar_pagado refType z st :
  rtc (cambio env) st
    (with_db (exec (marcar_pagado refType (Some z)) (st_db st)).2 st).
Proof.
  rewrite exec_marcar_pagado. destruct refType.
  - rewrite alter_pagada_imap. apply rtc_once, cambio_estados_ventas.
  - rewrite alter_as_imap. apply rtc_once.
    apply (cambio_apartados env st (λ j a, if decide (j = z) then pagar a else a)).
    intros id a _. case_decide; [apply paso_apartado_pagar|by left].
Qed.

Lemma serve_cambios today rq st db' tr :
  serve (env_parseFloat env) (env_parseInt env) today rq (st_db st) =
    Some (db', tr) →
  rtc (cambio env) st (with_db db' st).
Proof.
  destruct rq as [| |id|id|b].
  - destruct (serve_get_ventas_closed (env_parseFloat env) (env_parseInt env)
                today (st_db st)) as [ws ->].
    intros [= <- _]. rewrite ventas_reconciliadas_imap.
    apply rtc_once, cambio_estados_ventas.
  - destruct (serve_get_apartados_closed (env_parseFloat env) (env_parseInt env)
                today (st_db st)) as [ws ->].
    intros [= <- _]. apply rtc_once.
    apply (cambio_apartados env st
             (λ id a, match apartado_row_of (st_db st) (id, a) with
                      | Some r =>
                          set_estadoApartado
                            (ar_estadoApartado (apartado_actualizado r)) a
                      | None => a
                      end)).
    intros id a _. destruct (apartado_row_of _ _) as [r|] eqn:Hr; [|by left].
    rewrite (apartado_actualizado_estado _ _ _ _ Hr).
    destruct (_ && _); [apply paso_apartado_pagar|by left].
  - rewrite serve_entregar.
    destruct (apartados (st_db st) !! id) as [a|] eqn:E.
    + case_bool_decide as P; intros [= <- _].
      * cbn zeta. rewrite (insert_as_imap _ _ a) by done. apply rtc_once.
        apply (cambio_apartados env st
                 (λ j x, if decide (j = id) then set_entregado today a else x)).
        intros j x Hx. case_decide; [subst|by left].
        rewrite E in Hx. injection Hx as <-. right. right. left. eauto.
      * rewrite with_db_st_db. apply rtc_refl.
    + intros [= <- _]. rewrite with_db_st_db. apply rtc_refl.
  - rewrite serve_cancelar.
    destruct (apartados (st_db st) !! id) as [a|] eqn:E.
    + case_bool_decide as P; intros [= <- _].
      * cbn zeta. rewrite (insert_as_imap _ _ a) by done. apply rtc_once.
        apply (cambio_apartados env st
                 (λ j x, if decide (j = id) then set_estadoApartado Cancelado a
                         else x)).
        intros j x Hx. case_decide; [subst|by left].
        rewrite E in Hx. injection Hx as <-. right. right. right. eauto.
      * rewrite with_db_st_db. apply rtc_refl.
    + intros [= <- _]. rewrite with_db_st_db. apply rtc_refl.
  - destruct (serve_post_outcome (env_parseFloat env) (env_parseInt env) today b
                (st_db st)) as (db2 & tr2 & -> & Hout).
    intros [= <- _].
    destruct Hout as [->|(refType & z & refInfo & V & L & G & [->| ->])].
    + rewrite with_db_st_db. apply rtc_refl.
    + apply rtc_once. eapply cambio_abono; [done| |done].
      by apply passes_validation_monto.
    + eapply rtc_l.
      * eapply cambio_abono; [done| |done]. by apply passes_validation_monto.
      * apply (cambios_marcar_pagado refType z
                 (with_db (con_abono (st_db st) refType (Some z) _ _ _) st)).
Qed.

Lemma servex_cambios today rq st st' tr :
  servex env today rq st = Some (st', tr) → rtc (cambio env) st st'.
Proof.
  destruct rq as [rq|b|id telefono email|b|id fecha|id|b|id fecha|id|q].
  - intros (db' & tr0 & E & -> & _)%servex_antes_Some. by eapply serve_cambios.
  - rewrite servex_post_clientes.
    destruct (negb _); [intros [= <- _]; apply rtc_refl|].
    destruct (identificacion_taken _ _) eqn:I; intros [= <- _]; [apply rtc_refl|].
    apply rtc_once. by apply (cambio_cliente env st (mkCliente _ _ _ _)).
  - rewrite servex_put_clientes.
    destruct (_ && _); [intros [= <- _]; apply rtc_refl|].
    destruct (clientes (st_db st) !! id) as [c|] eqn:E; intros [= <- _];
      [|apply rtc_refl].
    apply rtc_once. by eapply cambio_contacto.
  - rewrite servex_post_ventas. cbn zeta.
    destruct (_ || _); [intros [= <- _]; apply rtc_refl|].
    destruct (isNaN _) eqn:N; [intros [= <- _]; apply rtc_refl|].
    destruct (js_le _ _) eqn:L; [intros [= <- _]; apply rtc_refl|]. cbn [orb].
    destruct (sin_cliente env _ _) eqn:S; intros [= <- _]; [apply rtc_refl|].
    apply rtc_once.
    apply (cambio_venta env st (mkVenta _ _ _ _ _)); [done|by apply js_gt_zero|done].
  - rewrite servex_put_ventas_fecha.
    destruct (negb _); [intros [= <- _]; apply rtc_refl|].
    destruct (negb _); [intros [= <- _]; apply rtc_refl|].
    destruct (ventas (st_db st) !! id) as [v|] eqn:E; intros [= <- _];
      [|apply rtc_refl].
    apply rtc_once. by apply cambio_fecha_venta.
  - rewrite servex_delete_ventas.
    destruct (ventas (st_db st) !! id) as [v|] eqn:E; intros [= <- _];
      [|apply rtc_refl].
    apply rtc_once. apply cambio_borra_venta. by rewrite E.
  - rewrite servex_post_apartados. cbn zeta.
    destruct (_ || _); [intros [= <- _]; apply rtc_refl|].
    destruct (isNaN _) eqn:N; [intros [= <- _]; apply rtc_refl|].
    destruct (js_le _ _) eqn:L; [intros [= <- _]; apply rtc_refl|]. cbn [orb].
    destruct (sin_cliente env _ _) eqn:S; intros [= <- _]; [apply rtc_refl|].
    apply rtc_once.
    apply (cambio_apartado env st (mkApartado _ _ _ _ _ _));
      [done|done|by apply js_gt_zero|done].
  - rewrite servex_put_apartados_fecha.
    destruct (negb _); [intros [= <- _]; apply rtc_refl|].
    destruct (negb _); [intros [= <- _]; apply rtc_refl|].
    destruct (apartados (st_db st) !! id) as [a|] eqn:E; intros [= <- _];
      [|apply rtc_refl].
    apply rtc_once. by apply cambio_fecha_apartado.
  - rewrite servex_delete_apartados.
    destruct (apartados (st_db st) !! id) as [a|] eqn:E; intros [= <- _];
      [|apply rtc_refl].
    apply rtc_once. apply cambio_borra_apartado. by rewrite E.
  - rewrite servex_get_abonos. intros [= <- _]. apply rtc_refl.
Qed.

(** Every request is served to the end. *)
Lemma servex_total today rq st : ∃ st' tr, servex env today rq st = Some (st', tr).
Proof.
  destruct rq as [rq|b|id telefono email|b|id fecha|id|b|id fecha|id|q].
  - rewrite servex_antes.
    destruct (serve_total (env_parseFloat env) (env_parseInt env) today rq (st_db st))
      as (db' & tr & ->). cbn. eauto.
  - rewrite servex_post_clientes.
    destruct (negb _); [eauto|]. destruct (identificacion_taken _ _); eauto.
  - rewrite servex_put_clientes.
    destruct (_ && _); [eauto|]. destruct (clientes (st_db st) !! id); eauto.
  - rewrite servex_post_ventas. cbn zeta.
    destruct (_ || _); [eauto|]. destruct (_ || _); [eauto|].
    destruct (sin_cliente env _ _); eauto.
  - rewrite servex_put_ventas_fecha.
    destruct (negb _); [eauto|]. destruct (negb _); [eauto|].
    destruct (ventas (st_db st) !! id); eauto.
  - rewrite servex_delete_ventas. destruct (ventas (st_db st) !! id); eauto.
  - rewrite servex_post_apartados. cbn zeta.
    destruct (_ || _); [eauto|]. destruct (_ || _); [eauto|].
    destruct (sin_cliente env _ _); eauto.
  - rewrite servex_put_apartados_fecha.
    destruct (negb _); [eauto|]. destruct (negb _); [eauto|].
    destruct (apartados (st_db st) !! id); eauto.
  - rewrite servex_delete_apartados. destruct (apartados (st_db st) !! id); eauto.
  - rewrite servex_get_abonos. eauto.
Qed.

Lemma serve_allx_total rqs : ∀ st, ∃ st', serve_allx env rqs st = Some st'.
Proof.
  induction rqs as [|[today rq] rqs IH]; intros st; [by exists st|].
  cbn. destruct (servex_total today rq st) as (st1 & tr & ->). apply IH.
Qed.

End Cambios.

(** ** Coherence of the store under the whole API *)

Lemma paso_apartado_montoTotal a a' :
  paso_apartado a a' → ap_montoTotal a' = ap_montoTotal a.
Proof.
  intros [->|[[_ ->]|[[_ [f ->]]|[_ ->]]]]; done.
Qed.

Lemma mismos_montos_igual db db' :
  abonos db' = abonos db → ventas db' = ventas db → apartados db' = apartados db →
  mismos_montos db db'.
Proof. intros Ha Hv Hp. split; [done|]. rewrite Hv, Hp. split; eauto. Qed.

Lemma mismos_montos_insert_venta db z v v1 :
  ventas db !! z = Some v → v_monto v1 = v_monto v →
  mismos_montos db (with_ventas (<[z := v1]> (ventas db)) db).
Proof.
  intros Hv Hm. split; [done|]. split; [|eauto]. intros id v'. cbn.
  rewrite lookup_insert. case_decide; subst; [|eauto]. intros [= <-]. eauto.
Qed.

Lemma coherente_mismos_montos st st' :
  seq_ventas st' = seq_ventas st → seq_apartados st' = seq_apartados st →
  mismos_montos (st_db st) (st_db st') →
  refs_exclusivas (st_db st) → ids_dados st →
  refs_exclusivas (st_db st') ∧ ids_dados st'.
Proof.
  intros Sv Sa (Hab & Hv & Ha) Hx (I1 & I2 & I3 & I4).
  split; [unfold refs_exclusivas; by rewrite Hab|].
  unfold ids_dados. rewrite Hab, Sv, Sa. repeat split; try done.
  - intros j [v' (v & Hlk & _)%Hv]. apply I1. by rewrite Hlk.
  - intros j [a' (a & Hlk & _)%Ha]. apply I2. by rewrite Hlk.
Qed.

Lemma filter_filter_ne {A} (P Q : A → Prop) `{∀ x, Decision (P x)}
    `{∀ x, Decision (Q x)} (l : list A) :
  (∀ x, x ∈ l → P x → Q x) → filter P (filter Q l) = filter P l.
Proof.
  induction l as [|x l IH]; intros HPQ; [done|].
  rewrite (filter_cons Q). destruct (decide (Q x)) as [q|nq].
  - rewrite !filter_cons. destruct (decide (P x)).
    + f_equal. apply IH. intros y Hy. apply HPQ. by right.
    + apply IH. intros y Hy. apply HPQ. by right.
  - rewrite (filter_cons P). destruct (decide (P x)) as [p|np].
    + destruct nq. apply HPQ; [by left|done].
    + apply IH. intros y Hy. apply HPQ. by right.
Qed.

Lemma filter_ninguno {A} (P : A → Prop) `{∀ x, Decision (P x)} (l : list A) :
  (∀ x, x ∈ l → ¬ P x) → filter P l = [].
Proof.
  induction l as [|x l IH]; intros HP; [done|].
  rewrite filter_cons. destruct (decide (P x)) as [p|np].
  - destruct (HP x); [by left|done].
  - apply IH. intros y Hy. apply HP. by right.
Qed.

(** Where an element of a filtered list comes from. *)
Lemma filter_app_cons_inv {A} (P : A → Prop) `{∀ x, Decision (P x)}
    (l : list A) : ∀ l1' a l2',
  filter P l = l1' ++ a :: l2' →
  ∃ l1 l2, l = l1 ++ a :: l2 ∧ filter P l1 = l1' ∧ P a.
Proof.
  induction l as [|x l IH]; intros l1' a l2' Hl; [by destruct l1'|].
  rewrite filter_cons in Hl. destruct (decide (P x)) as [p|np].
  - destruct l1' as [|y l1']; cbn in Hl; injection Hl as <- Hl.
    + by exists [], l.
    + destruct (IH _ _ _ Hl) as (l1 & l2 & -> & <- & Pa).
      exists (x :: l1), l2. split; [done|]. split; [|done].
      rewrite filter_cons. by rewrite decide_True.
  - destruct (IH _ _ _ Hl) as (l1 & l2 & -> & <- & Pa).
    exists (x :: l1), l2. split; [done|]. split; [|done].
    rewrite filter_cons. by rewrite decide_False.
Qed.

(** Taking away the payments of some parents, and those parents with them,
    keeps the other payments within the balance. *)
Lemma pagos_admitidos_filter db db' (P : abono → Prop) `{∀ x, Decision (P x)} :
  abonos db' = filter P (abonos db) →
  (∀ id v', ventas db' !! id = Some v' →
     (∃ v, ventas db !! id = Some v ∧ v_monto v' = v_monto v) ∧
     ∀ x, x ∈ abonos db → ab_ventaId x = Some id → P x) →
  (∀ id p', apartados db' !! id = Some p' →
     (∃ p, apartados db !! id = Some p ∧ ap_montoTotal p' = ap_montoTotal p) ∧
     ∀ x, x ∈ abonos db → ab_apartadoId x = Some id → P x) →
  pagos_admitidos db → pagos_admitidos db'.
Proof.
  intros Hab Hv Ha Ok l1' a l2' Hl. rewrite Hab in Hl.
  destruct (filter_app_cons_inv P _ _ _ _ Hl) as (l1 & l2 & Hl12 & <- & Pa).
  destruct (Ok l1 a l2 Hl12) as [Pv Pp]. split.
  - intros id v' Hid Hlk. destruct (Hv id v' Hlk) as [(v & Hlk0 & ->) HP].
    rewrite filter_filter_ne; [by eapply Pv|].
    intros x Hx. apply HP. rewrite Hl12. apply elem_of_app. by left.
  - intros id p' Hid Hlk. destruct (Ha id p' Hlk) as [(p & Hlk0 & ->) HP].
    rewrite filter_filter_ne; [by eapply Pp|].
    intros x Hx. apply HP. rewrite Hl12. apply elem_of_app. by left.
Qed.

(** A new sale or layaway, under an id that no payment names, leaves the
    payments within the balance. *)
Lemma pagos_admitidos_nuevo db db' :
  abonos db' = abonos db →
  (∀ id v', ventas db' !! id = Some v' →
     (∃ v, ventas db !! id = Some v ∧ v_monto v' = v_monto v) ∨
     ∀ x, x ∈ abonos db → ab_ventaId x ≠ Some id) →
  (∀ id p', apartados db' !! id = Some p' →
     (∃ p, apartados db !! id = Some p ∧ ap_montoTotal p' = ap_montoTotal p) ∨
     ∀ x, x ∈ abonos db → ab_apartadoId x ≠ Some id) →
  pagos_admitidos db → pagos_admitidos db'.
Proof.
  intros Hab Hv Ha Ok l1 a l2 Hl. rewrite Hab in Hl.
  destruct (Ok l1 a l2 Hl) as [Pv Pp].
  assert (a ∈ abonos db) as Hin by (rewrite Hl; set_solver).
  split.
  - intros id v' Hid Hlk. destruct (Hv id v' Hlk) as [(v & Hlk0 & ->)|Hno].
    + by eapply Pv.
    + by destruct (Hno a Hin).
  - intros id p' Hid Hlk. destruct (Ha id p' Hlk) as [(p & Hlk0 & ->)|Hno].
    + by eapply Pp.
    + by destruct (Hno a Hin).
Qed.

Section Coherencia.

Variable env : entorno.

Lemma elem_of_tras_borrar (parent : abono → option Z) id l a :
  a ∈ tras_borrar env parent id l → a ∈ l.
Proof.
  unfold tras_borrar. destruct (foreign_keys env); [|done].
  by intros [_ ?]%list_elem_of_filter.
Qed.

Lemma tras_borrar_filter (parent : abono → option Z) id l :
  tras_borrar env parent id l =
  filter (λ a, foreign_keys env = true → parent a ≠ Some id) l.
Proof.
  unfold tras_borrar. destruct (foreign_keys env).
  - apply list_filter_iff. intros x. split; [by intros ? _|]. intros H. by apply H.
  - induction l as [|x l IH]; [done|]. rewrite filter_cons_True by done. by f_equal.
Qed.

Lemma cambio_coherente st st' :
  cambio env st st' → coherente st → coherente st'.
Proof.
  intros C (Hid & Hx & Hpos & Hok).
  destruct C as [f|f Hf|refType z refInfo m fecha com L Hm G|c I|id c c' E N1 N2
                 |v Ev Hm Hc|id v fecha E|id E|a Ea Ef Hm Hc|id a fecha E|id E].
  - match goal with |- coherente ?s => set (st' := s) end.
    assert (mismos_montos (st_db st) (st_db st')) as M.
    { by apply (mismos_montos_with_ventas _ (λ id v, set_estado (f id v) v)). }
    destruct (coherente_mismos_montos st st' eq_refl eq_refl M Hx Hid)
      as [Hx' Hid'].
    split; [done|split; [done|split]].
    + by eapply abonos_positivos_mismos_montos.
    + by eapply pagos_admitidos_mismos_montos.
  - match goal with |- coherente ?s => set (st' := s) end.
    assert (mismos_montos (st_db st) (st_db st')) as M.
    { split; [done|]. split; [eauto|]. intros id a'. cbn.
      rewrite map_lookup_imap.
      destruct (apartados (st_db st) !! id) as [a|] eqn:E; cbn; [|done].
      intros [= <-]. exists a. split; [done|].
      by apply paso_apartado_montoTotal, Hf. }
    destruct (coherente_mismos_montos st st' eq_refl eq_refl M Hx Hid)
      as [Hx' Hid'].
    split; [done|split; [done|split]].
    + by eapply abonos_positivos_mismos_montos.
    + by eapply pagos_admitidos_mismos_montos.
  - pose proof (pagos_admitidos_con_abono (st_db st) refType z refInfo m fecha com
                  Hok L G) as Hok'.
    pose proof (abonos_positivos_con_abono (st_db st) refType (Some z) m fecha com
                  Hpos Hm) as Hpos'.
    destruct Hid as (I1 & I2 & I3 & I4).
    assert (match refType with
            | RefVenta => is_Some (ventas (st_db st) !! z)
            | RefApartado => is_Some (apartados (st_db st) !! z)
            end) as Hz.
    { destruct refType; cbn in L.
      - unfold ref_venta in L. by destruct (ventas (st_db st) !! z).
      - unfold ref_apartado in L. by destruct (apartados (st_db st) !! z). }
    split; [|split; [|done]].
    + repeat split; try done; cbn.
      * intros a y [Ha|Ha]%elem_of_app Hy; [by eapply I3|].
        apply list_elem_of_singleton in Ha as ->.
        destruct refType; cbn in Hy; [|done]. injection Hy as <-. by apply I1.
      * intros a y [Ha|Ha]%elem_of_app Hy; [by eapply I4|].
        apply list_elem_of_singleton in Ha as ->.
        destruct refType; cbn in Hy; [done|]. injection Hy as <-. by apply I2.
    + intros a. cbn. intros [Ha|Ha]%elem_of_app; [by apply Hx|].
      apply list_elem_of_singleton in Ha as ->.
      destruct refType; cbn; eauto.
  - done.
  - done.
  - destruct Hid as (I1 & I2 & I3 & I4).
    pose proof (seq_lt_next_id (seq_ventas st) (ventas (st_db st))) as Hs.
    split; [|split; [done|split; [done|]]].
    + repeat split; cbn.
      * intros j. rewrite lookup_insert. case_decide; [lia|].
        intros H'%I1. lia.
      * done.
      * intros a z Ha Hz. specialize (I3 a z Ha Hz). lia.
      * done.
    + eapply pagos_admitidos_nuevo; [| | |exact Hok]; [done| |by eauto].
      intros j v'. cbn. rewrite lookup_insert. case_decide as Hj; [subst j|by eauto].
      intros _. right. intros x Hin Hz. specialize (I3 x _ Hin Hz).
      unfold id in *. lia.
  - match goal with |- coherente ?s => set (st' := s) end.
    assert (mismos_montos (st_db st) (st_db st')) as M.
    { by apply (mismos_montos_insert_venta _ _ v). }
    destruct (coherente_mismos_montos st st' eq_refl eq_refl M Hx Hid)
      as [Hx' Hid'].
    split; [done|split; [done|split]].
    + by eapply abonos_positivos_mismos_montos.
    + by eapply pagos_admitidos_mismos_montos.
  - destruct Hid as (I1 & I2 & I3 & I4).
    split; [|split; [|split]].
    + repeat split; cbn.
      * intros j [x [_ Hj]%lookup_delete_Some]. apply I1. by rewrite Hj.
      * done.
      * intros a z Ha%elem_of_tras_borrar. by apply I3.
      * intros a z Ha%elem_of_tras_borrar. by apply I4.
    + intros a Ha%elem_of_tras_borrar. by apply Hx.
    + intros a Ha%elem_of_tras_borrar. by apply Hpos.
    + eapply pagos_admitidos_filter; [| | |exact Hok].
      * cbn. apply tras_borrar_filter.
      * intros j v'. cbn. intros [Hne Hj]%lookup_delete_Some.
        split; [by eauto|]. intros x _ Hxj _. congruence.
      * intros j p'. cbn. intros Hj. split; [by eauto|].
        intros x Hin Hxj _. destruct (Hx x Hin) as [[_ ?]|[? _]]; congruence.
  - destruct Hid as (I1 & I2 & I3 & I4).
    pose proof (seq_lt_next_id (seq_apartados st) (apartados (st_db st))) as Hs.
    split; [|split; [done|split; [done|]]].
    + repeat split; cbn.
      * done.
      * intros j. rewrite lookup_insert. case_decide; [lia|].
        intros H'%I2. lia.
      * done.
      * intros a' z Ha Hz. specialize (I4 a' z Ha Hz). lia.
    + eapply pagos_admitidos_nuevo; [| | |exact Hok]; [done|by eauto|].
      intros j p'. cbn. rewrite lookup_insert. case_decide as Hj; [subst j|by eauto].
      intros _. right. intros x Hin Hz. specialize (I4 x _ Hin Hz).
      unfold id in *. lia.
  - match goal with |- coherente ?s => set (st' := s) end.
    assert (mismos_montos (st_db st) (st_db st')) as M.
    { by apply (mismos_montos_insert_apartado _ _ a). }
    destruct (coherente_mismos_montos st st' eq_refl eq_refl M Hx Hid)
      as [Hx' Hid'].
    split; [done|split; [done|split]].
    + by eapply abonos_positivos_mismos_montos.
    + by eapply pagos_admitidos_mismos_montos.
  - destruct Hid as (I1 & I2 & I3 & I4).
    split; [|split; [|split]].
    + repeat split; cbn.
      * done.
      * intros j [x [_ Hj]%lookup_delete_Some]. apply I2. by rewrite Hj.
      * intros a z Ha%elem_of_tras_borrar. by apply I3.
      * intros a z Ha%elem_of_tras_borrar. by apply I4.
    + intros a Ha%elem_of_tras_borrar. by apply Hx.
    + intros a Ha%elem_of_tras_borrar. by apply Hpos.
    + eapply pagos_admitidos_filter; [| | |exact Hok].
      * cbn. apply tras_borrar_filter.
      * intros j v'. cbn. intros Hj. split; [by eauto|].
        intros x Hin Hxj _. destruct (Hx x Hin) as [[_ ?]|[? _]]; congruence.
      * intros j p'. cbn. intros [Hne Hj]%lookup_delete_Some.
        split; [by eauto|]. intros x _ Hxj _. congruence.
Qed.

Lemma cambios_coherente st st' :
  rtc (cambio env) st st' → coherente st → coherente st'.
Proof. induction 1; eauto using cambio_coherente. Qed.

Lemma serve_allx_coherente rqs : ∀ st st',
  serve_allx env rqs st = Some st' → coherente st → coherente st'.
Proof.
  induction rqs as [|[today rq] rqs IH]; intros st st'; cbn.
  - by intros [= <-].
  - destruct (servex env today rq st) as [[st1 tr]|] eqn:E; [|done].
    intros H C. apply (IH _ _ H).
    eapply cambios_coherente; [by eapply servex_cambios|done].
Qed.

(** X17.  Over the whole API the payments stay within the balance: from a
    coherent store, and so from the store of a new database, any sequence of
    requests, creations, date changes and deletions included, is served to
    the end and leads to a coherent store, in which every payment has exactly
    one parent and a positive amount, and every payment of a stored sale or
    layaway is not above the sum, as binary64 computes it, of 0.001 and the
    balance that the total of the parent and the payments before it leave. *)
Theorem api_mantiene_coherencia rqs st :
  coherente st →
  ∃ st',
    serve_allx env rqs st = Some st' ∧
    coherente st' ∧
    (∀ a, a ∈ abonos (st_db st') →
       js_gt (ab_monto a) 0%float = true ∧
       ((is_Some (ab_ventaId a) ∧ ab_apartadoId a = None) ∨
        (ab_ventaId a = None ∧ is_Some (ab_apartadoId a)))) ∧
    (∀ l1 a l2 id v,
       abonos (st_db st') = l1 ++ a :: l2 → ab_ventaId a = Some id →
       ventas (st_db st') !! id = Some v →
       js_gt (ab_monto a)
         (js_add
            (js_sub (v_monto v)
               (total_pagado
                  (ab_monto <$> filter (λ x, ab_ventaId x = Some id) l1)))
            epsilon) = false) ∧
    (∀ l1 a l2 id p,
       abonos (st_db st') = l1 ++ a :: l2 → ab_apartadoId a = Some id →
       apartados (st_db st') !! id = Some p →
       js_gt (ab_monto a)
         (js_add
            (js_sub (ap_montoTotal p)
               (total_pagado
                  (ab_monto <$> filter (λ x, ab_apartadoId x = Some id) l1)))
            epsilon) = false).
Proof.
  intros C. destruct (serve_allx_total env rqs st) as [st' H]. exists st'.
  split; [done|]. pose proof (serve_allx_coherente _ _ _ H C) as C'.
  split; [done|]. destruct C' as (_ & Hx & Hpos & Hok). split; [|split].
  - intros a Ha. split; [by apply Hpos|by apply Hx].
  - intros l1 a l2 id v Hl Hid Hv. by eapply (Hok l1 a l2 Hl).
  - intros l1 a l2 id p Hl Hid Hp. by eapply (Hok l1 a l2 Hl).
Qed.

End Coherencia.

Lemma coherente_st_vacio : coherente st_vacio.
Proof.
  split; [|split; [|split]].
  - repeat split; cbn; try (by intros ? [? ?%lookup_empty_Some]);
      by intros ? ? ?%elem_of_nil.
  - by intros ? ?%elem_of_nil.
  - by intros ? ?%elem_of_nil.
  - intros l1 a l2 Hl. by destruct l1.
Qed.

(** The test decides coherence. *)
Lemma coherente_test st : coherente_b st = true → coherente st.
Proof.
  unfold coherente_b.
  intros [[[[Hv Ha]%andb_prop Hr]%andb_prop Hp]%andb_prop Hb]%andb_prop.
  rewrite forallb_forall in Hv, Ha, Hr.
  split; [|split; [|split]].
  - repeat split.
    + intros j [v Hj]. apply Z.leb_le, Hv, list_elem_of_In, list_elem_of_fmap.
      exists (j, v). split; [done|]. by apply elem_of_map_to_list.
    + intros j [v Hj]. apply Z.leb_le, Ha, list_elem_of_In, list_elem_of_fmap.
      exists (j, v). split; [done|]. by apply elem_of_map_to_list.
    + intros a z Hin%list_elem_of_In%Hr Hz. rewrite Hz in Hin.
      destruct (ab_apartadoId a); [done|]. by apply Z.leb_le.
    + intros a z Hin%list_elem_of_In%Hr Hz. rewrite Hz in Hin.
      destruct (ab_ventaId a); [done|]. by apply Z.leb_le.
  - intros a Hin%list_elem_of_In%Hr.
    destruct (ab_ventaId a), (ab_apartadoId a); try done; [left|right]; eauto.
  - by apply abonos_positivos_test.
  - by apply pagos_admitidos_test.
Qed.

(** ** What never changes *)

Lemma puede_llegar_refl e : puede_llegar e e = true.
Proof. by destruct e. Qed.

Lemma puede_llegar_trans e1 e2 e3 :
  puede_llegar e1 e2 = true → puede_llegar e2 e3 = true →
  puede_llegar e1 e3 = true.
Proof. by destruct e1, e2, e3. Qed.

Lemma mismo_apartado_refl a : mismo_apartado a a.
Proof. repeat split. apply puede_llegar_refl. Qed.

Lemma misma_venta_refl v : misma_venta v v.
Proof. done. Qed.

Lemma paso_apartado_mismo a a' : paso_apartado a a' → mismo_apartado a a'.
Proof.
  intros [->|[[E ->]|[[E [f ->]]|[E ->]]]]; repeat split; cbn.
  - apply puede_llegar_refl.
  - by rewrite E.
  - by rewrite E.
  - by destruct E as [-> | ->].
Qed.

Lemma conserva_ventas_igual st st' :
  seq_ventas st' = seq_ventas st → ventas (st_db st') = ventas (st_db st) →
  conserva_ventas st st'.
Proof.
  intros S V. unfold conserva_ventas. rewrite S, V.
  split; [lia|]. split.
  - intros id v H. right. by exists v.
  - intros id [x Hx] H. congruence.
Qed.

Lemma conserva_apartados_igual st st' :
  seq_apartados st' = seq_apartados st →
  apartados (st_db st') = apartados (st_db st) →
  conserva_apartados st st'.
Proof.
  intros S A. unfold conserva_apartados. rewrite S, A.
  split; [lia|]. split.
  - intros id a H. right. exists a. split; [done|]. apply mismo_apartado_refl.
  - intros id [x Hx] H. congruence.
Qed.

Lemma conserva_refl st : conserva st st.
Proof. split; [by apply conserva_ventas_igual|by apply conserva_apartados_igual]. Qed.

Lemma conserva_claves st st' :
  claves_dadas st → conserva st st' → claves_dadas st'.
Proof.
  intros [K1 K2] [(S1 & _ & N1) (S2 & _ & N2)]. split.
  - intros j Hj. destruct (ventas (st_db st) !! j) as [v|] eqn:E.
    + assert (j ≤ seq_ventas st) by (apply K1; by rewrite E). lia.
    + by apply N1.
  - intros j Hj. destruct (apartados (st_db st) !! j) as [a|] eqn:E.
    + assert (j ≤ seq_apartados st) by (apply K2; by rewrite E). lia.
    + by apply N2.
Qed.

Lemma conserva_trans st st1 st2 :
  claves_dadas st → conserva st st1 → conserva st1 st2 → conserva st st2.
Proof.
  intros [K1 K2] [(S1 & V1 & N1) (S2 & A1 & N2)] [(S1' & V2 & N1') (S2' & A2 & N2')].
  split.
  - split; [lia|]. split.
    + intros id v Hv. destruct (V1 id v Hv) as [H1|(v1 & H1 & M1)].
      * destruct (ventas (st_db st2) !! id) as [v2|] eqn:E2; [|by left].
        assert (seq_ventas st1 < id ≤ seq_ventas st2)
          by (apply N1'; [by rewrite E2|done]).
        assert (id ≤ seq_ventas st) by (apply K1; by rewrite Hv). lia.
      * destruct (V2 id v1 H1) as [H2|(v2 & H2 & M2)]; [by left|].
        right. exists v2. split; [done|].
        destruct M1 as (? & ? & ?), M2 as (? & ? & ?). repeat split; congruence.
    + intros id H2 H0. destruct (ventas (st_db st1) !! id) as [v1|] eqn:E1.
      * assert (seq_ventas st < id ≤ seq_ventas st1)
          by (apply N1; [by rewrite E1|done]). lia.
      * assert (seq_ventas st1 < id ≤ seq_ventas st2) by (by apply N1'). lia.
  - split; [lia|]. split.
    + intros id a Ha. destruct (A1 id a Ha) as [H1|(a1 & H1 & M1)].
      * destruct (apartados (st_db st2) !! id) as [a2|] eqn:E2; [|by left].
        assert (seq_apartados st1 < id ≤ seq_apartados st2)
          by (apply N2'; [by rewrite E2|done]).
        assert (id ≤ seq_apartados st) by (apply K2; by rewrite Ha). lia.
      * destruct (A2 id a1 H1) as [H2|(a2 & H2 & M2)]; [by left|].
        right. exists a2. split; [done|].
        destruct M1 as (? & ? & ? & P1), M2 as (? & ? & ? & P2).
        repeat split; try congruence. by eapply puede_llegar_trans.
    + intros id H2 H0. destruct (apartados (st_db st1) !! id) as [a1|] eqn:E1.
      * assert (seq_apartados st < id ≤ seq_apartados st1)
          by (apply N2; [by rewrite E1|done]). lia.
      * assert (seq_apartados st1 < id ≤ seq_apartados st2) by (by apply N2'). lia.
Qed.

(** Rows rewritten in place, each into what [f] makes of it. *)
Lemma conserva_ventas_imap st st' (f : Z → venta → venta) :
  seq_ventas st' = seq_ventas st →
  ventas (st_db st') = map_imap (λ id v, Some (f id v)) (ventas (st_db st)) →
  (∀ id v, ventas (st_db st) !! id = Some v → misma_venta v (f id v)) →
  conserva_ventas st st'.
Proof.
  intros S V Hf. unfold conserva_ventas. rewrite S, V. split; [lia|]. split.
  - intros id v Hv. right. exists (f id v). rewrite map_lookup_imap, Hv.
    split; [done|]. by apply Hf.
  - intros id [x Hx] H. rewrite map_lookup_imap, H in Hx. done.
Qed.

Lemma conserva_apartados_imap st st' (f : Z → apartado → apartado) :
  seq_apartados st' = seq_apartados st →
  apartados (st_db st') = map_imap (λ id a, Some (f id a)) (apartados (st_db st)) →
  (∀ id a, apartados (st_db st) !! id = Some a → mismo_apartado a (f id a)) →
  conserva_apartados st st'.
Proof.
  intros S A Hf. unfold conserva_apartados. rewrite S, A. split; [lia|]. split.
  - intros id a Ha. right. exists (f id a). rewrite map_lookup_imap, Ha.
    split; [done|]. by apply Hf.
  - intros id [x Hx] H. rewrite map_lookup_imap, H in Hx. done.
Qed.

Section Conserva.

Variable env : entorno.

Lemma cambio_conserva st st' : cambio env st st' → conserva st st'.
Proof.
  intros C.
  destruct C as [f|f Hf|refType z refInfo m fecha com L Hm G|c I|id c c' E N1 N2
                 |v Ev Hm Hc|id v fecha E|id E|a Ea Ef Hm Hc|id a fecha E|id E].
  - split; [|by apply conserva_apartados_igual].
    by apply (conserva_ventas_imap _ _ (λ id v, set_estado (f id v) v)).
  - split; [by apply conserva_ventas_igual|].
    apply (conserva_apartados_imap _ _ f); [done|done|].
    intros id a Ha. by apply paso_apartado_mismo, Hf.
  - split; [by apply conserva_ventas_igual|by apply conserva_apartados_igual].
  - split; [by apply conserva_ventas_igual|by apply conserva_apartados_igual].
  - split; [by apply conserva_ventas_igual|by apply conserva_apartados_igual].
  - split; [|by apply conserva_apartados_igual].
    pose proof (seq_lt_next_id (seq_ventas st) (ventas (st_db st))) as Hs.
    pose proof (next_id_fresh (seq_ventas st) (ventas (st_db st))) as Hf.
    unfold conserva_ventas. cbn. split; [lia|]. split.
    + intros j x Hx. right. exists x. split; [|done].
      rewrite lookup_insert_ne; [done|]. intros Heq. rewrite <- Heq in Hx.
      unfold id in Hx. congruence.
    + intros j. rewrite lookup_insert. case_decide; [subst; intros _ _; lia|].
      intros [x Hx] ?. congruence.
  - split; [|by apply conserva_apartados_igual].
    unfold conserva_ventas. cbn. split; [lia|]. split.
    + intros j x Hx. right. rewrite lookup_insert.
      case_decide; [subst|exists x; by split].
      rewrite E in Hx. injection Hx as <-. eexists. split; [reflexivity|done].
    + intros j. rewrite lookup_insert. case_decide; [subst; congruence|].
      intros [x Hx] ?. congruence.
  - split; [|by apply conserva_apartados_igual].
    unfold conserva_ventas. cbn. split; [lia|]. split.
    + intros j x Hx. rewrite lookup_delete. case_decide; [by left|].
      right. by exists x.
    + intros j [x [_ Hx]%lookup_delete_Some] ?. congruence.
  - split; [by apply conserva_ventas_igual|].
    pose proof (seq_lt_next_id (seq_apartados st) (apartados (st_db st))) as Hs.
    pose proof (next_id_fresh (seq_apartados st) (apartados (st_db st))) as Hf.
    unfold conserva_apartados. cbn. split; [lia|]. split.
    + intros j x Hx. right. exists x. split; [|apply mismo_apartado_refl].
      rewrite lookup_insert_ne; [done|]. intros Heq. rewrite <- Heq in Hx.
      unfold id in Hx. congruence.
    + intros j. rewrite lookup_insert. case_decide; [subst; intros _ _; lia|].
      intros [x Hx] ?. congruence.
  - split; [by apply conserva_ventas_igual|].
    unfold conserva_apartados. cbn. split; [lia|]. split.
    + intros j x Hx. right. rewrite lookup_insert. case_decide; [subst|].
      * rewrite E in Hx. injection Hx as <-. eexists. split; [done|].
        repeat split. apply puede_llegar_refl.
      * exists x. split; [done|]. apply mismo_apartado_refl.
    + intros j. rewrite lookup_insert. case_decide; [subst; congruence|].
      intros [x Hx] ?. congruence.
  - split; [by apply conserva_ventas_igual|].
    unfold conserva_apartados. cbn. split; [lia|]. split.
    + intros j a Ha. rewrite lookup_delete. case_decide; [by left|].
      right. exists a. split; [done|]. apply mismo_apartado_refl.
    + intros j [x [_ Hx]%lookup_delete_Some] ?. congruence.
Qed.

Lemma cambios_conserva st st' :
  rtc (cambio env) st st' → claves_dadas st → conserva st st'.
Proof.
  induction 1 as [st|st st1 st2 C _ IH]; intros K; [apply conserva_refl|].
  pose proof (cambio_conserva _ _ C) as C1.
  eapply conserva_trans; [done|done|]. apply IH. by eapply conserva_claves.
Qed.

Lemma serve_allx_conserva rqs : ∀ st st',
  claves_dadas st → serve_allx env rqs st = Some st' → conserva st st'.
Proof.
  induction rqs as [|[today rq] rqs IH]; intros st st' K; cbn.
  - intros [= <-]. apply conserva_refl.
  - destruct (servex env today rq st) as [[st1 tr]|] eqn:E; [|done].
    intros H. apply servex_cambios, cambios_conserva in E; [|done].
    eapply conserva_trans; [done|done|]. apply IH; [|done].
    by eapply conserva_claves.
Qed.

(** X18.  Nothing in the API changes the amount, the product or the client
    of a sale or of a layaway, or moves a layaway backwards: any sequence of
    requests is served to the end, and after it a sale or layaway of the
    initial store is either deleted or has kept them, and a layaway that was
    'Pagado' is not 'Apartado' again, one that was 'Entregado' is 'Entregado'
    and one that was 'Cancelado' is 'Cancelado'.  Ids are not given out
    twice: a row that was not in the initial store has an id above the
    initial sequence. *)
Theorem api_conserva_filas rqs st :
  claves_dadas st →
  ∃ st', serve_allx env rqs st = Some st' ∧
  (∀ id v, ventas (st_db st) !! id = Some v →
     ventas (st_db st') !! id = None ∨
     ∃ v', ventas (st_db st') !! id = Some v' ∧
           v_clienteId v' = v_clienteId v ∧ v_producto v' = v_producto v ∧
           v_monto v' = v_monto v) ∧
  (∀ id a, apartados (st_db st) !! id = Some a →
     apartados (st_db st') !! id = None ∨
     ∃ a', apartados (st_db st') !! id = Some a' ∧
           ap_clienteId a' = ap_clienteId a ∧ ap_producto a' = ap_producto a ∧
           ap_montoTotal a' = ap_montoTotal a ∧
           puede_llegar (ap_estadoApartado a) (ap_estadoApartado a') = true ∧
           (ap_estadoApartado a = Entregado → ap_estadoApartado a' = Entregado) ∧
           (ap_estadoApartado a = Cancelado → ap_estadoApartado a' = Cancelado) ∧
           (ap_estadoApartado a = Pagado → ap_estadoApartado a' ≠ Apartado)) ∧
  (∀ id, is_Some (ventas (st_db st') !! id) → ventas (st_db st) !! id = None →
     seq_ventas st < id) ∧
  (∀ id, is_Some (apartados (st_db st') !! id) →
     apartados (st_db st) !! id = None → seq_apartados st < id).
Proof.
  intros K. destruct (serve_allx_total env rqs st) as [st' H]. exists st'.
  split; [exact H|].
  destruct (serve_allx_conserva _ _ _ K H) as [(_ & V & N1) (_ & A & N2)].
  split; [exact V|]. split; [|split].
  - intros id a Ha. destruct (A id a Ha) as [?|(a' & Ha' & ? & ? & ? & P)];
      [by left|].
    right. exists a'. repeat split; try done.
    + intros E. rewrite E in P. by destruct (ap_estadoApartado a').
    + intros E. rewrite E in P. by destruct (ap_estadoApartado a').
    + intros E E'. rewrite E, E' in P. done.
  - intros id H1 H2. by apply N1.
  - intros id H1 H2. by apply N2.
Qed.

End Conserva.

(** ** Delivery dates and identifications *)

Lemma paso_apartado_entrega a a' :
  paso_apartado a a' →
  (is_Some (ap_fechaEntrega a) ↔ ap_estadoApartado a = Entregado) →
  (is_Some (ap_fechaEntrega a') ↔ ap_estadoApartado a' = Entregado).
Proof.
  intros [->|[[E ->]|[[E [f ->]]|[E ->]]]] H; cbn; [done| | |].
  - rewrite E in H. split; [|done]. intros ?%H. done.
  - split; [done|]. by eexists.
  - split; [|done]. intros ?%H. destruct E; congruence.
Qed.

Section Invariantes_de_filas.

Variable env : entorno.

Lemma cambio_entrega_ok st st' :
  cambio env st st' → entrega_ok (st_db st) → entrega_ok (st_db st').
Proof.
  intros C Hok.
  destruct C as [f|f Hf|refType z refInfo m fecha com L Hm G|c I|id c c' E N1 N2
                 |v Ev Hm Hc|id v fecha E|id E|a Ea Ef Hm Hc|id a fecha E|id E];
    try exact Hok.
  - intros id a. cbn. rewrite map_lookup_imap.
    destruct (apartados (st_db st) !! id) as [a0|] eqn:E; [|done]. cbn.
    intros [= <-]. eapply paso_apartado_entrega; [by apply Hf|by eapply Hok].
  - intros j x. cbn. rewrite lookup_insert. case_decide; [|apply Hok].
    intros [= <-]. rewrite Ea, Ef. split; [by intros [? ?]|done].
  - intros j x. cbn. rewrite lookup_insert. case_decide; [subst|apply Hok].
    intros [= <-]. cbn. by eapply Hok.
  - intros j x. cbn. intros [_ Hj]%lookup_delete_Some. by eapply Hok.
Qed.

Lemma cambio_identificaciones st st' :
  cambio env st st' →
  identificaciones_unicas (st_db st) → identificaciones_unicas (st_db st').
Proof.
  intros C Hu.
  destruct C as [f|f Hf|refType z refInfo m fecha com L Hm G|c I|id c c' E N1 N2
                 |v Ev Hm Hc|id v fecha E|id E|a Ea Ef Hm Hc|id a fecha E|id E];
    try exact Hu.
  - intros i j x y s. cbn. rewrite !lookup_insert.
    assert (∀ k d, clientes (st_db st) !! k = Some d →
                   c_identificacion d = Some s → c_identificacion c ≠ Some s) as N.
    { intros k d Hk Hd Hc. rewrite Hc in I.
      assert (identificacion_taken (clientes (st_db st)) (Some s) = true);
        [|congruence].
      apply identificacion_taken_spec. by exists s, k, d. }
    repeat case_decide; subst.
    + done.
    + intros [= <-] Hy Hx Hy'. by destruct (N _ _ Hy Hy').
    + intros Hx [= <-] Hx' Hy. by destruct (N _ _ Hx Hx').
    + apply Hu.
  - intros i j x y s. cbn. rewrite !lookup_insert.
    repeat case_decide; subst.
    + done.
    + intros [= <-] Hy Hx Hy'. rewrite N2 in Hx. by eapply Hu.
    + intros Hx [= <-] Hx' Hy. rewrite N2 in Hy. by eapply Hu.
    + apply Hu.
Qed.

Lemma serve_allx_invariante (P : Store → Prop) :
  (∀ st st', cambio env st st' → P st → P st') →
  ∀ rqs st st', serve_allx env rqs st = Some st' → P st → P st'.
Proof.
  intros HP.
  assert (∀ st st', rtc (cambio env) st st' → P st → P st') as HP'.
  { induction 1; eauto. }
  induction rqs as [|[today rq] rqs IH]; intros st st'; cbn.
  - by intros [= <-].
  - destruct (servex env today rq st) as [[st1 tr]|] eqn:E; [|done].
    intros H Hst. apply (IH _ _ H). eapply HP'; [by eapply servex_cambios|done].
Qed.

(** X19.  Through any sequence of requests a layaway has a delivery date
    exactly when it is 'Entregado': the date is set by the delivery and by
    nothing else, and a delivered layaway stays delivered.  Every sequence
    of requests is served to the end. *)
Theorem api_fecha_entrega rqs st :
  entrega_ok (st_db st) →
  ∃ st', serve_allx env rqs st = Some st' ∧
    ∀ id a, apartados (st_db st') !! id = Some a →
      (is_Some (ap_fechaEntrega a) ↔ ap_estadoApartado a = Entregado).
Proof.
  intros H. destruct (serve_allx_total env rqs st) as [st' S]. exists st'.
  split; [exact S|].
  exact (serve_allx_invariante (λ s, entrega_ok (st_db s)) cambio_entrega_ok
           rqs st st' S H).
Qed.

(** X20.  Through any sequence of requests no two clients share an
    identification: creation refuses one that is stored, and the update
    touches only phone and email.  Every sequence of requests is served to
    the end. *)
Theorem api_identificaciones rqs st :
  identificaciones_unicas (st_db st) →
  ∃ st', serve_allx env rqs st = Some st' ∧
    ∀ i j c d s,
      clientes (st_db st') !! i = Some c → clientes (st_db st') !! j = Some d →
      c_identificacion c = Some s → c_identificacion d = Some s → i = j.
Proof.
  intros H. destruct (serve_allx_total env rqs st) as [st' S]. exists st'.
  split; [exact S|].
  exact (serve_allx_invariante (λ s, identificaciones_unicas (st_db s))
           cambio_identificaciones rqs st st' S H).
Qed.

End Invariantes_de_filas.

(** ** A new sale in the listing *)

Lemma servex_post_ventas_201 env today b st st' tr r :
  servex env today (POST_ventas b) st = Some (st', tr) →
  responsesx tr = [r] → statusx r = 201%nat →
  let monto := parseFloat (env_parseFloat env) (vb_monto b) in
  let id := next_id (seq_ventas st) (ventas (st_db st)) in
  isNaN monto = false ∧ js_le monto 0%float = false ∧
  sin_cliente env (st_db st) (cliente_ref_of env (vb_clienteId b)) = false ∧
  res_bodyx r = SaleCreated id (vb_clienteId b) (vb_producto b) monto (vb_fecha b)
                  Pendiente 0%float monto ∧
  st' = mkStore
          (with_ventas
             (<[id := mkVenta (cliente_ref_of env (vb_clienteId b))
                        (as_text env (vb_producto b)) monto
                        (as_text env (vb_fecha b)) Pendiente]>
                (ventas (st_db st))) (st_db st))
          (seq_clientes st) id (seq_apartados st).
Proof.
  rewrite servex_post_ventas. cbn zeta.
  destruct (_ || _); [by intros [= <- <-] [= <-]|].
  destruct (isNaN _) eqn:N; [by intros [= <- <-] [= <-]|].
  destruct (js_le _ _) eqn:L; [by intros [= <- <-] [= <-]|]. cbn [orb].
  destruct (sin_cliente env _ _) eqn:S; [by intros [= <- <-] [= <-]|].
  by intros [= <- <-] [= <-] _.
Qed.

(** The sales that a listing shows are those joined to a client. *)
Lemma elem_of_ids_select_ventas db id :
  id ∈ vr_id <$> select_ventas db ↔
  ∃ v, ventas db !! id = Some v ∧ is_Some (join_cliente db (v_clienteId v)).
Proof.
  rewrite list_elem_of_fmap. split.
  - intros (r & -> & (id' & v & Hv & Hr)%elem_of_select_ventas).
    destruct (venta_row_of_Some _ _ _ _ Hr) as (-> & _ & _ & _ & Hc). eauto.
  - intros (v & Hv & [c Hc]).
    destruct (venta_row_of db (id, v)) as [r|] eqn:Hr.
    + exists r. destruct (venta_row_of_Some _ _ _ _ Hr) as (-> & _).
      split; [done|]. apply elem_of_select_ventas. eauto.
    + cbn in Hr. by rewrite Hc in Hr.
Qed.

(** What a listing of the sales answers and leaves, over the store. *)
Lemma servex_get_ventas env today st :
  ∃ ws,
    servex env today (Antes GET_ventas) st =
      Some (with_db (with_ventas (ventas_reconciliadas (st_db st)) (st_db st)) st,
            RespondX (mkResponseX 200
                        (Body (SalesList (venta_actualizada <$>
                                            select_ventas (st_db st))))) st
              :: (WriteX <$> ws)).
Proof.
  rewrite servex_antes.
  destruct (serve_get_ventas_closed (env_parseFloat env) (env_parseInt env) today
              (st_db st)) as [ws ->].
  exists ws. cbn. unfold outcome_of. cbn. rewrite with_db_st_db. do 3 f_equal.
  rewrite <- list_fmap_compose. done.
Qed.

Section Alta_y_listado.

Variable env : entorno.

(** X21.  The 201 of a new sale and the listing that follows agree: in a
    store whose ids come from the sequences the new sale has no payment, and
    if its client exists the listing shows it, once, with the amount of the
    response, with [totalAbonado] 0 and with the amount as its balance, as
    the response announced.  Its state in the listing is 'Pagada', not the
    'Pendiente' of the response, exactly when the amount is at most 0.001.
    If its client does not exist, which the foreign keys not being enforced
    allow, the listing does not show it. *)
Theorem venta_nueva_en_el_listado today today' b st :
  ids_dados st →
  ∃ st' tr r,
    servex env today (POST_ventas b) st = Some (st', tr) ∧
    responsesx tr = [r] ∧
    (statusx r = 201%nat →
       let monto := parseFloat (env_parseFloat env) (vb_monto b) in
       let clienteId := cliente_ref_of env (vb_clienteId b) in
       ∃ id st2 rows ws,
         res_bodyx r = SaleCreated id (vb_clienteId b) (vb_producto b) monto
                         (vb_fecha b) Pendiente 0%float monto ∧
         pagos_de (st_db st') RefVenta id = [] ∧
         servex env today' (Antes GET_ventas) st' =
           Some (st2, RespondX (mkResponseX 200 (Body (SalesList rows))) st'
                        :: (WriteX <$> ws)) ∧
         (is_Some (join_cliente (st_db st) clienteId) →
            ∃ row, row ∈ rows ∧ vr_id row = id ∧
              (∀ row', row' ∈ rows → vr_id row' = id → row' = row) ∧
              vr_monto row = monto ∧ vr_totalAbonado row = 0%float ∧
              vr_saldoPendiente row = Some monto ∧
              (vr_estado row = Pagada ↔ js_le monto epsilon = true)) ∧
         (join_cliente (st_db st) clienteId = None →
            ∀ row, row ∈ rows → vr_id row ≠ id)).
Proof.
  intros (I1 & I2 & I3 & I4).
  destruct (servex_total env today (POST_ventas b) st) as (st' & tr & E).
  assert (∃ r, responsesx tr = [r]) as [r R].
  { revert E. rewrite servex_post_ventas. cbn zeta.
    destruct (_ || _); [intros [= <- <-]; by eexists|].
    destruct (_ || _); [intros [= <- <-]; by eexists|].
    destruct (sin_cliente env _ _); intros [= <- <-]; by eexists. }
  exists st', tr, r. split; [done|]. split; [done|]. intros S. cbn zeta.
  destruct (servex_post_ventas_201 _ _ _ _ _ _ _ E R S)
    as (N & L & Hsin & Hbody & ->).
  set (id := next_id (seq_ventas st) (ventas (st_db st))) in *.
  set (monto := parseFloat (env_parseFloat env) (vb_monto b)) in *.
  set (clienteId := cliente_ref_of env (vb_clienteId b)) in *.
  set (v := mkVenta clienteId (as_text env (vb_producto b)) monto
              (as_text env (vb_fecha b)) Pendiente).
  set (db' := with_ventas (<[id := v]> (ventas (st_db st))) (st_db st)).
  assert (pagos_de db' RefVenta id = []) as Hp.
  { cbn. rewrite filter_ninguno; [done|].
    intros a Ha Hz. specialize (I3 a _ Ha Hz).
    pose proof (seq_lt_next_id (seq_ventas st) (ventas (st_db st))).
    unfold id in *. lia. }
  assert (∀ r0, join_cliente db' r0 = join_cliente (st_db st) r0) as Hj
    by (by intros []).
  destruct (servex_get_ventas env today'
              (mkStore db' (seq_clientes st) id (seq_apartados st))) as [ws Hl].
  eexists id, _, _, ws. split; [exact Hbody|]. split; [exact Hp|].
  split; [exact Hl|]. cbn [st_db].
  assert (ventas db' !! id = Some v) as Hv by apply lookup_insert_eq.
  split.
  - intros [c Hc].
    assert (venta_row_of db' (id, v) =
            Some (mkVentaRow id clienteId (as_text env (vb_producto b)) monto
                    (as_text env (vb_fecha b)) Pendiente (c_nombre c) 0%float
                    (Some monto))) as Hr.
    { assert (abonos_de_venta db' id = []) as Hab.
      { change (abonos_de_venta db' id) with (montos_de db' RefVenta id).
        unfold montos_de. by rewrite Hp. }
      unfold venta_row_of. rewrite Hj. change (v_clienteId v) with clienteId.
      rewrite Hc. cbn [mbind option_bind]. rewrite Hab.
      cbn [SUM IFNULL default]. unfold sql_sub, sqlite_real.
      rewrite js_sub_zero. change (v_monto v) with monto. by rewrite N. }
    eexists. split.
    { apply list_elem_of_fmap. eexists. split; [reflexivity|].
      apply elem_of_select_ventas. by exists id, v. }
    split; [done|]. split.
    { intros row' (r' & -> & Hr')%list_elem_of_fmap Hid'.
      apply elem_of_select_ventas in Hr' as (id' & v' & Hv' & Hr').
      destruct (venta_row_of_Some _ _ _ _ Hr') as (Hid2 & _).
      cbn in Hid'. subst id'. rewrite Hid', Hv in Hv'. injection Hv' as <-.
      rewrite Hid', Hr in Hr'. by injection Hr' as <-. }
    split; [done|]. split; [done|]. split; [done|].
    cbn. by destruct (js_le monto epsilon).
  - intros Hn row (r' & -> & Hr')%list_elem_of_fmap Hid'.
    apply elem_of_select_ventas in Hr' as (id' & v' & Hv' & Hr').
    destruct (venta_row_of_Some _ _ _ _ Hr') as (Hid2 & _ & _ & _ & [x Hx]).
    cbn in Hid'. subst id'. rewrite Hid', Hv in Hv'. injection Hv' as <-.
    rewrite Hj in Hx. cbn in Hx. fold clienteId in Hx. congruence.
Qed.

End Alta_y_listado.

(** ** One response per request *)

Lemma responsesx_writes r st ws :
  responsesx (RespondX r st :: (WriteX <$> ws)) = [r].
Proof. cbn. f_equal. induction ws; [done|]. cbn. done. Qed.

Lemma serve_una_respuesta pf pi today rq db :
  ∃ db' tr r,
    serve pf pi today rq db = Some (db', tr) ∧ responses tr = [r] ∧
    ((400 ≤ status r)%nat → db' = db).
Proof.
  destruct rq as [| |id|id|b].
  - destruct (serve_get_ventas_closed pf pi today db) as [ws ->].
    eexists _, _, _. split; [reflexivity|]. split.
    + cbn. f_equal. induction ws; [done|]. cbn. done.
    + cbn. lia.
  - destruct (serve_get_apartados_closed pf pi today db) as [ws ->].
    eexists _, _, _. split; [reflexivity|]. split.
    + cbn. f_equal. induction ws; [done|]. cbn. done.
    + cbn. lia.
  - rewrite serve_entregar. destruct (apartados db !! id) as [a|].
    + case_bool_decide; eexists _, _, _; (split; [reflexivity|]);
        (split; [reflexivity|]); cbn; [lia|done].
    + eexists _, _, _. split; [reflexivity|]. by split.
  - rewrite serve_cancelar. destruct (apartados db !! id) as [a|].
    + case_bool_decide; eexists _, _, _; (split; [reflexivity|]);
        (split; [reflexivity|]); cbn; [lia|done].
    + eexists _, _, _. split; [reflexivity|]. by split.
  - destruct (serve_post_efecto pf pi today b db) as (db' & tr & r & E & R & N & _).
    exists db', tr, r. split; [done|]. split; [done|].
    intros H. apply N. lia.
Qed.
Section Respuestas.

Variable env : entorno.
Variable today : string.

(** X22.  Every request of the API is served to the end and answered exactly
    once, and an error answer, 400 or above, means that the store is as it
    was. *)
Theorem api_una_respuesta rq st :
  ∃ st' tr r,
    servex env today rq st = Some (st', tr) ∧
    responsesx tr = [r] ∧ ((400 ≤ statusx r)%nat → st' = st).
Proof.
  destruct rq as [rq|b|id telefono email|b|id fecha|id|b|id fecha|id|q].
  - rewrite servex_antes.
    destruct (serve_una_respuesta (env_parseFloat env) (env_parseInt env) today rq
                (st_db st)) as (db' & tr & r & -> & R & N).
    cbn. eexists _, _, (response_of r). split; [reflexivity|]. cbn.
    rewrite responsesx_event_of, R.
    split; [done|]. cbn. intros ->%N. apply with_db_st_db.
  - rewrite servex_post_clientes.
    destruct (negb _); [eexists _, _, _; split; [reflexivity|]; by split|].
    destruct (identificacion_taken _ _); eexists _, _, _; (split; [reflexivity|]);
      (split; [reflexivity|]); cbn; [done|lia].
  - rewrite servex_put_clientes.
    destruct (_ && _); [eexists _, _, _; split; [reflexivity|]; by split|].
    destruct (clientes (st_db st) !! id); eexists _, _, _; (split; [reflexivity|]);
      (split; [reflexivity|]); cbn; [lia|done].
  - rewrite servex_post_ventas. cbn zeta.
    destruct (_ || _); [eexists _, _, _; split; [reflexivity|]; by split|].
    destruct (_ || _); [eexists _, _, _; split; [reflexivity|]; by split|].
    destruct (sin_cliente env _ _); eexists _, _, _; (split; [reflexivity|]);
      (split; [reflexivity|]); cbn; [done|lia].
  - rewrite servex_put_ventas_fecha.
    destruct (negb _); [eexists _, _, _; split; [reflexivity|]; by split|].
    destruct (negb _); [eexists _, _, _; split; [reflexivity|]; by split|].
    destruct (ventas (st_db st) !! id); eexists _, _, _; (split; [reflexivity|]);
      (split; [reflexivity|]); cbn; [lia|done].
  - rewrite servex_delete_ventas.
    destruct (ventas (st_db st) !! id); eexists _, _, _; (split; [reflexivity|]);
      (split; [reflexivity|]); cbn; [lia|done].
  - rewrite servex_post_apartados. cbn zeta.
    destruct (_ || _); [eexists _, _, _; split; [reflexivity|]; by split|].
    destruct (_ || _); [eexists _, _, _; split; [reflexivity|]; by split|].
    destruct (sin_cliente env _ _); eexists _, _, _; (split; [reflexivity|]);
      (split; [reflexivity|]); cbn; [done|lia].
  - rewrite servex_put_apartados_fecha.
    destruct (negb _); [eexists _, _, _; split; [reflexivity|]; by split|].
    destruct (negb _); [eexists _, _, _; split; [reflexivity|]; by split|].
    destruct (apartados (st_db st) !! id); eexists _, _, _; (split; [reflexivity|]);
      (split; [reflexivity|]); cbn; [lia|done].
  - rewrite servex_delete_apartados.
    destruct (apartados (st_db st) !! id); eexists _, _, _; (split; [reflexivity|]);
      (split; [reflexivity|]); cbn; [lia|done].
  - rewrite servex_get_abonos. eexists _, _, _. split; [reflexivity|].
    split; [reflexivity|]. cbn. lia.
Qed.

End Respuestas.

(** ** The layaways listing, sales without client, payments that stay *)

Section Mas_listados.

Variable pf : jsval → num.
Variable pi : jsval → option Z.
Variable today : string.


End Mas_listados.

Section Sin_cliente.

Variable env : entorno.

(** X24.  Without foreign keys a sale can be created for a client that does
    not exist: the request is answered with 201 and the sale is stored with
    the client reference as it came, and payments can refer to it.  Whatever
    requests follow, the sale keeps that reference as long as it is stored,
    and a listing of the sales shows it exactly when a client has been
    created under that id in the meantime; as long as none has, or if the
    reference is no integer, no listing shows it and no listing changes its
    state. *)
Theorem venta_sin_cliente_no_se_lista today today' b st rqs :
  foreign_keys env = false →
  venta_valida env b = true →
  join_cliente (st_db st) (cliente_ref_of env (vb_clienteId b)) = None →
  claves_dadas st →
  ∃ st' id r v,
    servex env today (POST_ventas b) st = Some (st', [WriteX 1; RespondX r st']) ∧
    statusx r = 201%nat ∧
    ventas (st_db st') !! id = Some v ∧
    v_clienteId v = cliente_ref_of env (vb_clienteId b) ∧
    is_Some (saldo_de (st_db st') RefVenta id) ∧
    ∃ st1,
      serve_allx env rqs st' = Some st1 ∧
      ∀ v1, ventas (st_db st1) !! id = Some v1 →
        v_clienteId v1 = v_clienteId v ∧
        ∃ st2 rows ws,
          servex env today' (Antes GET_ventas) st1 =
            Some (st2, RespondX (mkResponseX 200 (Body (SalesList rows))) st1
                         :: (WriteX <$> ws)) ∧
          (id ∈ vr_id <$> rows ↔
             ∃ c, v_clienteId v = ClienteId c ∧
                  is_Some (clientes (st_db st1) !! c)) ∧
          ((∀ c, v_clienteId v = ClienteId c → clientes (st_db st1) !! c = None) →
             (id ∉ vr_id <$> rows) ∧ ventas (st_db st2) !! id = Some v1).
Proof.
  intros F V J K.
  destruct (servex_total env today (POST_ventas b) st) as (st' & tr & E).
  pose proof E as E0. revert E0.
  unfold venta_valida in V.
  repeat (apply andb_prop in V as [V ?]).
  repeat match goal with H : negb _ = true |- _ => apply negb_true_iff in H end.
  rewrite servex_post_ventas. cbn zeta.
  repeat match goal with H : _ = true |- _ => rewrite H end.
  repeat match goal with H : _ = false |- _ => rewrite H end.
  cbn [negb orb andb].
  assert (sin_cliente env (st_db st) (cliente_ref_of env (vb_clienteId b)) = false)
    as -> by (unfold sin_cliente; by rewrite F).
  intros [= Hst' <-].
  set (id := next_id (seq_ventas st) (ventas (st_db st))) in *.
  set (v := mkVenta (cliente_ref_of env (vb_clienteId b))
              (as_text env (vb_producto b))
              (parseFloat (env_parseFloat env) (vb_monto b))
              (as_text env (vb_fecha b)) Pendiente) in *.
  assert (ventas (st_db st') !! id = Some v) as Hv.
  { rewrite <- Hst'. cbn. apply lookup_insert_eq. }
  eexists st', id, _, v. rewrite <- Hst' at 1 2. split; [reflexivity|].
  split; [done|]. split; [exact Hv|]. split; [done|]. split.
  { unfold saldo_de, total_de. rewrite Hv. by eexists. }
  assert (claves_dadas st') as K'.
  { eapply conserva_claves; [exact K|].
    eapply cambios_conserva; [by eapply servex_cambios|done]. }
  destruct (serve_allx_total env rqs st') as [st1 S]. exists st1.
  split; [exact S|]. intros v1 Hv1.
  destruct (serve_allx_conserva env _ _ _ K' S) as [(_ & Hcons & _) _].
  destruct (Hcons id v Hv) as [Hn|(v1' & Hv1' & Hc1 & _)]; [congruence|].
  rewrite Hv1 in Hv1'. injection Hv1' as <-. split; [done|].
  destruct (servex_get_ventas env today' st1) as [ws Hl].
  eexists _, _, ws. split; [exact Hl|].
  assert (id ∈ vr_id <$> (venta_actualizada <$> select_ventas (st_db st1)) ↔
          ∃ c, v_clienteId v = ClienteId c ∧ is_Some (clientes (st_db st1) !! c))
    as Hiff.
  { rewrite <- list_fmap_compose.
    change (vr_id ∘ venta_actualizada) with vr_id.
    rewrite elem_of_ids_select_ventas. split.
    - intros (v2 & Hv2 & Hs). rewrite Hv1 in Hv2. injection Hv2 as <-.
      rewrite Hc1 in Hs. by apply join_cliente_Some.
    - intros Hs. exists v1. split; [done|]. rewrite Hc1.
      by apply join_cliente_Some. }
  split; [exact Hiff|]. intros Hno. split.
  - rewrite Hiff. intros (c & Hc & [x Hx]). rewrite (Hno c Hc) in Hx. done.
  - cbn. rewrite lookup_ventas_reconciliadas, Hv1. cbn.
    destruct (join_cliente (st_db st1) (v_clienteId v1)) as [x|] eqn:Hx; [|done].
    assert (is_Some (join_cliente (st_db st1) (v_clienteId v1))) as Hs by eauto.
    apply join_cliente_Some in Hs as (c & Hc & [y Hy]).
    rewrite Hc1 in Hc. rewrite (Hno c Hc) in Hy. done.
Qed.

(** X25.  Without foreign keys the payments only grow: any sequence of
    requests is served to the end, and after it the payment rows of the
    initial store are all still there, unchanged and in their order,
    followed by those added since.  Deleting a sale or a layaway then
    deletes none of its payments. *)
Theorem api_abonos_solo_crecen rqs st :
  foreign_keys env = false →
  ∃ st', serve_allx env rqs st = Some st' ∧
    ∃ nuevos, abonos (st_db st') = abonos (st_db st) ++ nuevos.
Proof.
  intros F. destruct (serve_allx_total env rqs st) as [st' S]. exists st'.
  split; [exact S|].
  apply (serve_allx_invariante env
           (λ s, ∃ nuevos, abonos (st_db s) = abonos (st_db st) ++ nuevos))
    with (rqs := rqs) (st := st); [|done|by exists []; rewrite app_nil_r].
  intros s s' C [n Hn]. revert F.
  destruct C as [f|f Hf|refType z refInfo m fecha com L Hm G|c I|id c c' E N1 N2
                 |v Ev Hm Hc|id v fecha E|id E|a Ea Ef Hm Hc|id a fecha E|id E];
    intros F; try (by exists n).
  - exists (n ++ [nuevo_abono (st_db s) refType z m fecha com]).
    change (st_db (with_db ?d _)) with d.
    rewrite abonos_con_abono, Hn. by rewrite app_assoc.
  - exists n. cbn. unfold tras_borrar. by rewrite F.
  - exists n. cbn. unfold tras_borrar. by rewrite F.
Qed.

End Sin_cliente.

(** ** Dates of the validated shape sort chronologically *)

Lemma is_digit_digito c : is_digit c = true → 0 ≤ digito c ≤ 9.
Proof.
  unfold is_digit, digito, nat_of_ascii.
  intros [H1%Nat.leb_le H2%Nat.leb_le]%andb_prop. lia.
Qed.

Lemma compare_digito c c' :
  match Ascii.compare c c' with
  | Eq => c = c'
  | Lt => digito c < digito c'
  | Gt => digito c' < digito c
  end.
Proof.
  unfold digito. destruct (Ascii.compare c c') eqn:E.
  - by apply Ascii.compare_eq_iff.
  - assert (N_of_ascii c < N_of_ascii c')%N by (by apply N.compare_lt_iff). lia.
  - assert (N_of_ascii c' < N_of_ascii c)%N by (by apply N.compare_gt_iff). lia.
Qed.

Lemma date_shape_inv s :
  date_shape s = true →
  ∃ y1 y2 y3 y4 m1 m2 d1 d2,
    s = String y1 (String y2 (String y3 (String y4 (String "-"
          (String m1 (String m2 (String "-"
             (String d1 (String d2 EmptyString))))))))) ∧
    Forall (λ c, is_digit c = true) [y1; y2; y3; y4; m1; m2; d1; d2].
Proof.
  destruct s as [|y1 [|y2 [|y3 [|y4 [|g1 [|m1 [|m2 [|g2 [|d1 [|d2 [|]]]]]]]]]]];
    try done.
  unfold date_shape. cbn [list_ascii_of_string].
  intros [[H ->%Ascii.eqb_eq]%andb_prop ->%Ascii.eqb_eq]%andb_prop.
  exists y1, y2, y3, y4, m1, m2, d1, d2. split; [done|].
  apply Forall_forall. intros c Hc%list_elem_of_In.
  by apply (proj1 (forallb_forall _ _) H).
Qed.

(** X26.  On dates of the shape that the two date updates accept, the order
    of the strings is the order of the days: comparing two such dates as
    text, as ORDER BY does, is comparing them as the numbers yyyymmdd.  So a
    listing puts a row before another exactly when its date is the later
    one or, on the same date, its id is not the smaller one. *)
Theorem fechas_validas_en_orden s1 s2 i1 i2 :
  date_shape s1 = true → date_shape s2 = true →
  String.compare s1 s2 = (fecha_valor s1 ?= fecha_valor s2) ∧
  (desc_fecha_id s1 i1 s2 i2 = true ↔
     fecha_valor s2 < fecha_valor s1 ∨
     (fecha_valor s2 = fecha_valor s1 ∧ i2 ≤ i1)).
Proof.
  intros (a1 & a2 & a3 & a4 & a5 & a6 & a7 & a8 & -> & Ha)%date_shape_inv
         (b1 & b2 & b3 & b4 & b5 & b6 & b7 & b8 & -> & Hb)%date_shape_inv.
  repeat match goal with H : Forall _ (_ :: _) |- _ =>
    apply Forall_cons in H as [?%is_digit_digito H] end.
  assert (∀ x y : string, String.compare x y = CompOpp (String.compare y x)) as A
    by apply String.compare_antisym.
  match goal with |- ?c = ?d ∧ _ => assert (c = d) as E end.
  { unfold fecha_valor. cbn [list_ascii_of_string String.compare].
    change (Ascii.compare "-" "-") with Eq. cbv iota.
    pose proof (compare_digito a1 b1). pose proof (compare_digito a2 b2).
    pose proof (compare_digito a3 b3). pose proof (compare_digito a4 b4).
    pose proof (compare_digito a5 b5). pose proof (compare_digito a6 b6).
    pose proof (compare_digito a7 b7). pose proof (compare_digito a8 b8).
    symmetry.
    repeat match goal with
    | |- context [Ascii.compare ?x ?y] =>
        destruct (Ascii.compare x y); [subst| |]
    end.
    all: first [apply Z.compare_eq_iff; lia | apply Z.compare_lt_iff; lia
               | apply Z.compare_gt_iff; lia]. }
  split; [exact E|].
  unfold desc_fecha_id. rewrite A, E.
  match goal with |- context [CompOpp (?x ?= ?y)] =>
    destruct (Z.compare_spec x y) as [Hq|Hq|Hq] end;
    cbn [CompOpp]; rewrite ?Z.leb_le; split; try done; try lia.
Qed.

(** ** Payment ids, and payments in the listing *)

Section Ids_de_abonos.

Variable env : entorno.

Lemma cambio_ids_abonos st st' :
  cambio env st st' → ids_abonos_ok (st_db st) → ids_abonos_ok (st_db st').
Proof.
  intros C [Hn Hs].
  destruct C as [f|f Hf|refType z refInfo m fecha com L Hm G|c I|id c c' E N1 N2
                 |v Ev Hm Hc|id v fecha E|id E|a Ea Ef Hm Hc|id a fecha E|id E];
    try (by split).
  - change (st_db (with_db ?d _)) with d. split.
    + rewrite abonos_con_abono, fmap_app. apply NoDup_app.
      split; [done|]. split; [|apply NoDup_singleton].
      intros x (a & -> & Ha%Hs)%list_elem_of_fmap.
      intros ?%list_elem_of_singleton. destruct refType; cbn in *; lia.
    + intros a. rewrite abonos_con_abono.
      intros [Ha%Hs| ->%list_elem_of_singleton]%elem_of_app.
      * destruct refType; cbn; lia.
      * destruct refType; cbn; lia.
  - split; cbn.
    + eapply sublist_NoDup; [exact Hn|]. apply fmap_sublist.
      unfold tras_borrar. destruct (foreign_keys env); [apply sublist_filter|done].
    + intros a Ha%elem_of_tras_borrar. by apply Hs.
  - split; cbn.
    + eapply sublist_NoDup; [exact Hn|]. apply fmap_sublist.
      unfold tras_borrar. destruct (foreign_keys env); [apply sublist_filter|done].
    + intros a Ha%elem_of_tras_borrar. by apply Hs.
Qed.

(** X27.  The id given to a new payment is never one in use: any sequence of
    requests is served to the end, and through it the ids of the payments
    stay distinct and within the sequence, whether or not deletions take
    payments away. *)
Theorem api_ids_de_abonos rqs st :
  ids_abonos_ok (st_db st) →
  ∃ st', serve_allx env rqs st = Some st' ∧
    NoDup (ab_id <$> abonos (st_db st')) ∧
    ∀ a, a ∈ abonos (st_db st') → ab_id a ≤ seq_abonos (st_db st').
Proof.
  intros H. destruct (serve_allx_total env rqs st) as [st' S]. exists st'.
  split; [exact S|].
  exact (serve_allx_invariante env (λ s, ids_abonos_ok (st_db s))
           cambio_ids_abonos rqs st st' S H).
Qed.

End Ids_de_abonos.

Section Abono_y_listado.

Variable pf : jsval → num.
Variable pi : jsval → option Z.


End Abono_y_listado.

(** ** The results on the example data *)

Lemma coherente_st_ejemplo : coherente st_ejemplo.
Proof. apply coherente_test. vm_compute. reflexivity. Qed.

Lemma ids_dados_st_ejemplo : ids_dados st_ejemplo.
Proof. apply coherente_st_ejemplo. Qed.

Lemma claves_dadas_st_ejemplo : claves_dadas st_ejemplo.
Proof. destruct ids_dados_st_ejemplo as (K1 & K2 & _). by split. Qed.


Lemma entrega_ok_st_ejemplo : entrega_ok (st_db st_ejemplo).
Proof.
  unfold entrega_ok. apply map_Forall_lookup.
  apply (map_Forall_impl (λ _ a,
           ap_fechaEntrega a = None ∧ ap_estadoApartado a ≠ Entregado)).
  - apply (bool_decide_unpack _). vm_compute. exact I.
  - intros j a [-> N]. split; [by intros [? ?]|done].
Qed.

Lemma ids_abonos_ok_st_ejemplo : ids_abonos_ok (st_db st_ejemplo).
Proof.
  split.
  - apply (bool_decide_unpack _). vm_compute. exact I.
  - intros a Ha%list_elem_of_In. destruct Ha as [<-|[<-|[]]]; cbn; lia.
Qed.

Lemma identificaciones_unicas_st_vacio : identificaciones_unicas (st_db st_vacio).
Proof. intros i j c d s H. cbn in H. by apply lookup_empty_Some in H. Qed.

Lemma claves_dadas_st_vacio : claves_dadas st_vacio.
Proof. destruct coherente_st_vacio as ((K1 & K2 & _) & _). by split. Qed.

Lemma abono_creado_se_lista_witness :
  ∃ st1 tr rows row,
    servex (env_ejemplo false) "2024-03-05"
      (Antes (POST_abonos (pago_venta 1 10))) st_ejemplo = Some (st1, tr) ∧
    servex (env_ejemplo false) "2024-03-06" (GET_abonos (mkQuery (Some 1) None)) st1 =
      Some (st1, [RespondX (mkResponseX 200 (PaymentsList rows)) st1]) ∧
    row ∈ rows ∧ pr_id row = 3 ∧ pr_monto row = 10%float.
Proof.
  assert (∃ st1 tr,
    servex (env_ejemplo false) "2024-03-05"
      (Antes (POST_abonos (pago_venta 1 10))) st_ejemplo = Some (st1, tr) ∧
    responsesx tr =
      [mkResponseX 201
         (Body (PaymentCreated 3 (Some 1) None 10 (JStr "2024-03-01")
                  JUndefined))]) as (st1 & tr & E & R).
  { eexists _, _. split; vm_compute; reflexivity. }
  destruct (abono_creado_se_lista (env_ejemplo false) "2024-03-05" "2024-03-06"
              _ _ _ _ _ _ _ _ _ _ E R) as (rows & row & G & Hin & Hid & _ & _ & Hm).
  exists st1, tr, rows, row. done.
Defined.

Lemma pago_tras_borrar_witness :
  ∃ st1 tr,
    servex (env_ejemplo false) "2024-03-05" (DELETE_de RefVenta 1) st_ejemplo =
      Some (st1, tr) ∧
    passes_validation parseFloat_other_NaN (pago_venta 1 10) = true ∧
    servex (env_ejemplo false) "2024-03-06"
      (Antes (POST_abonos (pago_venta 1 10))) st1 =
      Some (st1, [RespondX
                    (response_of (mkResponse 404 (RefNotFound RefVenta (Some 1))))
                    st1]).
Proof.
  assert (∃ st1 tr,
    servex (env_ejemplo false) "2024-03-05" (DELETE_de RefVenta 1) st_ejemplo =
      Some (st1, tr)) as (st1 & tr & E).
  { eexists _, _. vm_compute. reflexivity. }
  exists st1, tr. split; [exact E|]. split; [reflexivity|].
  apply (pago_tras_borrar (env_ejemplo false) "2024-03-05" "2024-03-06" RefVenta 1
           (pago_venta 1 10) st_ejemplo st1 tr E); reflexivity.
Defined.

(** Without foreign keys, as the source runs, the payment of the deleted
    layaway is still listed. *)
Lemma abonos_tras_borrar_witness :
  ∃ st1 tr rows,
    servex (env_ejemplo false) "2024-03-05" (DELETE_de RefApartado 1) st_ejemplo =
      Some (st1, tr) ∧
    apartados (st_db st1) !! 1 = None ∧
    servex (env_ejemplo false) "2024-03-06" (GET_abonos (abonos_de RefApartado 1))
      st_ejemplo =
      Some (st_ejemplo, [RespondX (mkResponseX 200 (PaymentsList rows)) st_ejemplo]) ∧
    length rows = 1%nat ∧
    servex (env_ejemplo false) "2024-03-06" (GET_abonos (abonos_de RefApartado 1)) st1 =
      Some (st1, [RespondX (mkResponseX 200 (PaymentsList rows)) st1]).
Proof.
  assert (∃ st1 tr,
    servex (env_ejemplo false) "2024-03-05" (DELETE_de RefApartado 1) st_ejemplo =
      Some (st1, tr) ∧ apartados (st_db st1) !! 1 = None) as (st1 & tr & E & N).
  { eexists _, _. split; vm_compute; reflexivity. }
  assert (∃ rows,
    servex (env_ejemplo false) "2024-03-06" (GET_abonos (abonos_de RefApartado 1))
      st_ejemplo =
      Some (st_ejemplo, [RespondX (mkResponseX 200 (PaymentsList rows)) st_ejemplo]) ∧
    length rows = 1%nat) as (rows & G & L).
  { eexists. split; vm_compute; reflexivity. }
  exists st1, tr, rows. split; [exact E|]. split; [exact N|]. split; [exact G|].
  split; [exact L|].
  apply (abonos_tras_borrar (env_ejemplo false) "2024-03-05" "2024-03-06"
           RefApartado 1 st_ejemplo st1 tr rows); [by eexists|exact E|exact G].
Defined.

(** Without foreign keys, as the source runs: a client, a sale and a layaway
    created, three payments admitted, the sale deleted, whose payments stay,
    and a new sale. *)
Lemma api_mantiene_coherencia_witness :
  coherente st_vacio ∧
  ∃ st',
    serve_allx (env_ejemplo false) peticiones_altas st_vacio = Some st' ∧
    coherente st' ∧
    (ab_monto <$> abonos (st_db st')) = [60; 40.001; 50]%float ∧
    size (ventas (st_db st')) = 1%nat.
Proof.
  split; [exact coherente_st_vacio|].
  destruct (api_mantiene_coherencia (env_ejemplo false) peticiones_altas
              st_vacio coherente_st_vacio) as (st' & E & C & _).
  exists st'. split; [exact E|]. split; [exact C|].
  vm_compute in E. injection E as <-. split; vm_compute; reflexivity.
Defined.

Lemma api_conserva_filas_witness :
  claves_dadas st_ejemplo ∧
  ∃ st',
    serve_allx (env_ejemplo false) peticiones_ciclo st_ejemplo = Some st' ∧
    (v_monto <$> ventas (st_db st') !! 1) = Some 100%float ∧
    (ap_estadoApartado <$> apartados (st_db st') !! 1) = Some Entregado ∧
    apartados (st_db st') !! 2 = None ∧
    (∀ id, is_Some (apartados (st_db st') !! id) →
       apartados (st_db st_ejemplo) !! id = None → 2 < id).
Proof.
  split; [exact claves_dadas_st_ejemplo|].
  destruct (api_conserva_filas (env_ejemplo false) peticiones_ciclo st_ejemplo
              claves_dadas_st_ejemplo) as (st' & E & _ & _ & _ & H).
  exists st'. split; [exact E|].
  assert (st_ejemplo = st_ejemplo) as _ by reflexivity.
  split; [|split; [|split; [|exact H]]];
    vm_compute in E; injection E as <-; vm_compute; reflexivity.
Defined.

Lemma api_fecha_entrega_witness :
  entrega_ok (st_db st_ejemplo) ∧
  ∃ st' a,
    serve_allx (env_ejemplo false) peticiones_ciclo st_ejemplo = Some st' ∧
    apartados (st_db st') !! 1 = Some a ∧
    (is_Some (ap_fechaEntrega a) ↔ ap_estadoApartado a = Entregado) ∧
    ap_fechaEntrega a = Some "2024-03-05"%string.
Proof.
  split; [exact entrega_ok_st_ejemplo|].
  destruct (api_fecha_entrega (env_ejemplo false) peticiones_ciclo st_ejemplo
              entrega_ok_st_ejemplo) as (st' & E & H).
  assert (∃ a, apartados (st_db st') !! 1 = Some a ∧
               ap_fechaEntrega a = Some "2024-03-05"%string) as (a & Ha & Hf).
  { vm_compute in E. injection E as <-. eexists. split; vm_compute; reflexivity. }
  exists st', a. split; [exact E|]. split; [exact Ha|]. split; [|exact Hf].
  exact (H 1 a Ha).
Defined.

Lemma api_identificaciones_witness :
  identificaciones_unicas (st_db st_vacio) ∧
  ∃ st',
    serve_allx (env_ejemplo false) peticiones_clientes st_vacio = Some st' ∧
    size (clientes (st_db st')) = 2%nat ∧
    ∀ i j c d s,
      clientes (st_db st') !! i = Some c → clientes (st_db st') !! j = Some d →
      c_identificacion c = Some s → c_identificacion d = Some s → i = j.
Proof.
  split; [exact identificaciones_unicas_st_vacio|].
  destruct (api_identificaciones (env_ejemplo false) peticiones_clientes st_vacio
              identificaciones_unicas_st_vacio) as (st' & E & H).
  exists st'. split; [exact E|]. split; [|exact H].
  vm_compute in E. injection E as <-. vm_compute. reflexivity.
Defined.

(** A new sale of 0.001 for the client of the example is listed right away,
    as 'Pagada'. *)
Lemma venta_nueva_en_el_listado_witness :
  ids_dados st_ejemplo ∧
  ∃ st' tr r st2 rows ws row,
    servex (env_ejemplo false) "2024-03-05"
      (POST_ventas (alta_venta 1 0.001)) st_ejemplo = Some (st', tr) ∧
    responsesx tr = [r] ∧ statusx r = 201%nat ∧
    servex (env_ejemplo false) "2024-03-06" (Antes GET_ventas) st' =
      Some (st2, RespondX (mkResponseX 200 (Body (SalesList rows))) st'
                   :: (WriteX <$> ws)) ∧
    row ∈ rows ∧ vr_id row = 2 ∧ vr_totalAbonado row = 0%float ∧
    vr_saldoPendiente row = Some 0.001%float ∧ vr_estado row = Pagada.
Proof.
  split; [exact ids_dados_st_ejemplo|].
  destruct (venta_nueva_en_el_listado (env_ejemplo false) "2024-03-05" "2024-03-06"
              (alta_venta 1 0.001) st_ejemplo ids_dados_st_ejemplo)
    as (st' & tr & r & E & R & H).
  assert (statusx r = 201%nat) as S.
  { vm_compute in E. injection E as <- <-. vm_compute in R. injection R as <-.
    reflexivity. }
  destruct (H S) as (id & st2 & rows & ws & Hb & _ & G & Hsi & _).
  assert (id = 2) as ->.
  { vm_compute in E. injection E as <- <-. vm_compute in R. injection R as <-.
    vm_compute in Hb. by injection Hb as <-. }
  destruct Hsi as (row & Hin & Hid & _ & _ & Ht & Hs & He);
    [vm_compute; by eexists|].
  exists st', tr, r, st2, rows, ws, row.
  split; [exact E|]. split; [exact R|]. split; [exact S|]. split; [exact G|].
  split; [exact Hin|]. split; [exact Hid|]. split; [exact Ht|].
  split; [exact Hs|]. apply He. vm_compute. reflexivity.
Defined.


(** A sale for a client 7 that does not exist, then paid in full: the
    listing of the day after does not show it. *)
Lemma venta_sin_cliente_no_se_lista_witness :
  claves_dadas st_ejemplo ∧
  ∃ st' id r v st1 st2 rows ws,
    servex (env_ejemplo false) "2024-03-05"
      (POST_ventas (alta_venta 7 100)) st_ejemplo =
      Some (st', [WriteX 1; RespondX r st']) ∧
    statusx r = 201%nat ∧
    ventas (st_db st') !! id = Some v ∧ v_clienteId v = ClienteId 7 ∧
    serve_allx (env_ejemplo false)
      [("2024-03-06"%string, Antes (POST_abonos (pago_venta 2 100)))] st' =
      Some st1 ∧
    v_estado <$> ventas (st_db st1) !! id = Some Pagada ∧
    servex (env_ejemplo false) "2024-03-07" (Antes GET_ventas) st1 =
      Some (st2, RespondX (mkResponseX 200 (Body (SalesList rows))) st1
                   :: (WriteX <$> ws)) ∧
    (id ∉ vr_id <$> rows).
Proof.
  split; [exact claves_dadas_st_ejemplo|].
  destruct (venta_sin_cliente_no_se_lista (env_ejemplo false) "2024-03-05"
              "2024-03-07" (alta_venta 7 100) st_ejemplo
              [("2024-03-06"%string, Antes (POST_abonos (pago_venta 2 100)))])
    as (st' & id & r & v & E & S & Hv & Hc & _ & st1 & E1 & H);
    [reflexivity|reflexivity|reflexivity|exact claves_dadas_st_ejemplo|].
  assert (id = 2 ∧ v_estado <$> ventas (st_db st1) !! 2 = Some Pagada ∧
          clientes (st_db st1) !! 7 = None) as (-> & Hp & Hno).
  { apply elem_of_map_to_list in Hv.
    pose proof (f_equal (fmap fst) E) as E0.
    vm_compute in E0. injection E0 as <-.
    assert (id = 2) as ->.
    { apply list_elem_of_In in Hv. vm_compute in Hv.
      destruct Hv as [Hv|[Hv|[]]]; injection Hv as <- <-; vm_compute in Hc; congruence. }
    vm_compute in E1. injection E1 as <-. repeat split; vm_compute; reflexivity. }
  assert (∃ v1, ventas (st_db st1) !! 2 = Some v1) as [v1 Hv1]
    by (destruct (ventas (st_db st1) !! 2); [by eexists|done]).
  destruct (H v1 Hv1) as (_ & st2 & rows & ws & G & _ & Hn).
  exists st', 2, r, v, st1, st2, rows, ws.
  split; [exact E|]. split; [exact S|]. split; [exact Hv|]. split; [exact Hc|].
  split; [exact E1|]. split; [exact Hp|]. split; [exact G|].
  apply Hn. intros c Hc'. rewrite Hc in Hc'. injection Hc' as <-. exact Hno.
Defined.

Lemma api_abonos_solo_crecen_witness :
  ∃ st' nuevos,
    serve_allx (env_ejemplo false)
      [("2024-03-05", DELETE_ventas 1);
       ("2024-03-06", DELETE_apartados 1);
       ("2024-03-07", Antes (POST_abonos (pago_apartado 2 5)))]%string
      st_ejemplo = Some st' ∧
    ventas (st_db st') !! 1 = None ∧ apartados (st_db st') !! 1 = None ∧
    abonos (st_db st') = abonos (st_db st_ejemplo) ++ nuevos ∧
    length nuevos = 1%nat.
Proof.
  destruct (api_abonos_solo_crecen (env_ejemplo false)
      [("2024-03-05", DELETE_ventas 1);
       ("2024-03-06", DELETE_apartados 1);
       ("2024-03-07", Antes (POST_abonos (pago_apartado 2 5)))]%string
      st_ejemplo eq_refl) as (st' & E & nuevos & Hn).
  exists st', nuevos. split; [exact E|].
  assert (ventas (st_db st') !! 1 = None ∧ apartados (st_db st') !! 1 = None ∧
          length (abonos (st_db st')) = 3%nat) as (Hv & Ha & L).
  { vm_compute in E. injection E as <-. repeat split; vm_compute; reflexivity. }
  split; [exact Hv|]. split; [exact Ha|].
  split; [exact Hn|]. rewrite Hn, length_app in L. cbn in L. lia.
Defined.

Lemma fechas_validas_en_orden_witness :
  date_shape "2024-02-29" = true ∧ date_shape "2024-03-01" = true ∧
  String.compare "2024-02-29" "2024-03-01" = Lt ∧
  desc_fecha_id "2024-03-01" 1 "2024-02-29" 2 = true.
Proof.
  split; [reflexivity|]. split; [reflexivity|].
  destruct (fechas_validas_en_orden "2024-03-01" "2024-02-29" 1 2 eq_refl eq_refl)
    as [_ H].
  split; [reflexivity|]. apply H. left. vm_compute. reflexivity.
Defined.

(** Without foreign keys, as the source runs, the payment of the deleted
    sale stays and the new payment gets the next id. *)
Lemma api_ids_de_abonos_witness :
  ids_abonos_ok (st_db st_ejemplo) ∧
  ∃ st',
    serve_allx (env_ejemplo false)
      [("2024-03-05", DELETE_ventas 1);
       ("2024-03-07", Antes (POST_abonos (pago_apartado 2 5)))]%string
      st_ejemplo = Some st' ∧
    (ab_id <$> abonos (st_db st')) = [1; 2; 3] ∧
    NoDup (ab_id <$> abonos (st_db st')).
Proof.
  split; [exact ids_abonos_ok_st_ejemplo|].
  destruct (api_ids_de_abonos (env_ejemplo false)
      [("2024-03-05", DELETE_ventas 1);
       ("2024-03-07", Antes (POST_abonos (pago_apartado 2 5)))]%string
      st_ejemplo ids_abonos_ok_st_ejemplo) as (st' & E & N & _).
  exists st'. split; [exact E|]. split; [|exact N].
  vm_compute in E. injection E as <-. vm_compute. reflexivity.
Defined.


